(** * sprint-tracker: a shallow embedding of [src/cli.js] and [src/github-sync.js]

    The development follows the two source files of the repository:
    the command-line front end ([cli.js]: data store, board renderer,
    task mutator, dispatcher) and the issue-tracker bridge
    ([github-sync.js]: push, pull and their subprocess helpers).

    Conventions of the embedding.
    - A JavaScript string is the list of its UTF-16 code units, so that
      [length] is the source's [.length]. The case mapping of
      [toLowerCase] and [toUpperCase] is the one of the runtime: the
      embedding takes it as given and fixes its values on ASCII text
      only.
    - A Number that the program uses as an integer is the [Z] that is
      its value, and [infinity], the power of two that follows the
      largest double, stands for [Infinity]. What the program computes
      from text is rounded as the doubles round it ([Number_of]); the
      text of a Number is its decimal writing up to [2^53] and the text
      given by the runtime beyond. The two floating-point expressions of
      the program (the progress percentage and the filled part of a
      progress bar) are evaluated in IEEE 754 binary64 with the
      operations of [SpecFloat].
    - An optional or nullable field is an [option]; the fields that the
      program reads as strings are strings.
    - An object used as a dictionary holds its own keys, and answers
      for the members of [Object.prototype] as well: a key that names
      one of them finds it ([inherited]).
    - A reference to a task object of the loaded document is the position
      of the task in [data.tasks], which no command reorders.
    - The program state (the loaded document, the data file, the console,
      the clock and the outside world reached through subprocesses) is
      threaded through a state-and-exception monad. One run reads one
      instant from the clock. *)

From Stdlib Require Import ZArith NArith String Ascii SpecFloat Lia.
From stdpp Require Import base option list numbers gmap.

Set Default Proof Using "Type".
Local Open Scope Z_scope.

(* ================================================================== *)
(** * JavaScript values *)
(* ================================================================== *)

Module Js.

(** A string is its sequence of UTF-16 code units. *)
Definition jsstring : Type := list N.

(** Code units of an ASCII literal. *)
Definition js (s : string) : jsstring :=
  List.map N_of_ascii (list_ascii_of_string s).
#[global] Arguments js _%_string : simpl never.

Definition str_eqb (a b : jsstring) : bool := bool_decide (a = b).

(** Truthiness of a string and of an optional string, number. *)
Definition truthy_str (s : jsstring) : bool :=
  match s with [] => false | _ => true end.

Definition truthy_ostr (o : option jsstring) : bool :=
  match o with Some s => truthy_str s | None => false end.

Definition truthy_num (o : option Z) : bool :=
  match o with Some n => negb (n =? 0) | None => false end.

(** [x || d] on an optional string and on an optional number. *)
Definition or_str (o : option jsstring) (d : jsstring) : jsstring :=
  match o with Some s => if truthy_str s then s else d | None => d end.

Definition or_num (o : option Z) (d : Z) : Z :=
  match o with Some n => if n =? 0 then d else n | None => d end.

(** The case mapping of the ASCII letters: every other code unit is
    kept.  On text made of ASCII code units it is what
    [String.prototype.toLowerCase] and [toUpperCase] compute. *)
Definition lower_unit (c : N) : N :=
  if ((65 <=? c) && (c <=? 90))%N then (c + 32)%N else c.
Definition upper_unit (c : N) : N :=
  if ((97 <=? c) && (c <=? 122))%N then (c - 32)%N else c.
Definition ascii_lower (s : jsstring) : jsstring := List.map lower_unit s.
Definition ascii_upper (s : jsstring) : jsstring := List.map upper_unit s.
Definition is_ascii (s : jsstring) : bool := forallb (fun c => (c <? 128)%N) s.

(** [s.startsWith(p)] *)
Fixpoint startsWith (s p : jsstring) {struct p} : bool :=
  match p, s with
  | [], _ => true
  | _ :: _, [] => false
  | c :: p', d :: s' => (c =? d)%N && startsWith s' p'
  end.

(** [s.replace(pat, rep)] with a string pattern: the first occurrence of
    [pat], scanning from the left, is replaced. *)
Fixpoint replace (s pat rep : jsstring) : jsstring :=
  if startsWith s pat then rep ++ drop (length pat) s
  else match s with
       | [] => []
       | c :: s' => c :: replace s' pat rep
       end.

(** [arr.join(sep)] *)
Fixpoint join (sep : jsstring) (l : list jsstring) : jsstring :=
  match l with
  | [] => []
  | [x] => x
  | x :: rest => x ++ sep ++ join sep rest
  end.

(** [s.split(sep)[0]] for a one-unit separator. *)
Fixpoint split_head (sep : N) (s : jsstring) : jsstring :=
  match s with
  | [] => []
  | c :: s' => if (c =? sep)%N then [] else c :: split_head sep s'
  end.

(** [c.repeat(n)] for a one-unit string, and [s.substring(0, n)]. *)
Definition repeat_unit (c : N) (n : nat) : jsstring := replicate n c.
Definition substring0 (s : jsstring) (n : nat) : jsstring := take n s.

(** ** Numbers as text *)

Definition digit_unit (d : N) : N := (48 + d)%N.

(** Decimal digits of a natural number, most significant first. *)
Fixpoint digits_fuel (fuel : nat) (n : N) (acc : jsstring) : jsstring :=
  match fuel with
  | O => acc
  | S fuel' =>
      let acc' := digit_unit (n mod 10)%N :: acc in
      if (n / 10 =? 0)%N then acc' else digits_fuel fuel' (n / 10)%N acc'
  end.

Definition String_of_N (n : N) : jsstring :=
  digits_fuel (S (N.to_nat (N.log2 n))) n [].

(** The decimal writing of an integer. *)
Definition decimal (z : Z) : jsstring :=
  match z with
  | Z0 => js "0"
  | Zpos p => String_of_N (Npos p)
  | Zneg p => js "-" ++ String_of_N (Npos p)
  end.

(** [s.padStart(n, c)] for a one-unit filler. *)
Definition padStart (s : jsstring) (n : nat) (c : N) : jsstring :=
  replicate (n - length s) c ++ s.

(** White space and line terminators skipped by [parseInt] and [trim]. *)
Definition is_space (c : N) : bool :=
  bool_decide (c ∈ [9; 10; 11; 12; 13; 32; 160; 5760; 8232; 8233; 8239;
                    8287; 12288; 65279]%N)
  || ((8192 <=? c) && (c <=? 8202))%N.

Fixpoint trimStart (s : jsstring) : jsstring :=
  match s with
  | c :: s' => if is_space c then trimStart s' else s
  | [] => []
  end.

Definition trim (s : jsstring) : jsstring :=
  reverse (trimStart (reverse (trimStart s))).

(** Value of a code unit as a digit of the given radix. *)
Definition digit_val (radix : N) (c : N) : option N :=
  let v := if ((48 <=? c) && (c <=? 57))%N then Some (c - 48)%N
           else if ((97 <=? c) && (c <=? 122))%N then Some (c - 87)%N
           else if ((65 <=? c) && (c <=? 90))%N then Some (c - 55)%N
           else None in
  match v with
  | Some d => if (d <? radix)%N then Some d else None
  | None => None
  end.

(** Longest prefix of digits, accumulated from the left; [None] when
    there is no digit at all. *)
Fixpoint parse_digits (radix : N) (acc : option N) (s : jsstring) : option N :=
  match s with
  | [] => acc
  | c :: s' =>
      match digit_val radix c with
      | Some d => parse_digits radix (Some (default 0 acc * radix + d)%N) s'
      | None => acc
      end
  end.

(** The sign and the hexadecimal prefix that [parseInt] strips. *)
Definition strip_sign (s : jsstring) : bool * jsstring :=
  match s with
  | c :: r => if (c =? 45)%N then (true, r)
              else if (c =? 43)%N then (false, r)
              else (false, s)
  | [] => (false, s)
  end.

Definition strip_hex (s : jsstring) : N * jsstring :=
  match s with
  | c :: x :: r => if (c =? 48)%N && ((x =? 120)%N || (x =? 88)%N) then (16%N, r)
                   else (10%N, s)
  | _ => (10%N, s)
  end.

(** The largest integer up to which every integer is a double, and
    the integer that stands for [Infinity]. *)
Definition max_safe : Z := 9007199254740992.
Definition infinity : Z := 2 ^ 1024.

(** The Number nearest to an integer: the integer itself up to [2^53];
    beyond, the integer kept to its 53 leading bits, rounded to the
    nearest, a tie going to the even one; [Infinity] when that is past
    the largest double. *)
Definition Number_of (z : Z) : Z :=
  let a := Z.abs z in
  if a <=? max_safe then z
  else
    let e := Z.log2 a - 52 in
    let q := a / 2 ^ e in
    let r := a mod 2 ^ e in
    let half := 2 ^ (e - 1) in
    let q' := if (half <? r) || ((r =? half) && Z.odd q) then q + 1 else q in
    let v := q' * 2 ^ e in
    Z.sgn z * (if infinity <=? v then infinity else v).

(** [parseInt(s)] without a radix argument: the Number nearest to the
    integer that the digits write; [None] is [NaN]. *)
Definition parseInt (s : jsstring) : option Z :=
  let '(neg, s2) := strip_sign (trimStart s) in
  let '(radix, s3) := strip_hex s2 in
  match parse_digits radix None s3 with
  | Some n => Some (Number_of (if neg then - Z.of_N n else Z.of_N n))
  | None => None
  end.

(** ** Double-precision arithmetic *)

Definition prec : Z := 53.
Definition emax : Z := 1024.

(** The double nearest to an integer. *)
Definition double_of_Z (z : Z) : spec_float := binary_normalize prec emax z 0 false.
Definition ddiv : spec_float -> spec_float -> spec_float := SFdiv prec emax.
Definition dmul : spec_float -> spec_float -> spec_float := SFmul prec emax.

(** An integral result of [Math.round], or one of its non-finite values. *)
Inductive jsround : Type :=
  | RInt (z : Z)
  | RNaN
  | RInf (negative : bool).

(** [Math.round(x)]: the integer nearest to [x], ties towards
    [+Infinity]; computed exactly on the mantissa and exponent. *)
Definition Math_round (x : spec_float) : jsround :=
  match x with
  | S754_zero _ => RInt 0
  | S754_infinity s => RInf s
  | S754_nan => RNaN
  | S754_finite s m e =>
      let sm := if s then Zneg m else Zpos m in
      if 0 <=? e then RInt (sm * 2 ^ e)
      else RInt ((2 * sm + 2 ^ (- e)) / 2 ^ (1 - e))
  end.

End Js.
Export Js.


(* ================================================================== *)
(** * The data model ([sprint-data.json], [.sprint-tracker.json]) *)
(* ================================================================== *)

Record Task : Type := mkTask {
  id : jsstring;
  title : jsstring;
  type : jsstring;
  status : jsstring;
  priority : jsstring;
  points : option Z;
  sprint : jsstring;
  owner : option jsstring;
  branch : option jsstring;
  worktree : option jsstring;
  notes : option jsstring;
  linkedTD : option jsstring;
  acceptanceCriteria : option (list jsstring);
  blockers : option (list jsstring);
  createdAt : jsstring;
  completedAt : option jsstring;
  githubIssue : option Z;
  githubUrl : option jsstring
}.

(** Assignments to one property of a task object. *)
Definition set_status (v : jsstring) (t : Task) : Task :=
  mkTask (id t) (title t) (type t) v (priority t) (points t) (sprint t)
    (owner t) (branch t) (worktree t) (notes t) (linkedTD t)
    (acceptanceCriteria t) (blockers t) (createdAt t) (completedAt t)
    (githubIssue t) (githubUrl t).

Definition set_completedAt (v : jsstring) (t : Task) : Task :=
  mkTask (id t) (title t) (type t) (status t) (priority t) (points t) (sprint t)
    (owner t) (branch t) (worktree t) (notes t) (linkedTD t)
    (acceptanceCriteria t) (blockers t) (createdAt t) (Some v)
    (githubIssue t) (githubUrl t).

Definition set_githubIssue (v : option Z) (t : Task) : Task :=
  mkTask (id t) (title t) (type t) (status t) (priority t) (points t) (sprint t)
    (owner t) (branch t) (worktree t) (notes t) (linkedTD t)
    (acceptanceCriteria t) (blockers t) (createdAt t) (completedAt t)
    v (githubUrl t).

Definition set_githubUrl (v : jsstring) (t : Task) : Task :=
  mkTask (id t) (title t) (type t) (status t) (priority t) (points t) (sprint t)
    (owner t) (branch t) (worktree t) (notes t) (linkedTD t)
    (acceptanceCriteria t) (blockers t) (createdAt t) (completedAt t)
    (githubIssue t) (Some v).

Module TechDebt.
Record t : Type := mk {
  id : jsstring;
  status : jsstring;
  progress : option Z;
  linkedTask : option jsstring
}.
End TechDebt.

Record Capacity : Type := mkCapacity {
  totalHours : Z;
  committed : Z;
  buffer : Z
}.

Record Document : Type := mkDocument {
  project : jsstring;
  version : option jsstring;
  currentSprint : jsstring;
  sprintStart : jsstring;
  sprintEnd : jsstring;
  capacity : option Capacity;
  tasks : list Task;
  technicalDebt : option (list TechDebt.t);
  lastUpdated : jsstring
}.

Definition set_tasks (v : list Task) (d : Document) : Document :=
  mkDocument (project d) (version d) (currentSprint d) (sprintStart d)
    (sprintEnd d) (capacity d) v (technicalDebt d) (lastUpdated d).

Definition set_lastUpdated (v : jsstring) (d : Document) : Document :=
  mkDocument (project d) (version d) (currentSprint d) (sprintStart d)
    (sprintEnd d) (capacity d) (tasks d) (technicalDebt d) v.

(** The configuration object; [None] for a key that is absent. *)
Record Config : Type := mkConfig {
  projectName : option jsstring;
  dataFile : option jsstring;
  boardFile : option jsstring;
  taskPrefix : option jsstring;
  columns : option (list jsstring);
  githubProject : option Z
}.

(** [config?.columns || [...]]: an array is truthy even when empty. *)
Definition defaultColumns : list jsstring :=
  [js "backlog"; js "ready"; js "in_progress"; js "review"; js "done"].

Definition configColumns (config : option Config) : list jsstring :=
  match config with
  | Some c => match columns c with Some l => l | None => defaultColumns end
  | None => defaultColumns
  end.

(** [config?.githubProject?.number] *)
Definition configProjectNumber (config : option Config) : option Z :=
  match config with Some c => githubProject c | None => None end.

(* ================================================================== *)
(** * Program state and effects *)
(* ================================================================== *)

Inductive Stream : Type := Stdout | Stderr.

(** One call of [console.log] or [console.error]. *)
Definition Line : Type := (Stream * jsstring)%type.

(** Outcome of a statement: normal completion or a thrown error, which
    carries its message. *)
Inductive Res (A : Type) : Type :=
  | Ok (a : A)
  | Throw (message : jsstring).
Arguments Ok {A} a.
Arguments Throw {A} message.

(** The state of one run of the program.  [data] is the document object
    loaded by [loadData], shared by reference by every command;
    [written] lists the successive contents written to the data file;
    [now] is the reading of the clock, [new Date().toISOString()];
    [world] is whatever the subprocesses of the bridge talk to. *)
Record State (W : Type) : Type := mkState {
  data : Document;
  written : list Document;
  console : list Line;
  now : jsstring;
  world : W
}.
Arguments mkState {W}.
Arguments data {W}.
Arguments written {W}.
Arguments console {W}.
Arguments now {W}.
Arguments world {W}.

Definition M (W A : Type) : Type := State W -> Res A * State W.

Section Monad.
Context {W : Type}.

Definition ret {A} (a : A) : M W A := fun s => (Ok a, s).

Definition bind {A B} (m : M W A) (k : A -> M W B) : M W B :=
  fun s => match m s with
           | (Ok a, s') => k a s'
           | (Throw e, s') => (Throw e, s')
           end.

Definition throw {A} (e : jsstring) : M W A := fun s => (Throw e, s).

(** [try { m } catch (err) { h(err.message) }] *)
Definition try_catch {A} (m : M W A) (h : jsstring -> M W A) : M W A :=
  fun s => match m s with
           | (Ok a, s') => (Ok a, s')
           | (Throw e, s') => h e s'
           end.

Definition get : M W (State W) := fun s => (Ok s, s).

Definition put_data (d : Document) : M W unit :=
  fun s => (Ok tt, mkState d (written s) (console s) (now s) (world s)).

Definition write_file (d : Document) : M W unit :=
  fun s => (Ok tt, mkState (data s) (written s ++ [d]) (console s) (now s) (world s)).

Definition print (l : Line) : M W unit :=
  fun s => (Ok tt, mkState (data s) (written s) (console s ++ [l]) (now s) (world s)).

Definition console_log (msg : jsstring) : M W unit := print (Stdout, msg).
Definition console_error (msg : jsstring) : M W unit := print (Stderr, msg).

(** A subprocess: a transition of the outside world with a result. *)
Definition exec {A} (f : W -> A * W) : M W A :=
  fun s => let '(a, w) := f (world s) in
           (Ok a, mkState (data s) (written s) (console s) (now s) w).
End Monad.

Declare Scope prog_scope.
Delimit Scope prog_scope with prog.
Notation "x <- m ;; k" := (bind m (fun x => k))
  (at level 100, m at next level, right associativity) : prog_scope.
Notation "m ;;; k" := (bind m (fun _ => k))
  (at level 100, right associativity) : prog_scope.
Open Scope prog_scope.

(* ================================================================== *)
(** * The JavaScript runtime *)
(* ================================================================== *)

Module Ansi.
Definition esc (code : string) : jsstring := 27%N :: js code.
Definition reset := esc "[0m".
Definition bright := esc "[1m".
Definition dim := esc "[2m".
Definition red := esc "[31m".
Definition green := esc "[32m".
Definition yellow := esc "[33m".
Definition blue := esc "[34m".
Definition magenta := esc "[35m".
Definition cyan := esc "[36m".
End Ansi.

(** Glyphs outside ASCII, as code units. *)
Module Glyph.
Definition check : jsstring := [10003%N].          (* U+2713 *)
Definition cross : jsstring := [10007%N].          (* U+2717 *)
Definition arrow : jsstring := [8594%N].           (* U+2192 *)
Definition dbl_rule : N := 9552%N.                 (* U+2550 *)
Definition rule : N := 9472%N.                     (* U+2500 *)
Definition vbar : jsstring := [9474%N].            (* U+2502 *)
Definition full_block : N := 9608%N.               (* U+2588 *)
Definition light_shade : N := 9617%N.              (* U+2591 *)
Definition red_circle : jsstring := [55357; 56628]%N.     (* U+1F534 *)
Definition orange_circle : jsstring := [55357; 57312]%N.  (* U+1F7E0 *)
Definition yellow_circle : jsstring := [55357; 57313]%N.  (* U+1F7E1 *)
Definition green_circle : jsstring := [55357; 57314]%N.   (* U+1F7E2 *)
Definition white_circle : jsstring := [9898%N].           (* U+26AA *)
Definition check_mark_button : jsstring := [9989%N].      (* U+2705 *)
Definition cycle : jsstring := [55357; 56580]%N.          (* U+1F504 *)
Definition cross_mark : jsstring := [10060%N].            (* U+274C *)
End Glyph.

(** Glyphs of the type icons and of the list and show views. *)
Module Glyph2.
Definition sparkles : jsstring := [10024%N].                (* U+2728 *)
Definition bug : jsstring := [55357; 56347]%N.              (* U+1F41B *)
Definition recycle : jsstring := [9851; 65039]%N.           (* U+267B U+FE0F *)
Definition books : jsstring := [55357; 56538]%N.            (* U+1F4DA *)
Definition test_tube : jsstring := [55358; 56810]%N.        (* U+1F9EA *)
Definition wrench : jsstring := [55357; 56615]%N.           (* U+1F527 *)
Definition microscope : jsstring := [55357; 56620]%N.       (* U+1F52C *)
Definition pushpin : jsstring := [55357; 56524]%N.          (* U+1F4CC *)
Definition bullet : jsstring := [8226%N].                   (* U+2022 *)
Definition hook_arrow : jsstring := [8627%N].               (* U+21B3 *)
End Glyph2.

Definition nl : jsstring := [10%N].

(** What the embedding takes from the runtime without defining it.
    [toLowerCase] and [toUpperCase] are the methods of
    [String.prototype]: of the Unicode case mapping behind them, the
    embedding fixes the part on ASCII text.  [Number_toString n] is
    [String(n)] for a finite Number beyond [2^53], where the runtime
    prints the shortest digits that read back as [n].
    [Object_prototype k] is the member of [Object.prototype] named [k],
    as a template literal or a concatenation renders it, and [None] when
    there is no such member; every member is truthy.
    [board_with_proto] is what [cmdBoard] does after its first four
    lines when a column is named [__proto__], so that the assignment
    [grouped[col] = []] replaces the prototype of [grouped]: the lines
    that it prints and how it ends. *)
Class Runtime : Type := {
  toLowerCase : jsstring -> jsstring;
  toUpperCase : jsstring -> jsstring;
  toLowerCase_ascii : forall s, is_ascii s = true -> toLowerCase s = ascii_lower s;
  toUpperCase_ascii : forall s, is_ascii s = true -> toUpperCase s = ascii_upper s;
  Number_toString : Z -> jsstring;
  Object_prototype : jsstring -> option jsstring;
  board_with_proto : option Config -> Document -> list Line * Res unit
}.

Section Program.
Context `{RT : Runtime}.

(** [String(n)] and [`${n}`] for a Number held as an integer. *)
Definition String_of_Z (z : Z) : jsstring :=
  if Z.abs z <=? max_safe then decimal z
  else if infinity <=? Z.abs z then (if z <? 0 then js "-Infinity" else js "Infinity")
  else Number_toString z.

(** [obj[k]] for a key [k] that is no own key of the plain object
    [obj]: the member of [Object.prototype] that the lookup finds, as
    text; [__proto__] finds the prototype itself. *)
Definition inherited (k : jsstring) : option jsstring :=
  if str_eqb k (js "__proto__") then Some (js "[object Object]")
  else Object_prototype k.

(** [(config?.taskPrefix || 'TASK').toUpperCase()] *)
Definition configPrefix (config : option Config) : jsstring :=
  toUpperCase (or_str (match config with Some c => taskPrefix c | None => None end)
                      (js "TASK")).

(* ================================================================== *)
(** * [cli.js] *)
(* ================================================================== *)

(** [statusColors[col] || ''], as text *)
Definition statusColor (col : jsstring) : jsstring :=
  if str_eqb col (js "backlog") then Ansi.dim
  else if str_eqb col (js "todo") then Ansi.dim
  else if str_eqb col (js "ready") then Ansi.cyan
  else if str_eqb col (js "in_progress") then Ansi.yellow
  else if str_eqb col (js "review") then Ansi.magenta
  else if str_eqb col (js "done") then Ansi.green
  else if str_eqb col (js "blocked") then Ansi.red
  else default [] (inherited col).

(** [priorityIcons[p] || '⚪'], as text *)
Definition priorityIcon (p : jsstring) : jsstring :=
  if str_eqb p (js "critical") then Glyph.red_circle
  else if str_eqb p (js "high") then Glyph.orange_circle
  else if str_eqb p (js "medium") then Glyph.yellow_circle
  else if str_eqb p (js "low") then Glyph.green_circle
  else default Glyph.white_circle (inherited p).

(** [new Date().toISOString()] and [new Date().toISOString().split('T')[0]] *)
Definition isoNow {W} : M W jsstring := fun s => (Ok (now s), s).
Definition isoToday {W} : M W jsstring := fun s => (Ok (split_head 84 (now s)), s).

(** [saveData(config, data)]: stamps [lastUpdated] on the shared document
    and writes the whole document to the data file. *)
Definition saveData {W} (config : option Config) : M W unit :=
  t <- isoNow ;;
  s <- get ;;
  let d := set_lastUpdated t (data s) in
  put_data d ;;;
  write_file d.

(** [padRight(str, len)] *)
Definition padRight (str : jsstring) (len : nat) : jsstring :=
  if (len <=? length str)%nat then substring0 str len
  else str ++ repeat_unit 32 (len - length str).

(** Exceptions of the runtime, by their messages. *)
Definition RangeError_count (shown : jsstring) : jsstring :=
  js "Invalid count value: " ++ shown.

Definition String_of_round (r : jsround) : jsstring :=
  match r with
  | RInt z => String_of_Z z
  | RNaN => js "NaN"
  | RInf false => js "Infinity"
  | RInf true => js "-Infinity"
  end.

(** The count argument of [String.prototype.repeat]: [NaN] counts as 0,
    a negative or infinite count is a [RangeError]. *)
Definition repeat_count (r : jsround) : Res nat :=
  match r with
  | RInt z => if z <? 0 then Throw (RangeError_count (String_of_Z z))
              else Ok (Z.to_nat z)
  | RNaN => Ok O
  | RInf _ => Throw (RangeError_count (String_of_round r))
  end.

(** [width - filled] *)
Definition minus_round (width : Z) (r : jsround) : jsround :=
  match r with
  | RInt z => RInt (width - z)
  | RNaN => RNaN
  | RInf s => RInf (negb s)
  end.

(** [Math.round(percent / 100 * width)] *)
Definition barFilled (percent width : Z) : jsround :=
  Math_round (dmul (ddiv (double_of_Z percent) (double_of_Z 100)) (double_of_Z width)).

(** [createProgressBar(percent, width)] *)
Definition createProgressBar (percent width : Z) : Res jsstring :=
  let filled := barFilled percent width in
  match repeat_count filled with
  | Throw e => Throw e
  | Ok nf =>
      match repeat_count (minus_round width filled) with
      | Throw e => Throw e
      | Ok ne =>
          Ok (js "[" ++ repeat_unit Glyph.full_block nf
                     ++ repeat_unit Glyph.light_shade ne ++ js "]")
      end
  end.

Definition lift_res {W A} (r : Res A) : M W A := fun s => (r, s).

(** [l.forEach(f)] and [for (const x of l) f(x)] *)
Fixpoint forEach {W A} (f : A -> M W unit) (l : list A) : M W unit :=
  match l with
  | [] => ret tt
  | x :: l' => f x ;;; forEach f l'
  end.

(** ** [cmdBoard] *)

(** [data.tasks.filter(t => t.sprint === data.currentSprint)] *)
Definition sprintTasksOf (d : Document) : list Task :=
  List.filter (fun t => str_eqb (sprint t) (currentSprint d)) (tasks d).

(** The message of the error of calling [push] on a member of
    [Object.prototype]. *)
Definition TypeError_push : jsstring :=
  js "grouped[task.status].push is not a function".

(** [if (grouped[task.status]) grouped[task.status].push(task)] on an
    object [grouped] whose prototype is [Object.prototype]: a status
    that is a column finds its array; a status that names a member of
    [Object.prototype] finds that member, which is truthy and has no
    [push]; any other status finds nothing. *)
Definition groupStep (g : gmap jsstring (list Task)) (task : Task)
    : Res (gmap jsstring (list Task)) :=
  match g !! status task with
  | Some l => Ok (<[status task := l ++ [task]]> g)
  | None => match inherited (status task) with
            | Some _ => Throw TypeError_push
            | None => Ok g
            end
  end.

Fixpoint groupFrom (g : gmap jsstring (list Task)) (sprintTasks : list Task)
    : Res (gmap jsstring (list Task)) :=
  match sprintTasks with
  | [] => Ok g
  | task :: rest =>
      match groupStep g task with
      | Ok g' => groupFrom g' rest
      | Throw e => Throw e
      end
  end.

(** The object [grouped] when no column is named [__proto__]: one array
    per configured column, filled with the sprint's tasks in list
    order. *)
Definition groupTasks (cols : list jsstring) (sprintTasks : list Task)
    : Res (gmap jsstring (list Task)) :=
  groupFrom (foldl (fun g col => <[col := []]> g) ∅ cols) sprintTasks.

(** [Math.floor(78 / columns.length)]; not used when there is no column. *)
Definition colWidthOf (cols : list jsstring) : nat := (78 / length cols)%nat.

(** One cell of the header line. *)
Definition headerCell (colWidth : nat) (col : jsstring) : jsstring :=
  padRight (replace (toUpperCase col) (js "_") (js " ")) colWidth.

(** The text of a task's cell before padding. *)
Definition cellText (task : Task) : jsstring :=
  priorityIcon (priority task) ++ js " " ++ id task.

(** One cell of row [i]: the padded text, without its colour codes. *)
Definition boardCell (grouped : gmap jsstring (list Task)) (colWidth : nat)
    (col : jsstring) (i : nat) : jsstring :=
  match (grouped !!! col) !! i with
  | Some task => padRight (cellText task) colWidth
  | None => padRight [] colWidth
  end.

Definition boardRow (cols : list jsstring) (grouped : gmap jsstring (list Task))
    (colWidth : nat) (i : nat) : jsstring :=
  foldl (fun row '(idx, col) =>
           let row1 :=
             match (grouped !!! col) !! i with
             | Some _ => row ++ statusColor col ++ boardCell grouped colWidth col i
                             ++ Ansi.reset
             | None => row ++ boardCell grouped colWidth col i
             end in
           if (idx <? length cols - 1)%nat then row1 ++ Glyph.vbar else row1)
        [] (imap pair cols).

(** [Math.max(...columns.map(col => grouped[col].length), 1)] *)
Definition maxRowsOf (cols : list jsstring) (grouped : gmap jsstring (list Task)) : nat :=
  foldr Nat.max 1%nat (List.map (fun col => length (grouped !!! col)) cols).

(** [l.reduce((sum, t) => sum + (t.points || 0), 0)]: each sum is the
    Number nearest to it.  (The points of a document read from the data
    file are Numbers themselves, none of them infinite, so that no sum
    is [NaN].) *)
Definition sumPoints (l : list Task) : Z :=
  foldl (fun sum t => Number_of (sum + or_num (points t) 0)) 0 l.

Definition donePointsOf (sprintTasks : list Task) : Z :=
  sumPoints (List.filter (fun t => str_eqb (status t) (js "done")) sprintTasks).

Definition totalPointsOf (sprintTasks : list Task) : Z := sumPoints sprintTasks.

(** [totalPoints > 0 ? Math.round(donePoints / totalPoints * 100) : 0] *)
Definition progressOf (donePoints totalPoints : Z) : jsround :=
  if 0 <? totalPoints
  then Math_round (dmul (ddiv (double_of_Z donePoints) (double_of_Z totalPoints))
                        (double_of_Z 100))
  else RInt 0.

(** The percentage shown by the board for a document. *)
Definition boardProgress (d : Document) : jsround :=
  let sprintTasks := sprintTasksOf d in
  progressOf (donePointsOf sprintTasks) (totalPointsOf sprintTasks).

Definition hasBlockers (t : Task) : bool :=
  match blockers t with Some (_ :: _) => true | _ => false end.

Definition cmdBoard {W} (config : option Config) : M W unit :=
  s <- get ;;
  let d := data s in
  let cols := configColumns config in
  console_log (nl ++ repeat_unit Glyph.dbl_rule 80) ;;;
  console_log (Ansi.bright ++ js "  SPRINT " ++ currentSprint d ++ js " - "
                 ++ project d ++ Ansi.reset) ;;;
  console_log (js "  " ++ sprintStart d ++ js " " ++ Glyph.arrow ++ js " " ++ sprintEnd d) ;;;
  console_log (repeat_unit Glyph.dbl_rule 80) ;;;
  if bool_decide (js "__proto__" ∈ cols)
  then
    (fun s' => let '(lines, r) := board_with_proto config d in
               (r, mkState (data s') (written s') (console s' ++ lines) (now s')
                     (world s')))
  else
    let sprintTasks := sprintTasksOf d in
    grouped <- lift_res (groupTasks cols sprintTasks) ;;
    let colWidth := colWidthOf cols in
    console_log (nl ++ join Glyph.vbar (List.map (headerCell colWidth) cols)) ;;;
    console_log (repeat_unit Glyph.rule 80) ;;;
    let maxRows := maxRowsOf cols grouped in
    forEach (fun i => console_log (boardRow cols grouped colWidth i)) (seq 0 maxRows) ;;;
    let donePoints := donePointsOf sprintTasks in
    let totalPoints := totalPointsOf sprintTasks in
    let progress := progressOf donePoints totalPoints in
    console_log (nl ++ repeat_unit Glyph.rule 80) ;;;
    console_log (Ansi.bright ++ js "Progress:" ++ Ansi.reset ++ js " "
                   ++ String_of_Z donePoints ++ js "/" ++ String_of_Z totalPoints
                   ++ js " points (" ++ String_of_round progress ++ js "%)") ;;;
    let blocked := List.filter hasBlockers sprintTasks in
    (if (0 <? length blocked)%nat
     then console_log (Ansi.red ++ js "Blockers:" ++ Ansi.reset ++ js " "
                         ++ join (js ", ") (List.map id blocked))
     else ret tt) ;;;
    console_log (Ansi.dim ++ js "Updated: " ++ lastUpdated d ++ Ansi.reset ++ nl).

(** ** [cmdAdd] *)

(** [parseInt(t.id.replace(prefix + '-', '')) || 0] *)
Definition suffixNumOf (prefix : jsstring) (t : Task) : Z :=
  or_num (parseInt (replace (id t) (prefix ++ js "-") [])) 0.

(** The largest Number found after [prefix-] among the ids that start
    with [prefix], 0 when there is none: [Math.max] on the Numbers that
    [parseInt] returned. *)
Definition maxNumOf (prefix : jsstring) (ts : list Task) : Z :=
  foldl (fun max n => Z.max max n) 0
    (List.map (suffixNumOf prefix)
       (List.filter (fun t => startsWith (id t) prefix) ts)).

(** [`${prefix}-${String(maxNum + 1).padStart(3, '0')}`]: the sum is the
    Number nearest to it. *)
Definition newIdOf (prefix : jsstring) (ts : list Task) : jsstring :=
  prefix ++ js "-"
    ++ padStart (String_of_Z (Number_of (maxNumOf prefix ts + 1))) 3 48.

Definition newTask (newId title currentSprint today : jsstring) : Task :=
  {| id := newId; title := title; type := js "feature"; status := js "backlog";
     priority := js "medium"; points := Some 0; sprint := currentSprint;
     owner := None; branch := None; worktree := None; notes := None;
     linkedTD := None; acceptanceCriteria := None; blockers := None;
     createdAt := today; completedAt := None; githubIssue := None;
     githubUrl := None |}.

Definition quote : jsstring := [34%N].

Definition cmdAdd {W} (config : option Config) (args : list jsstring) : M W unit :=
  let title := join (js " ") args in
  if negb (truthy_str title)
  then console_error (Ansi.red ++ js "Usage: sprint add " ++ quote ++ js "Task title"
                        ++ quote ++ Ansi.reset)
  else
    s <- get ;;
    let d := data s in
    let prefix := configPrefix config in
    let newId := newIdOf prefix (tasks d) in
    today <- isoToday ;;
    let task := newTask newId title (currentSprint d) today in
    put_data (set_tasks (tasks d ++ [task]) d) ;;;
    saveData config ;;;
    console_log (Ansi.green ++ Glyph.check ++ js " Created " ++ newId ++ js ": "
                   ++ title ++ Ansi.reset) ;;;
    console_log (js "  Edit with: sprint edit " ++ newId).

(** ** [cmdMove] *)

(** [data.tasks.find(t => t.id.toLowerCase() === taskId.toLowerCase())]:
    the position and the value of the first match; the position stands
    for the reference to the task object. *)
Definition findTask (taskId : jsstring) (ts : list Task) : option (nat * Task) :=
  list_find (fun t => toLowerCase (id t) = toLowerCase taskId) ts.

(** Assignment through a reference to a task of the loaded document. *)
Definition modify_task {W} (i : nat) (f : Task -> Task) : M W unit :=
  s <- get ;;
  put_data (set_tasks (alter f i (tasks (data s))) (data s)).

(** Reading through a reference to a task; a reference always denotes an
    object, so the error case does not arise for a position obtained
    from the list itself. *)
Definition task_at {W} (i : nat) : M W Task :=
  fun s => match tasks (data s) !! i with
           | Some t => (Ok t, s)
           | None => (Throw (js "TypeError: dangling task reference"), s)
           end.

Definition cmdMove {W} (config : option Config) (taskId newStatus : jsstring) : M W unit :=
  let validStatuses := configColumns config in
  if negb (bool_decide (newStatus ∈ validStatuses))
  then console_error (Ansi.red ++ js "Invalid status. Use: "
                        ++ join (js ", ") validStatuses ++ Ansi.reset)
  else
    s <- get ;;
    match findTask taskId (tasks (data s)) with
    | None => console_error (Ansi.red ++ js "Task not found: " ++ taskId ++ Ansi.reset)
    | Some (i, task) =>
        let oldStatus := status task in
        modify_task i (set_status newStatus) ;;;
        (if str_eqb newStatus (js "done") && negb (truthy_ostr (completedAt task))
         then today <- isoToday ;; modify_task i (set_completedAt today)
         else ret tt) ;;;
        saveData config ;;;
        console_log (Ansi.green ++ Glyph.check ++ js " " ++ id task ++ js ": "
                       ++ oldStatus ++ js " " ++ Glyph.arrow ++ js " " ++ newStatus
                       ++ Ansi.reset)
    end.

(** ** [cmdDebt] *)

Definition debtIcon (st : jsstring) : jsstring :=
  if str_eqb st (js "closed") then Glyph.check_mark_button
  else if str_eqb st (js "partial") then Glyph.cycle
  else Glyph.cross_mark.

Definition debtColor (st : jsstring) : jsstring :=
  if str_eqb st (js "closed") then Ansi.green
  else if str_eqb st (js "partial") then Ansi.yellow
  else Ansi.red.

Definition cmdDebt {W} : M W unit :=
  s <- get ;;
  match technicalDebt (data s) with
  | None | Some [] =>
      console_log (Ansi.dim ++ js "No technical debt tracked" ++ Ansi.reset)
  | Some debts =>
      console_log (nl ++ repeat_unit Glyph.dbl_rule 50) ;;;
      console_log (Ansi.bright ++ js "  TECHNICAL DEBT" ++ Ansi.reset) ;;;
      console_log (repeat_unit Glyph.dbl_rule 50) ;;;
      forEach (fun td =>
                 let icon := debtIcon (TechDebt.status td) in
                 let color := debtColor (TechDebt.status td) in
                 bar <- lift_res (createProgressBar (or_num (TechDebt.progress td) 0) 15) ;;
                 console_log (nl ++ icon ++ js " " ++ Ansi.bright ++ TechDebt.id td
                                ++ Ansi.reset ++ js " " ++ color ++ js "["
                                ++ TechDebt.status td ++ js "]" ++ Ansi.reset) ;;;
                 console_log (js "   " ++ bar ++ js " "
                                ++ String_of_Z (or_num (TechDebt.progress td) 0) ++ js "%") ;;;
                 (if truthy_ostr (TechDebt.linkedTask td)
                  then console_log (js "   " ++ Ansi.dim ++ Glyph.arrow ++ js " "
                                      ++ default [] (TechDebt.linkedTask td) ++ Ansi.reset)
                  else ret tt))
              debts ;;;
      console_log []
  end.

(* ================================================================== *)
(** * [github-sync.js] *)
(* ================================================================== *)

Record RepoInfo : Type := mkRepoInfo {
  repo_owner : jsstring;
  repo_name : jsstring
}.

(** The object printed by [gh issue view --json state,title]. *)
Record IssueStatus : Type := mkIssueStatus {
  issue_state : jsstring;
  issue_title : jsstring
}.

(** The outside world of the bridge.  [execSync] runs a command line:
    it returns the standard output, or the message of the error it
    throws when the command fails, and moves the world on.
    [JSON_parse_issue] is [JSON.parse] on the output of [gh issue view],
    [None] when it throws or yields a falsy value. *)
Class Subprocess (W : Type) : Type := {
  execSync : jsstring -> W -> (jsstring + jsstring) * W;
  JSON_parse_issue : jsstring -> option IssueStatus
}.

Record Issue : Type := mkIssue {
  issue_url : jsstring;
  issue_number : option Z
}.

Record Created : Type := mkCreated {
  created_id : jsstring;
  created_issue : option Z;
  created_url : jsstring
}.

Record Updated : Type := mkUpdated {
  updated_id : jsstring;
  updated_action : jsstring
}.

Record ErrorEntry : Type := mkErrorEntry {
  error_id : jsstring;
  error_message : jsstring
}.

Record PushResults : Type := mkPushResults {
  created : list Created;
  updated : list Updated;
  errors : list ErrorEntry
}.

Record PullResults : Type := mkPullResults {
  pull_updated : list Updated;
  pull_errors : list ErrorEntry
}.

Record PushOptions : Type := mkPushOptions {
  sprintOnly : bool;
  statusFilter : option jsstring
}.

(** The regular expression [/github\.com[/:]([^/]+)\/([^/.]+)/]. *)
Fixpoint take_while (P : N -> bool) (s : jsstring) : jsstring :=
  match s with
  | c :: s' => if P c then c :: take_while P s' else []
  | [] => []
  end.

Definition not_slash (c : N) : bool := negb (c =? 47)%N.
Definition not_slash_dot (c : N) : bool := negb (c =? 47)%N && negb (c =? 46)%N.

Definition match_remote_here (s : jsstring) : option (jsstring * jsstring) :=
  if startsWith s (js "github.com") then
    match drop 10 s with
    | c :: r =>
        if (c =? 47)%N || (c =? 58)%N then
          let o := take_while not_slash r in
          match o, drop (length o) r with
          | _ :: _, _ :: r' =>
              let n := take_while not_slash_dot r' in
              match n with
              | _ :: _ => Some (o, n)
              | [] => None
              end
          | _, _ => None
          end
        else None
    | [] => None
    end
  else None.

Fixpoint match_remote (s : jsstring) : option (jsstring * jsstring) :=
  match match_remote_here s with
  | Some m => Some m
  | None => match s with
            | [] => None
            | _ :: s' => match_remote s'
            end
  end.

(** The regular expression [/\/issues\/(\d+)/]: the captured digits. *)
Definition is_digit (c : N) : bool := ((48 <=? c) && (c <=? 57))%N.

Fixpoint match_issues (s : jsstring) : option jsstring :=
  match s with
  | [] => None
  | _ :: s' =>
      if startsWith s (js "/issues/") then
        match take_while is_digit (drop 8 s) with
        | [] => match_issues s'
        | ds => Some ds
        end
      else match_issues s'
  end.

Definition is_ok {A B} (r : A + B) : bool :=
  match r with inr _ => true | inl _ => false end.

Definition slug (repoInfo : RepoInfo) : jsstring :=
  repo_owner repoInfo ++ js "/" ++ repo_name repoInfo.

(** The text of a task for the issue body. *)
Definition or_s (s d : jsstring) : jsstring := if truthy_str s then s else d.

Definition issueBody (task : Task) : jsstring :=
  let body := js "## Task: " ++ id task ++ nl ++ nl in
  let body := body ++ js "**Type:** " ++ or_s (type task) (js "feature") ++ nl in
  let body := body ++ js "**Priority:** " ++ or_s (priority task) (js "medium") ++ nl in
  let body := body ++ js "**Points:** " ++ String_of_Z (or_num (points task) 0) ++ nl in
  let body := body ++ js "**Sprint:** " ++ sprint task ++ nl in
  let body := if truthy_ostr (owner task)
              then body ++ js "**Assigned:** " ++ default [] (owner task) ++ nl
              else body in
  let body := if truthy_ostr (branch task)
              then body ++ js "**Branch:** `" ++ default [] (branch task) ++ js "`" ++ nl
              else body in
  let body := if truthy_ostr (linkedTD task)
              then body ++ js "**Tech Debt:** " ++ default [] (linkedTD task) ++ nl
              else body in
  let body := match acceptanceCriteria task with
              | Some (ac :: acs) =>
                  foldl (fun b a => b ++ js "- [ ] " ++ a ++ nl)
                        (body ++ nl ++ js "### Acceptance Criteria" ++ nl ++ nl)
                        (ac :: acs)
              | _ => body
              end in
  let body := if truthy_ostr (notes task)
              then body ++ nl ++ js "### Notes" ++ nl ++ nl ++ default [] (notes task) ++ nl
              else body in
  body ++ nl ++ js "---" ++ nl ++ js "*Created by sprint-tracker*".

Definition issueLabels (task : Task) (labels : list jsstring) : list jsstring :=
  let allLabels := labels in
  let allLabels :=
    if str_eqb (priority task) (js "critical") then allLabels ++ [js "priority:critical"]
    else if str_eqb (priority task) (js "high") then allLabels ++ [js "priority:high"]
    else allLabels in
  if truthy_str (type task) then allLabels ++ [js "type:" ++ type task] else allLabels.

Section Bridge.
Context {W : Type} `{Subprocess W}.

(** [checkGhCli()] *)
Definition checkGhCli : M W bool :=
  r <- exec (execSync (js "gh --version")) ;;
  ret (is_ok r).

(** [getRepoInfo()] *)
Definition getRepoInfo : M W (option RepoInfo) :=
  r <- exec (execSync (js "git remote get-url origin")) ;;
  match r with
  | inr out =>
      match match_remote (trim out) with
      | Some (o, n) => ret (Some (mkRepoInfo o (replace n (js ".git") [])))
      | None => ret None
      end
  | inl _ => ret None
  end.

(** [createIssue(task, repoInfo, labels)] *)
Definition createIssue (task : Task) (repoInfo : RepoInfo) (labels : list jsstring)
    : M W Issue :=
  let body := issueBody task in
  let allLabels := issueLabels task labels in
  let args := [js "issue"; js "create"; js "--repo"; slug repoInfo;
               js "--title"; id task ++ js ": " ++ title task;
               js "--body"; body] in
  args <- (match allLabels with
           | [] => ret args
           | _ :: _ =>
               forEach (fun label =>
                          _ <- exec (execSync (js "gh label create " ++ quote ++ label
                                                 ++ quote ++ js " --repo " ++ slug repoInfo
                                                 ++ js " 2>/dev/null")) ;;
                          ret tt)
                       allLabels ;;;
               ret (args ++ [js "--label"; join (js ",") allLabels])
           end) ;;
  r <- exec (execSync (js "gh " ++ join (js " ")
                         (List.map (fun a => quote ++ a ++ quote) args))) ;;
  match r with
  | inr result =>
      let issueUrl := trim result in
      let issueNumber := match match_issues issueUrl with
                         | Some ds => parseInt ds
                         | None => None
                         end in
      ret (mkIssue issueUrl issueNumber)
  | inl message => throw (js "Failed to create issue: " ++ message)
  end.

(** [closeIssue(issueNumber, repoInfo)] *)
Definition closeIssue (issueNumber : option Z) (repoInfo : RepoInfo) : M W bool :=
  r <- exec (execSync (js "gh issue close "
                         ++ match issueNumber with Some n => String_of_Z n | None => js "NaN" end
                         ++ js " --repo " ++ slug repoInfo)) ;;
  ret (is_ok r).

(** [reopenIssue(issueNumber, repoInfo)] *)
Definition reopenIssue (issueNumber : Z) (repoInfo : RepoInfo) : M W bool :=
  r <- exec (execSync (js "gh issue reopen " ++ String_of_Z issueNumber
                         ++ js " --repo " ++ slug repoInfo)) ;;
  ret (is_ok r).

(** [getIssueStatus(issueNumber, repoInfo)]: the parsed object, [None]
    for [null]. *)
Definition getIssueStatus (issueNumber : Z) (repoInfo : RepoInfo)
    : M W (option IssueStatus) :=
  r <- exec (execSync (js "gh issue view " ++ String_of_Z issueNumber
                         ++ js " --repo " ++ slug repoInfo
                         ++ js " --json state,title")) ;;
  match r with
  | inr result => ret (JSON_parse_issue result)
  | inl _ => ret None
  end.

(** [addToProject(issueUrl, projectNumber, owner)] *)
Definition addToProject (issueUrl : jsstring) (projectNumber : Z) (owner : jsstring)
    : M W bool :=
  r <- exec (execSync (js "gh project item-add " ++ String_of_Z projectNumber
                         ++ js " --owner " ++ owner ++ js " --url " ++ quote
                         ++ issueUrl ++ quote)) ;;
  ret (is_ok r).

Definition add_created (e : Created) (r : PushResults) : PushResults :=
  mkPushResults (created r ++ [e]) (updated r) (errors r).
Definition add_updated (e : Updated) (r : PushResults) : PushResults :=
  mkPushResults (created r) (updated r ++ [e]) (errors r).
Definition add_error (e : ErrorEntry) (r : PushResults) : PushResults :=
  mkPushResults (created r) (updated r) (errors r ++ [e]).

Definition issueRef (n : option Z) : jsstring :=
  match n with Some z => String_of_Z z | None => js "NaN" end.

(** The body of the loop of [syncToGitHub] for the task at position
    [i]; [results] is the object the loop fills.  No statement that
    follows an update of [results] inside the [try] can throw. *)
Definition syncTask (repoInfo : RepoInfo) (projectNumber : option Z) (i : nat)
    (results : PushResults) : M W PushResults :=
  task <- task_at i ;;
  try_catch
    (if truthy_num (githubIssue task) then
       let n := default 0 (githubIssue task) in
       issueStatus <- getIssueStatus n repoInfo ;;
       match issueStatus with
       | Some st =>
           let isIssueClosed := str_eqb (issue_state st) (js "CLOSED") in
           let isTaskDone := str_eqb (status task) (js "done") in
           if isTaskDone && negb isIssueClosed then
             _ <- closeIssue (Some n) repoInfo ;;
             console_log (js "  " ++ Glyph.check ++ js " Closed issue #" ++ String_of_Z n
                            ++ js " for " ++ id task) ;;;
             ret (add_updated (mkUpdated (id task) (js "closed")) results)
           else if negb isTaskDone && isIssueClosed then
             _ <- reopenIssue n repoInfo ;;
             console_log (js "  " ++ Glyph.check ++ js " Reopened issue #" ++ String_of_Z n
                            ++ js " for " ++ id task) ;;;
             ret (add_updated (mkUpdated (id task) (js "reopened")) results)
           else
             console_log (js "  - " ++ id task ++ js " already synced (issue #"
                            ++ String_of_Z n ++ js ")") ;;;
             ret results
       | None => ret results
       end
     else
       console_log (js "  Creating issue for " ++ id task ++ js "...") ;;;
       issue <- createIssue task repoInfo [] ;;
       modify_task i (set_githubIssue (issue_number issue)) ;;;
       modify_task i (set_githubUrl (issue_url issue)) ;;;
       console_log (js "  " ++ Glyph.check ++ js " Created issue #"
                      ++ issueRef (issue_number issue) ++ js " for " ++ id task) ;;;
       (if truthy_num projectNumber then
          added <- addToProject (issue_url issue) (default 0 projectNumber)
                     (repo_owner repoInfo) ;;
          if added
          then console_log (js "    Added to project #"
                              ++ String_of_Z (default 0 projectNumber))
          else ret tt
        else ret tt) ;;;
       (if str_eqb (status task) (js "done") then
          _ <- closeIssue (issue_number issue) repoInfo ;;
          console_log (js "    Closed (task is done)")
        else ret tt) ;;;
       ret (add_created (mkCreated (id task) (issue_number issue) (issue_url issue))
              results))
    (fun message =>
       console_log (js "  " ++ Glyph.cross ++ js " Error for " ++ id task ++ js ": "
                      ++ message) ;;;
       ret (add_error (mkErrorEntry (id task) message) results)).

(** [for (const task of tasksToSync) { ... }] over the references
    [tasksToSync]. *)
Fixpoint syncLoop (repoInfo : RepoInfo) (projectNumber : option Z)
    (tasksToSync : list nat) (results : PushResults) : M W PushResults :=
  match tasksToSync with
  | [] => ret results
  | i :: rest =>
      results' <- syncTask repoInfo projectNumber i results ;;
      syncLoop repoInfo projectNumber rest results'
  end.

(** Positions of the tasks kept by a filter, in list order. *)
Definition positions (keep : Task -> bool) (ts : list Task) : list nat :=
  List.map fst (List.filter (fun p => keep (snd p)) (imap pair ts)).

Definition selected (d : Document) (options : PushOptions) (t : Task) : bool :=
  (if sprintOnly options then str_eqb (sprint t) (currentSprint d) else true)
  && (if truthy_ostr (statusFilter options)
      then str_eqb (status t) (default [] (statusFilter options))
      else true).

(** [syncToGitHub(data, config, options)] *)
Definition syncToGitHub (config : option Config) (options : PushOptions)
    : M W PushResults :=
  let results := mkPushResults [] [] [] in
  present <- checkGhCli ;;
  if negb present
  then throw (js "GitHub CLI (gh) not found. Install from https://cli.github.com")
  else
    repoInfo <- getRepoInfo ;;
    match repoInfo with
    | None => throw (js "Not in a git repository with GitHub remote")
    | Some repoInfo =>
        let projectNumber := configProjectNumber config in
        console_log (nl ++ js "Syncing to " ++ slug repoInfo ++ js "..." ++ nl) ;;;
        s <- get ;;
        let tasksToSync := positions (selected (data s) options) (tasks (data s)) in
        syncLoop repoInfo projectNumber tasksToSync results
    end.

Definition pull_add_updated (e : Updated) (r : PullResults) : PullResults :=
  mkPullResults (pull_updated r ++ [e]) (pull_errors r).
Definition pull_add_error (e : ErrorEntry) (r : PullResults) : PullResults :=
  mkPullResults (pull_updated r) (pull_errors r ++ [e]).

(** The body of the loop of [pullFromGitHub] for the task at position [i]. *)
Definition pullTask (repoInfo : RepoInfo) (i : nat) (results : PullResults)
    : M W PullResults :=
  task <- task_at i ;;
  if negb (truthy_num (githubIssue task)) then ret results
  else
    try_catch
      (let n := default 0 (githubIssue task) in
       issueStatus <- getIssueStatus n repoInfo ;;
       match issueStatus with
       | None => ret results
       | Some st =>
           let isIssueClosed := str_eqb (issue_state st) (js "CLOSED") in
           let isTaskDone := str_eqb (status task) (js "done") in
           if isIssueClosed && negb isTaskDone then
             modify_task i (set_status (js "done")) ;;;
             today <- isoToday ;;
             modify_task i (set_completedAt today) ;;;
             console_log (js "  " ++ Glyph.check ++ js " " ++ id task
                            ++ js " marked as done (issue closed)") ;;;
             ret (pull_add_updated (mkUpdated (id task) (js "marked done")) results)
           else if negb isIssueClosed && isTaskDone then
             console_log (js "  ! " ++ id task ++ js " is done but issue #"
                            ++ String_of_Z n ++ js " is open") ;;;
             ret results
           else ret results
       end)
      (fun message => ret (pull_add_error (mkErrorEntry (id task) message) results)).

Fixpoint pullLoop (repoInfo : RepoInfo) (refs : list nat) (results : PullResults)
    : M W PullResults :=
  match refs with
  | [] => ret results
  | i :: rest =>
      results' <- pullTask repoInfo i results ;;
      pullLoop repoInfo rest results'
  end.

(** [pullFromGitHub(data, config)] *)
Definition pullFromGitHub (config : option Config) : M W PullResults :=
  let results := mkPullResults [] [] in
  present <- checkGhCli ;;
  if negb present then throw (js "GitHub CLI (gh) not found")
  else
    repoInfo <- getRepoInfo ;;
    match repoInfo with
    | None => throw (js "Not in a git repository with GitHub remote")
    | Some repoInfo =>
        console_log (nl ++ js "Pulling from " ++ slug repoInfo ++ js "..." ++ nl) ;;;
        s <- get ;;
        pullLoop repoInfo (seq 0 (length (tasks (data s)))) results
    end.
End Bridge.

(* ================================================================== *)
(** * The dispatcher of [cli.js]: the cases of the GitHub sync commands *)
(* ================================================================== *)

(** Each case is run on a loaded document ([data] is not [null]) and
    yields the exit status of the process: the argument of
    [process.exit] when it is called, 0 when the script runs to its end.
    An error thrown out of a case is not caught anywhere: the process
    dies on it with a non-zero status. *)
Section Dispatch.
Context {W : Type} `{Subprocess W}.

Definition ghNotFound : jsstring :=
  Ansi.red ++ js "GitHub CLI (gh) not found. Install from https://cli.github.com"
    ++ Ansi.reset.

Definition count {A} (l : list A) : jsstring := String_of_Z (Z.of_nat (length l)).

(** [case 'push'] *)
Definition main_push (config : option Config) (args : list jsstring) : M W Z :=
  present <- checkGhCli ;;
  if negb present then console_error ghNotFound ;;; ret 1
  else
    let pushOptions := mkPushOptions (negb (bool_decide (js "--all" ∈ args))) None in
    results <- syncToGitHub config pushOptions ;;
    saveData config ;;;
    console_log (nl ++ Ansi.green ++ Glyph.check ++ js " Created: "
                   ++ count (created results) ++ js " issues" ++ Ansi.reset) ;;;
    console_log (Ansi.yellow ++ Glyph.check ++ js " Updated: "
                   ++ count (updated results) ++ js " issues" ++ Ansi.reset) ;;;
    (if (0 <? length (errors results))%nat
     then console_log (Ansi.red ++ Glyph.cross ++ js " Errors: "
                         ++ count (errors results) ++ Ansi.reset)
     else ret tt) ;;;
    ret 0.

(** [case 'pull'] *)
Definition main_pull (config : option Config) (args : list jsstring) : M W Z :=
  present <- checkGhCli ;;
  if negb present then console_error ghNotFound ;;; ret 1
  else
    pullResults <- pullFromGitHub config ;;
    saveData config ;;;
    console_log (nl ++ Ansi.green ++ Glyph.check ++ js " Updated: "
                   ++ count (pull_updated pullResults) ++ js " tasks" ++ Ansi.reset) ;;;
    (if (0 <? length (pull_errors pullResults))%nat
     then console_log (Ansi.red ++ Glyph.cross ++ js " Errors: "
                         ++ count (pull_errors pullResults) ++ Ansi.reset)
     else ret tt) ;;;
    ret 0.

(** [case 'link'] *)
Definition main_link (config : option Config) (args : list jsstring) : M W Z :=
  let taskId := args !! 1%nat in
  let issueNum := match args !! 2%nat with Some a => parseInt a | None => None end in
  if negb (truthy_ostr taskId) || negb (truthy_num issueNum)
  then console_error (Ansi.red ++ js "Usage: sprint link <task-id> <issue-number>"
                        ++ Ansi.reset) ;;; ret 1
  else
    let taskId := default [] taskId in
    s <- get ;;
    match findTask taskId (tasks (data s)) with
    | None =>
        console_error (Ansi.red ++ js "Task not found: " ++ taskId ++ Ansi.reset) ;;;
        ret 1
    | Some (i, task) =>
        repoInfo <- getRepoInfo ;;
        match repoInfo with
        | Some repoInfo =>
            let url := js "https://github.com/" ++ slug repoInfo ++ js "/issues/"
                          ++ issueRef issueNum in
            modify_task i (set_githubIssue issueNum) ;;;
            modify_task i (set_githubUrl url) ;;;
            saveData config ;;;
            console_log (Ansi.green ++ Glyph.check ++ js " Linked " ++ id task ++ js " "
                           ++ Glyph.arrow ++ js " Issue #" ++ issueRef issueNum
                           ++ Ansi.reset) ;;;
            console_log (js "  " ++ Ansi.dim ++ url ++ Ansi.reset) ;;;
            ret 0
        | None =>
            modify_task i (set_githubIssue issueNum) ;;;
            saveData config ;;;
            console_log (Ansi.green ++ Glyph.check ++ js " Linked " ++ id task ++ js " "
                           ++ Glyph.arrow ++ js " Issue #" ++ issueRef issueNum
                           ++ Ansi.reset) ;;;
            ret 0
        end
    end.
End Dispatch.

(* ================================================================== *)
(** * [cli.js]: the other commands *)
(* ================================================================== *)

(** [typeIcons[t] || pushpin], as text *)
Definition typeIcon (t : jsstring) : jsstring :=
  if str_eqb t (js "feature") then Glyph2.sparkles
  else if str_eqb t (js "bug") then Glyph2.bug
  else if str_eqb t (js "refactor") then Glyph2.recycle
  else if str_eqb t (js "docs") then Glyph2.books
  else if str_eqb t (js "test") then Glyph2.test_tube
  else if str_eqb t (js "chore") then Glyph2.wrench
  else if str_eqb t (js "spike") then Glyph2.microscope
  else default Glyph2.pushpin (inherited t).

(** [statusColors[st]] inside a template literal, without a default:
    a status that finds nothing prints as [undefined]. *)
Definition statusColorText (st : jsstring) : jsstring :=
  if str_eqb st (js "backlog") then Ansi.dim
  else if str_eqb st (js "todo") then Ansi.dim
  else if str_eqb st (js "ready") then Ansi.cyan
  else if str_eqb st (js "in_progress") then Ansi.yellow
  else if str_eqb st (js "review") then Ansi.magenta
  else if str_eqb st (js "done") then Ansi.green
  else if str_eqb st (js "blocked") then Ansi.red
  else default (js "undefined") (inherited st).

(** The error of reading a property of [undefined]. *)
Definition TypeError_undefined (prop : jsstring) : jsstring :=
  js "Cannot read properties of undefined (reading '" ++ prop ++ js "')".

(** [data.tasks.find(t => t.id.toLowerCase() === taskId.toLowerCase())]
    when the argument may be [undefined]: the callback throws on the
    first task; on an empty list it is not called. *)
Definition findTaskArg (taskId : option jsstring) (ts : list Task)
    : Res (option (nat * Task)) :=
  match taskId with
  | Some tid => Ok (findTask tid ts)
  | None =>
      match ts with
      | [] => Ok None
      | _ :: _ => Throw (TypeError_undefined (js "toLowerCase"))
      end
  end.

(** [`${x}`] for an argument that may be [undefined]. *)
Definition argText (a : option jsstring) : jsstring :=
  match a with Some x => x | None => js "undefined" end.

(** [x || d] for an optional string, as text. *)
Definition textOr (o : option jsstring) (d : jsstring) : jsstring := or_str o d.

(** ** [cmdStatus] *)

(** A value of the object [counts]: a number, or the text that [+]
    makes of a member of [Object.prototype] and 1. *)
Inductive Count : Type :=
  | Counted (n : Z)
  | Text (t : jsstring).

(** [(c || 0) + 1] for an own value [c] *)
Definition plusOne (c : Count) : Count :=
  match c with
  | Counted n => Counted (or_num (Some n) 0 + 1)
  | Text t => if truthy_str t then Text (t ++ js "1") else Counted 1
  end.

(** [counts[key] = (counts[key] || 0) + 1] on an object whose own keys
    are kept in the order of their creation.  A key that is not yet an
    own key and names a member of [Object.prototype] reads that member,
    and the sum is a text; the assignment to [__proto__] of a text
    changes nothing. *)
Fixpoint bump (key : jsstring) (counts : list (jsstring * Count))
    : list (jsstring * Count) :=
  match counts with
  | [] =>
      match inherited key with
      | Some member =>
          if str_eqb key (js "__proto__") then []
          else [(key, Text (member ++ js "1"))]
      | None => [(key, Counted 1)]
      end
  | (k, c) :: rest =>
      if str_eqb k key then (k, plusOne c) :: rest
      else (k, c) :: bump key rest
  end.

(** [`${count}`] *)
Definition countText (c : Count) : jsstring :=
  match c with
  | Counted n => String_of_Z n
  | Text t => t
  end.

(** A key that is an array index: the canonical decimal text of a
    number below [2^32 - 1]. *)
Definition indexOf (key : jsstring) : option N :=
  match parse_digits 10 None key with
  | Some n => if str_eqb (String_of_N n) key && (n <? 4294967295)%N then Some n else None
  | None => None
  end.

Fixpoint insert_sorted (e : N * (jsstring * Count)) (l : list (N * (jsstring * Count)))
    : list (N * (jsstring * Count)) :=
  match l with
  | [] => [e]
  | x :: rest => if (fst e <=? fst x)%N then e :: l else x :: insert_sorted e rest
  end.

(** [Object.entries(counts)]: the index keys in ascending order, then
    the other keys in the order of their creation. *)
Definition objectEntries (counts : list (jsstring * Count))
    : list (jsstring * Count) :=
  let indexed :=
    foldr (fun e acc => match indexOf (fst e) with
                        | Some n => insert_sorted (n, e) acc
                        | None => acc
                        end) [] counts in
  List.map snd indexed
  ++ List.filter (fun e => match indexOf (fst e) with Some _ => false | None => true end)
       counts.

Definition countStatuses (sprintTasks : list Task) : list (jsstring * Count) :=
  foldl (fun counts t => bump (status t) counts) [] sprintTasks.

Definition cmdStatus {W} : M W unit :=
  s <- get ;;
  let d := data s in
  console_log (nl ++ repeat_unit Glyph.dbl_rule 50) ;;;
  console_log (Ansi.bright ++ js "  SPRINT " ++ currentSprint d ++ js " STATUS"
                 ++ Ansi.reset) ;;;
  console_log (repeat_unit Glyph.dbl_rule 50) ;;;
  let sprintTasks := sprintTasksOf d in
  let counts := countStatuses sprintTasks in
  forEach (fun e =>
             let color := statusColor (fst e) in
             console_log (color ++ padRight (fst e ++ js ":") 15 ++ Ansi.reset ++ js " "
                            ++ countText (snd e) ++ js " tasks"))
          (objectEntries counts) ;;;
  let donePoints := donePointsOf sprintTasks in
  let totalPoints := totalPointsOf sprintTasks in
  console_log (nl ++ Ansi.bright ++ js "Points:" ++ Ansi.reset ++ js " "
                 ++ String_of_Z donePoints ++ js "/" ++ String_of_Z totalPoints) ;;;
  match capacity d with
  | None => throw (TypeError_undefined (js "committed"))
  | Some cap =>
      console_log (Ansi.bright ++ js "Capacity:" ++ Ansi.reset ++ js " "
                     ++ String_of_Z (committed cap) ++ js "h / "
                     ++ String_of_Z (totalHours cap) ++ js "h") ;;;
      console_log []
  end.

(** ** [cmdList] *)

(** The tasks that [cmdList] shows. *)
Definition listedTasks (d : Document) (filterStatus : option jsstring) : list Task :=
  let ts := sprintTasksOf d in
  if truthy_ostr filterStatus
  then List.filter (fun t => str_eqb (status t) (default [] filterStatus)) ts
  else ts.

Definition cmdList {W} (filterStatus : option jsstring) : M W unit :=
  s <- get ;;
  let ts := listedTasks (data s) filterStatus in
  match ts with
  | [] => console_log (Ansi.dim ++ js "No tasks found" ++ Ansi.reset)
  | _ :: _ =>
      console_log (nl ++ repeat_unit Glyph.rule 70) ;;;
      forEach (fun task =>
                 let pIcon := priorityIcon (priority task) in
                 let tIcon := typeIcon (type task) in
                 let sColor := statusColor (status task) in
                 console_log (pIcon ++ js " " ++ Ansi.bright ++ id task ++ Ansi.reset
                                ++ js " " ++ tIcon ++ js " " ++ title task) ;;;
                 console_log (js "   " ++ sColor ++ js "[" ++ status task ++ js "]"
                                ++ Ansi.reset ++ js " " ++ Glyph.vbar ++ js " "
                                ++ String_of_Z (or_num (points task) 0) ++ js " pts "
                                ++ Glyph.vbar ++ js " "
                                ++ textOr (owner task) (js "unassigned")) ;;;
                 (if truthy_ostr (branch task)
                  then console_log (js "   " ++ Ansi.dim ++ Glyph2.hook_arrow ++ js " "
                                      ++ default [] (branch task) ++ Ansi.reset)
                  else ret tt) ;;;
                 console_log [])
              ts
  end.

(** ** [cmdShow] *)

(** [l.forEach((x, i) => f(x, i))] *)
Fixpoint forEachIndexed {W A} (f : A -> nat -> M W unit) (i : nat) (l : list A)
    : M W unit :=
  match l with
  | [] => ret tt
  | x :: l' => f x i ;;; forEachIndexed f (S i) l'
  end.

Definition nonEmptyList (o : option (list jsstring)) : bool :=
  match o with Some (_ :: _) => true | _ => false end.

Definition cmdShow {W} (taskId : option jsstring) : M W unit :=
  s <- get ;;
  found <- lift_res (findTaskArg taskId (tasks (data s))) ;;
  match found with
  | None => console_error (Ansi.red ++ js "Task not found: " ++ argText taskId
                             ++ Ansi.reset)
  | Some (_, task) =>
      let pIcon := priorityIcon (priority task) in
      let tIcon := typeIcon (type task) in
      console_log (nl ++ repeat_unit Glyph.dbl_rule 60) ;;;
      console_log (Ansi.bright ++ id task ++ js ": " ++ title task ++ Ansi.reset) ;;;
      console_log (repeat_unit Glyph.dbl_rule 60) ;;;
      console_log (nl ++ js "Status:   " ++ statusColorText (status task) ++ status task
                     ++ Ansi.reset) ;;;
      console_log (js "Priority: " ++ pIcon ++ js " " ++ priority task) ;;;
      console_log (js "Type:     " ++ tIcon ++ js " " ++ type task) ;;;
      console_log (js "Points:   " ++ String_of_Z (or_num (points task) 0)) ;;;
      console_log (js "Sprint:   " ++ sprint task) ;;;
      console_log (js "Owner:    " ++ textOr (owner task) (js "unassigned")) ;;;
      (if truthy_ostr (branch task)
       then console_log (js "Branch:   " ++ Ansi.cyan ++ default [] (branch task)
                           ++ Ansi.reset)
       else ret tt) ;;;
      (if truthy_ostr (worktree task)
       then console_log (js "Worktree: " ++ default [] (worktree task))
       else ret tt) ;;;
      (if truthy_ostr (linkedTD task)
       then console_log (js "Tech Debt: " ++ default [] (linkedTD task))
       else ret tt) ;;;
      (if nonEmptyList (acceptanceCriteria task)
       then console_log (nl ++ Ansi.bright ++ js "Acceptance Criteria:" ++ Ansi.reset) ;;;
            forEachIndexed (fun ac i =>
                              console_log (js "  " ++ String_of_Z (Z.of_nat i + 1)
                                             ++ js ". " ++ ac))
                           0 (default [] (acceptanceCriteria task))
       else ret tt) ;;;
      (if nonEmptyList (blockers task)
       then console_log (nl ++ Ansi.red ++ js "Blockers:" ++ Ansi.reset) ;;;
            forEach (fun b => console_log (js "  " ++ Glyph2.bullet ++ js " " ++ b))
                    (default [] (blockers task))
       else ret tt) ;;;
      (if truthy_ostr (notes task)
       then console_log (nl ++ Ansi.dim ++ js "Notes: " ++ default [] (notes task)
                           ++ Ansi.reset)
       else ret tt) ;;;
      console_log (nl ++ js "Created: " ++ createdAt task) ;;;
      (if truthy_ostr (completedAt task)
       then console_log (js "Done:    " ++ default [] (completedAt task))
       else ret tt) ;;;
      console_log []
  end.

(** ** [cmdEdit] *)

Definition allowedFields : list jsstring :=
  [js "title"; js "type"; js "priority"; js "points"; js "owner"; js "branch";
   js "sprint"; js "notes"].

Definition set_title (v : jsstring) (t : Task) : Task :=
  mkTask (id t) v (type t) (status t) (priority t) (points t) (sprint t)
    (owner t) (branch t) (worktree t) (notes t) (linkedTD t)
    (acceptanceCriteria t) (blockers t) (createdAt t) (completedAt t)
    (githubIssue t) (githubUrl t).

Definition set_type (v : jsstring) (t : Task) : Task :=
  mkTask (id t) (title t) v (status t) (priority t) (points t) (sprint t)
    (owner t) (branch t) (worktree t) (notes t) (linkedTD t)
    (acceptanceCriteria t) (blockers t) (createdAt t) (completedAt t)
    (githubIssue t) (githubUrl t).

Definition set_priority (v : jsstring) (t : Task) : Task :=
  mkTask (id t) (title t) (type t) (status t) v (points t) (sprint t)
    (owner t) (branch t) (worktree t) (notes t) (linkedTD t)
    (acceptanceCriteria t) (blockers t) (createdAt t) (completedAt t)
    (githubIssue t) (githubUrl t).

Definition set_points (v : Z) (t : Task) : Task :=
  mkTask (id t) (title t) (type t) (status t) (priority t) (Some v) (sprint t)
    (owner t) (branch t) (worktree t) (notes t) (linkedTD t)
    (acceptanceCriteria t) (blockers t) (createdAt t) (completedAt t)
    (githubIssue t) (githubUrl t).

Definition set_sprint (v : jsstring) (t : Task) : Task :=
  mkTask (id t) (title t) (type t) (status t) (priority t) (points t) v
    (owner t) (branch t) (worktree t) (notes t) (linkedTD t)
    (acceptanceCriteria t) (blockers t) (createdAt t) (completedAt t)
    (githubIssue t) (githubUrl t).

Definition set_owner (v : jsstring) (t : Task) : Task :=
  mkTask (id t) (title t) (type t) (status t) (priority t) (points t) (sprint t)
    (Some v) (branch t) (worktree t) (notes t) (linkedTD t)
    (acceptanceCriteria t) (blockers t) (createdAt t) (completedAt t)
    (githubIssue t) (githubUrl t).

Definition set_branch (v : jsstring) (t : Task) : Task :=
  mkTask (id t) (title t) (type t) (status t) (priority t) (points t) (sprint t)
    (owner t) (Some v) (worktree t) (notes t) (linkedTD t)
    (acceptanceCriteria t) (blockers t) (createdAt t) (completedAt t)
    (githubIssue t) (githubUrl t).

Definition set_notes (v : jsstring) (t : Task) : Task :=
  mkTask (id t) (title t) (type t) (status t) (priority t) (points t) (sprint t)
    (owner t) (branch t) (worktree t) (Some v) (linkedTD t)
    (acceptanceCriteria t) (blockers t) (createdAt t) (completedAt t)
    (githubIssue t) (githubUrl t).

(** [`${task[field] || '(empty)'}`] for an allowed field. *)
Definition fieldOrEmpty (field : jsstring) (t : Task) : jsstring :=
  let empty := js "(empty)" in
  if str_eqb field (js "title") then or_s (title t) empty
  else if str_eqb field (js "type") then or_s (type t) empty
  else if str_eqb field (js "priority") then or_s (priority t) empty
  else if str_eqb field (js "points") then
    (if truthy_num (points t) then String_of_Z (default 0 (points t)) else empty)
  else if str_eqb field (js "owner") then or_str (owner t) empty
  else if str_eqb field (js "branch") then or_str (branch t) empty
  else if str_eqb field (js "sprint") then or_s (sprint t) empty
  else or_str (notes t) empty.

(** [parseInt(value) || 0] *)
Definition coercePoints (value : jsstring) : Z := or_num (parseInt value) 0.

(** [task[field] = value] for an allowed field, after the coercion of
    [points]. *)
Definition assignField (field value : jsstring) (t : Task) : Task :=
  if str_eqb field (js "title") then set_title value t
  else if str_eqb field (js "type") then set_type value t
  else if str_eqb field (js "priority") then set_priority value t
  else if str_eqb field (js "points") then set_points (coercePoints value) t
  else if str_eqb field (js "owner") then set_owner value t
  else if str_eqb field (js "branch") then set_branch value t
  else if str_eqb field (js "sprint") then set_sprint value t
  else set_notes value t.

(** [`${value}`] after the coercion. *)
Definition valueText (field value : jsstring) : jsstring :=
  if str_eqb field (js "points") then String_of_Z (coercePoints value) else value.

Definition cmdEdit {W} (config : option Config) (taskId field : option jsstring)
    (value : jsstring) : M W unit :=
  s <- get ;;
  found <- lift_res (findTaskArg taskId (tasks (data s))) ;;
  match found with
  | None => console_error (Ansi.red ++ js "Task not found: " ++ argText taskId
                             ++ Ansi.reset)
  | Some (i, task) =>
      match field with
      | Some f =>
          if bool_decide (f ∈ allowedFields) then
            let oldText := fieldOrEmpty f task in
            modify_task i (assignField f value) ;;;
            saveData config ;;;
            console_log (Ansi.green ++ Glyph.check ++ js " " ++ id task ++ js "." ++ f
                           ++ js ": " ++ oldText ++ js " " ++ Glyph.arrow ++ js " "
                           ++ valueText f value ++ Ansi.reset)
          else console_error (Ansi.red ++ js "Invalid field. Use: "
                                ++ join (js ", ") allowedFields ++ Ansi.reset)
      | None => console_error (Ansi.red ++ js "Invalid field. Use: "
                                 ++ join (js ", ") allowedFields ++ Ansi.reset)
      end
  end.

(* ================================================================== *)
(** * [cli.js]: the configuration file *)
(* ================================================================== *)

Definition CONFIG_FILE : jsstring := js ".sprint-tracker.json".

Record Found : Type := mkFound {
  configPath : list jsstring * jsstring;
  projectRoot : list jsstring
}.

(** [findConfig()], [dir] starting as [process.cwd()].  A directory is
    an absolute, normalised path, given by its segments from the
    innermost one outwards: [path.dirname] drops the first segment, and
    the root, the one directory that [path.parse(dir).root] leaves as it
    is, has none.  [path.join(dir, name)] is the pair of the directory
    and the name.  [existsSync] is [fs.existsSync]. *)
Fixpoint findConfig (existsSync : list jsstring * jsstring -> bool)
    (dir : list jsstring) : option Found :=
  match dir with
  | [] => None
  | _ :: parent =>
      let configPath := (dir, CONFIG_FILE) in
      if existsSync configPath then Some (mkFound configPath dir)
      else findConfig existsSync parent
  end.

End Program.

(* ================================================================== *)
(** * Vocabulary of the statements *)
(* ================================================================== *)

Ltac run :=
  repeat (unfold bind, ret, get, put_data, write_file, print, console_log,
                 console_error, throw, try_catch, exec, lift_res, isoNow, isoToday,
                 saveData, modify_task; simpl).

(** Membership in an explicit list. *)
Ltac in_list :=
  cbv [configColumns defaultColumns columns];
  repeat first [ apply list_elem_of_here | apply list_elem_of_further ].

Section Vocabulary.
Context `{RT : Runtime}.

(** The date part of the clock reading of a run. *)
Definition todayOf {W} (s : State W) : jsstring := split_head 84 (now s).

(** A [completedAt] that the program takes as set: present and not the
    empty string. *)
Definition isSet (o : option jsstring) : Prop := truthy_ostr o = true.

(** The task as [cmdMove] leaves it. *)
Definition moved (newStatus today : jsstring) (task : Task) : Task :=
  if str_eqb newStatus (js "done") && negb (truthy_ostr (completedAt task))
  then set_completedAt today (set_status newStatus task)
  else set_status newStatus task.

(** Successive [move] commands, each given by a task id and a status. *)
Definition cmdMoves {W} (config : option Config) (moves : list (jsstring * jsstring))
    : M W unit :=
  forEach (fun m => cmdMove config (fst m) (snd m)) moves.

(** The task ids match without regard to case. *)
Definition sameId (taskId : jsstring) (t : Task) : Prop :=
  toLowerCase (id t) = toLowerCase taskId.

(** Position [i] holds the first task whose id matches. *)
Definition firstMatch (taskId : jsstring) (ts : list Task) (i : nat) (t : Task) : Prop :=
  ts !! i = Some t /\ sameId taskId t /\
  forall j u, ts !! j = Some u -> (j < i)%nat -> ~ sameId taskId u.




(** The active subset: the tasks of the current sprint. *)
Definition activeTasks (d : Document) : list Task :=
  filter (fun t => sprint t = currentSprint d) (tasks d).


(** The tasks of a column: the active tasks in that status, in list
    order. *)
Definition columnTasks (d : Document) (col : jsstring) : list Task :=
  filter (fun t => status t = col) (activeTasks d).

(** The tasks can be grouped: no column is named [__proto__], and the
    status of an active task is a column or names no member of
    [Object.prototype]. *)
Definition groupable (cols : list jsstring) (d : Document) : Prop :=
  (js "__proto__" ∉ cols) /\
  forall t, t ∈ activeTasks d -> status t ∈ cols \/ inherited (status t) = None.

(** The cell of a column at row [i], [w] units wide between its colour
    codes: the icon of the priority and the id of the task, or spaces. *)
Definition cellAt (d : Document) (w i : nat) (col : jsstring) : jsstring :=
  match columnTasks d col !! i with
  | Some t => statusColor col
                ++ padRight (priorityIcon (priority t) ++ js " " ++ id t) w
                ++ Ansi.reset
  | None => padRight [] w
  end.

(** Row [i] of the board: the cells of the columns, a vertical bar
    between two of them. *)
Definition rowAt (cols : list jsstring) (d : Document) (w i : nat) : jsstring :=
  join Glyph.vbar (List.map (cellAt d w i) cols).

(** The number of rows: the size of the largest column, and at least 1. *)
Definition rowsOf (cols : list jsstring) (d : Document) : nat :=
  Nat.max 1 (max_list (List.map (fun col => length (columnTasks d col)) cols)).

(** The lines that [cmdBoard] prints before it groups the tasks. *)
Definition boardHead (d : Document) : list Line :=
  [ (Stdout, nl ++ replicate 80 9552%N);
    (Stdout, Ansi.bright ++ js "  SPRINT " ++ currentSprint d ++ js " - "
               ++ project d ++ Ansi.reset);
    (Stdout, js "  " ++ sprintStart d ++ js " " ++ Glyph.arrow ++ js " " ++ sprintEnd d);
    (Stdout, replicate 80 9552%N) ].

(** The progress line of the board, for the two sums and the figure. *)
Definition progressLine (done total : Z) (figure : jsstring) : Line :=
  (Stdout, Ansi.bright ++ js "Progress:" ++ Ansi.reset ++ js " "
             ++ String_of_Z done ++ js "/" ++ String_of_Z total
             ++ js " points (" ++ figure ++ js "%)").

(** The lines that [cmdBoard] prints when the tasks can be grouped. *)
Definition boardLines (config : option Config) (d : Document) : list Line :=
  let cols := configColumns config in
  let w := (78 / length cols)%nat in
  let blocked := List.filter hasBlockers (sprintTasksOf d) in
  boardHead d
  ++ [ (Stdout, nl ++ join Glyph.vbar
                        (List.map (fun col =>
                                     padRight (replace (toUpperCase col) (js "_") (js " ")) w)
                                  cols));
       (Stdout, replicate 80 9472%N) ]
  ++ List.map (fun i => (Stdout, rowAt cols d w i)) (seq 0 (rowsOf cols d))
  ++ [ (Stdout, nl ++ replicate 80 9472%N);
       progressLine (donePointsOf (sprintTasksOf d)) (totalPointsOf (sprintTasksOf d))
         (String_of_round (boardProgress d)) ]
  ++ (if (0 <? length blocked)%nat
      then [ (Stdout, Ansi.red ++ js "Blockers:" ++ Ansi.reset ++ js " "
                        ++ join (js ", ") (List.map id blocked)) ]
      else [])
  ++ [ (Stdout, Ansi.dim ++ js "Updated: " ++ lastUpdated d ++ Ansi.reset ++ nl) ].


(** The filled part of a bar of 15 cells lies within the bar. *)
Definition filledWithin15 (percent : Z) : bool :=
  match barFilled percent 15 with
  | RInt f => (0 <=? f) && (f <=? 15)
  | _ => false
  end.


(** The number [n] as [cmdAdd] writes it in an id. *)
Definition pad3 (n : Z) : jsstring := padStart (decimal n) 3 48.

(** The document after [saveData]. *)
Definition stamped {W} (s : State W) (d : Document) : Document :=
  set_lastUpdated (now s) d.

(** The state after a subprocess has moved the world to [w]. *)
Definition with_world {W} (s : State W) (w : W) : State W :=
  mkState (data s) (written s) (console s) (now s) w.

(** The state after a line has been printed. *)
Definition logged {W} (s : State W) (l : Line) : State W :=
  mkState (data s) (written s) (console s ++ [l]) (now s) (world s).

(** The state after an assignment through the reference [i]. *)
Definition with_task {W} (s : State W) (i : nat) (f : Task -> Task) : State W :=
  mkState (set_tasks (alter f i (tasks (data s))) (data s)) (written s) (console s)
    (now s) (world s).

(** A task is linked when its [githubIssue] is truthy. *)
Definition linked (t : Task) : Prop := truthy_num (githubIssue t) = true.

(** The results of a push grow at their ends only. *)
Definition extends (r r' : PushResults) : Prop :=
  exists cs us es, created r' = created r ++ cs /\ updated r' = updated r ++ us
                   /\ errors r' = errors r ++ es.

(** The references of a list denote tasks of the loaded document. *)
Definition valid_refs {W} (refs : list nat) (s : State W) : Prop :=
  Forall (fun i => (i < length (tasks (data s)))%nat) refs.

(** The command-line client is absent: [gh --version] fails. *)
Definition clientAbsent {W} `{Subprocess W} (s : State W) : Prop :=
  is_ok (execSync (js "gh --version") (world s)).1 = false.

(** The world after the check of the client. *)
Definition afterCheck {W} `{Subprocess W} (s : State W) : State W :=
  with_world s (execSync (js "gh --version") (world s)).2.

(** The lines that frame the creation of an issue in the loop of push. *)
Definition creatingLine (task : Task) : Line :=
  (Stdout, js "  Creating issue for " ++ id task ++ js "...").

Definition errorLine (task : Task) (message : jsstring) : Line :=
  (Stdout, js "  " ++ Glyph.cross ++ js " Error for " ++ id task ++ js ": " ++ message).

(** A statement ends by throwing. *)
Definition throws {A} (r : Res A) : bool :=
  match r with Ok _ => false | Throw _ => true end.

(** The issue of the task at [i] cannot be created: the task has no
    issue and [createIssue] throws. *)
Definition creationFails {W} `{Subprocess W} (r : RepoInfo) (i : nat) (s : State W)
    : bool :=
  match tasks (data s) !! i with
  | Some task =>
      negb (truthy_num (githubIssue task))
      && throws (createIssue task r [] (logged s (creatingLine task))).1
  | None => false
  end.

(** No step of a run of the loop of push fails to create an issue. *)
Fixpoint noCreationFails {W} `{Subprocess W} (r : RepoInfo) (pn : option Z)
    (refs : list nat) (results : PushResults) (s : State W) : bool :=
  match refs with
  | [] => true
  | i :: rest =>
      negb (creationFails r i s)
      && match syncTask r pn i results s with
         | (Ok results', s') => noCreationFails r pn rest results' s'
         | (Throw _, _) => true
         end
  end.

End Vocabulary.

(* ================================================================== *)
(** * Runs used as concrete instances *)
(* ================================================================== *)

Module Sample.
(** The members of [Object.prototype], as text. *)
Definition memberNames : list jsstring :=
  [js "constructor"; js "hasOwnProperty"; js "isPrototypeOf";
   js "propertyIsEnumerable"; js "toLocaleString"; js "toString"; js "valueOf";
   js "__defineGetter__"; js "__defineSetter__"; js "__lookupGetter__";
   js "__lookupSetter__"].

Definition memberText (k : jsstring) : option jsstring :=
  if bool_decide (k ∈ memberNames) then
    Some (js "function " ++ (if str_eqb k (js "constructor") then js "Object" else k)
            ++ js "() { [native code] }")
  else None.

(** A runtime for the runs below.  It is the runtime of Node on what
    these runs reach: text in ASCII, integers up to [2^53], the members
    of [Object.prototype], and boards without a column [__proto__]. *)
Definition runtime : Runtime :=
  {| toLowerCase := ascii_lower;
     toUpperCase := ascii_upper;
     toLowerCase_ascii := fun s _ => eq_refl;
     toUpperCase_ascii := fun s _ => eq_refl;
     Number_toString := decimal;
     Object_prototype := memberText;
     board_with_proto := fun _ _ => ([], Ok tt) |}.

Definition task (i st : string) (pts : Z) : Task :=
  {| id := js i; title := js "Sample"; type := js "feature"; status := js st;
     priority := js "medium"; points := Some pts; sprint := js "1";
     owner := None; branch := None; worktree := None; notes := None;
     linkedTD := None; acceptanceCriteria := None; blockers := None;
     createdAt := js "2026-01-18"; completedAt := None; githubIssue := None;
     githubUrl := None |}.

Definition doc (ts : list Task) : Document :=
  {| project := js "My Project"; version := Some (js "1.0.0");
     currentSprint := js "1"; sprintStart := js "2026-01-18";
     sprintEnd := js "2026-01-31";
     capacity := Some (mkCapacity 80 64 16);
     tasks := ts; technicalDebt := Some [];
     lastUpdated := js "2026-01-18T15:30:00.000Z" |}.

Definition state {W} (w : W) (ts : list Task) : State W :=
  mkState (doc ts) [] [] (js "2026-02-02T09:00:00.000Z") w.

(** A configuration with its own prefix and its own three columns. *)
Definition config : Config :=
  {| projectName := Some (js "App"); dataFile := None; boardFile := None;
     taskPrefix := Some (js "app");
     columns := Some [js "todo"; js "doing"; js "done"];
     githubProject := None |}.

(** A tracker with a fixed behaviour: whether [gh] is installed, the URL
of the remote, the issues that are closed, the issues whose view fails,
whether closing an issue fails, the task ids whose issue cannot be
created, and the number of the next issue. *)
Record World : Type := mkWorld {
  installed : bool;
  remote : option jsstring;
  closedIssues : list Z;
  unreadable : list Z;
  closeFails : bool;
  uncreatable : list jsstring;
  nextIssue : Z
}.

(** [s.includes(pat)] *)
Fixpoint includes (s pat : jsstring) : bool :=
  startsWith s pat || match s with
                      | [] => false
                      | _ :: s' => includes s' pat
                      end.

Definition failed : jsstring := js "Command failed".

Definition respond (cmd : jsstring) (w : World) : (jsstring + jsstring) * World :=
  if startsWith cmd (js "git remote get-url origin") then
    (match remote w with Some u => inr (u ++ nl) | None => inl failed end, w)
  else if negb (installed w) then (inl failed, w)
  else if startsWith cmd (js "gh --version") then (inr (js "gh version 2.40.1"), w)
  else if startsWith cmd (js "gh issue view ") then
    match parseInt (drop 14 cmd) with
    | Some n =>
        if bool_decide (n ∈ unreadable w) then (inl failed, w)
        else if bool_decide (n ∈ closedIssues w) then (inr (js "CLOSED"), w)
        else (inr (js "OPEN"), w)
    | None => (inl failed, w)
    end
  else if startsWith cmd (js "gh issue close ") then
    if closeFails w then (inl failed, w) else (inr [], w)
  else if startsWith cmd (js "gh " ++ quote ++ js "issue" ++ quote) then
    if existsb (includes cmd) (uncreatable w) then (inl failed, w)
    else (inr (js "https://github.com/acme/app/issues/" ++ decimal (nextIssue w) ++ nl),
          mkWorld (installed w) (remote w) (closedIssues w) (unreadable w)
            (closeFails w) (uncreatable w) (nextIssue w + 1))
  else (inr [], w).

(** This tracker prints the bare state of an issue, and the parser takes
the output as the state. *)
#[global] Instance world_subprocess : Subprocess World := {
  execSync := respond;
  JSON_parse_issue := fun out => Some (mkIssueStatus out [])
}.

Definition linkedTask (i st : string) (issue : Z) (done : option jsstring) : Task :=
  {| id := js i; title := js "Sample"; type := js "feature"; status := js st;
     priority := js "medium"; points := Some 3; sprint := js "1";
     owner := None; branch := None; worktree := None; notes := None;
     linkedTD := None; acceptanceCriteria := None; blockers := None;
     createdAt := js "2026-01-18"; completedAt := done; githubIssue := Some issue;
     githubUrl := None |}.

(** A task that was completed on 20 January and moved back to work,
linked to issue 7, which has since been closed on the tracker. *)
Definition reopenedLocally : State World :=
  state (mkWorld true (Some (js "https://github.com/acme/app.git")) [7] [] false [] 12)
    [linkedTask "TASK-001" "in_progress" 7 (Some (js "2026-01-20"))].

(** A task without issue, a task whose issue 7 cannot be read and a task
whose issue 8 is closed. *)
Definition unreadableSeven : State World :=
  state (mkWorld true (Some (js "https://github.com/acme/app.git")) [8] [7] false [] 12)
    [task "TASK-001" "ready" 1;
     linkedTask "TASK-002" "in_progress" 7 None;
     linkedTask "TASK-003" "review" 8 None].

(** One linked task whose issue 7 cannot be read. *)
Definition onlyUnreadable : State World :=
  state (mkWorld true (Some (js "https://github.com/acme/app.git")) [] [7] false [] 12)
    [linkedTask "TASK-001" "in_progress" 7 None].

(** A machine without [gh], in a clone of the repository. *)
Definition withoutGh : State World :=
  state (mkWorld false (Some (js "https://github.com/acme/app.git")) [] [] false [] 12)
    [task "TASK-001" "ready" 1].

(** A done task linked to the open issue 7, on a tracker where closing
an issue fails. *)
Definition closeRefused : State World :=
  state (mkWorld true (Some (js "https://github.com/acme/app.git")) [] [] true [] 12)
    [linkedTask "TASK-001" "done" 7 (Some (js "2026-01-20"))].

(** Three tasks without issue; the issue of the second cannot be created. *)
Definition secondUncreatable : State World :=
  state (mkWorld true (Some (js "git@github.com:acme/app.git")) [] [] false
           [js "TASK-002"] 12)
    [task "TASK-001" "backlog" 1; task "TASK-002" "backlog" 2; task "TASK-003" "ready" 3].

Definition acme : RepoInfo := mkRepoInfo (js "acme") (js "app").
End Sample.

(* ================================================================== *)
(** * Vocabulary of the further statements *)
(* ================================================================== *)

Section FurtherVocabulary.
Context `{RT : Runtime}.

(** The field [f] of a task is left as it was. *)
Definition keepsField (f : jsstring) (t t' : Task) : Prop :=
  (f <> js "title" -> title t' = title t) /\
  (f <> js "type" -> type t' = type t) /\
  (f <> js "priority" -> priority t' = priority t) /\
  (f <> js "points" -> points t' = points t) /\
  (f <> js "owner" -> owner t' = owner t) /\
  (f <> js "branch" -> branch t' = branch t) /\
  (f <> js "sprint" -> sprint t' = sprint t) /\
  (f <> js "notes" -> notes t' = notes t).

(** The field [f] of a task holds the edited value. *)
Definition holdsField (f value : jsstring) (t' : Task) : Prop :=
  (f = js "title" -> title t' = value) /\
  (f = js "type" -> type t' = value) /\
  (f = js "priority" -> priority t' = value) /\
  (f = js "points" -> points t' = Some (coercePoints value)) /\
  (f = js "owner" -> owner t' = Some value) /\
  (f = js "branch" -> branch t' = Some value) /\
  (f = js "sprint" -> sprint t' = value) /\
  (f = js "notes" -> notes t' = Some value).

(** The fields that no edit reaches. *)
Definition keepsIdentity (t t' : Task) : Prop :=
  id t' = id t /\ status t' = status t /\ createdAt t' = createdAt t /\
  completedAt t' = completedAt t /\ worktree t' = worktree t /\
  linkedTD t' = linkedTD t /\ acceptanceCriteria t' = acceptanceCriteria t /\
  blockers t' = blockers t /\ githubIssue t' = githubIssue t /\
  githubUrl t' = githubUrl t.

(** ASCII text without lower-case letters. *)
Definition upperText (s : jsstring) : Prop := is_ascii s = true /\ ascii_upper s = s.

(** An id written as [cmdAdd] writes it. *)
Definition upperId (t : Task) : Prop := upperText (id t).

(** A computation that only prints: whatever it returns, the state it
    leaves differs from the one it found by the lines added to the
    console. *)
Definition printsOnly {W A} (m : M W A) : Prop :=
  forall s, exists r lines,
    m s = (r, mkState (data s) (written s) (console s ++ lines) (now s) (world s)).

(** The number of tasks of a list in a given status. *)
Definition countOf (st : jsstring) (ts : list Task) : Z :=
  Z.of_nat (length (filter (fun t => status t = st) ts)).

(** The entries that [cmdStatus] prints for a document. *)
Definition statusEntries (d : Document) : list (jsstring * Count) :=
  objectEntries (countStatuses (sprintTasksOf d)).

Definition statusLine (e : jsstring * Count) : Line :=
  (Stdout, statusColor (fst e) ++ padRight (fst e ++ js ":") 15 ++ Ansi.reset
             ++ js " " ++ countText (snd e) ++ js " tasks").

(** What [counts] holds for a status that [n] tasks are in: nothing for
    no task; the number [n] for a status that names no member of
    [Object.prototype]; for one that names a member, the text of the
    member followed by as many [1] as there are tasks; and nothing at
    all for [__proto__]. *)
Definition expectedCount (st : jsstring) (n : nat) : option Count :=
  match n with
  | O => None
  | S _ =>
      match inherited st with
      | None => Some (Counted (Z.of_nat n))
      | Some member =>
          if str_eqb st (js "__proto__") then None
          else Some (Text (member ++ replicate n 49%N))
      end
  end.

(** One run of a command that revises a task. *)
Inductive Revision : Type :=
  | Edited (taskId field : option jsstring) (value : jsstring)
  | Moved (taskId newStatus : jsstring).

Definition revise {W} (config : option Config) (r : Revision) : M W unit :=
  match r with
  | Edited taskId field value => cmdEdit config taskId field value
  | Moved taskId newStatus => cmdMove config taskId newStatus
  end.

(** The state left by successive runs, each starting from the state the
    previous one left. *)
Definition afterRuns {W} (config : option Config) (rs : list Revision) (s : State W)
    : State W :=
  foldl (fun st r => (revise config r st).2) s rs.

(** The count recorded for a key, if any. *)
Definition countFor (key : jsstring) (counts : list (jsstring * Count)) : option Count :=
  match List.find (fun e => str_eqb (fst e) key) counts with
  | Some e => Some (snd e)
  | None => None
  end.

(** The sum of the counts that are numbers. *)
Definition totalCount (counts : list (jsstring * Count)) : Z :=
  foldr (fun e acc => match snd e with Counted n => n | Text _ => 0 end + acc) 0 counts.

(** The lines that [cmdStatus] prints before it reads the capacity. *)
Definition statusLines (d : Document) : list Line :=
  [ (Stdout, nl ++ repeat_unit Glyph.dbl_rule 50);
    (Stdout, Ansi.bright ++ js "  SPRINT " ++ currentSprint d ++ js " STATUS"
               ++ Ansi.reset);
    (Stdout, repeat_unit Glyph.dbl_rule 50) ]
  ++ List.map statusLine (statusEntries d)
  ++ [ (Stdout, nl ++ Ansi.bright ++ js "Points:" ++ Ansi.reset ++ js " "
                  ++ String_of_Z (donePointsOf (sprintTasksOf d)) ++ js "/"
                  ++ String_of_Z (totalPointsOf (sprintTasksOf d))) ].

Definition capacityLines (cap : Capacity) : list Line :=
  [ (Stdout, Ansi.bright ++ js "Capacity:" ++ Ansi.reset ++ js " "
               ++ String_of_Z (committed cap) ++ js "h / "
               ++ String_of_Z (totalHours cap) ++ js "h");
    (Stdout, []) ].

(** The body of the loop of [cmdDebt]. *)
Definition debtItem {W} (td : TechDebt.t) : M W unit :=
  let icon := debtIcon (TechDebt.status td) in
  let color := debtColor (TechDebt.status td) in
  bar <- lift_res (createProgressBar (or_num (TechDebt.progress td) 0) 15) ;;
  console_log (nl ++ icon ++ js " " ++ Ansi.bright ++ TechDebt.id td
                 ++ Ansi.reset ++ js " " ++ color ++ js "["
                 ++ TechDebt.status td ++ js "]" ++ Ansi.reset) ;;;
  console_log (js "   " ++ bar ++ js " "
                 ++ String_of_Z (or_num (TechDebt.progress td) 0) ++ js "%") ;;;
  (if truthy_ostr (TechDebt.linkedTask td)
   then console_log (js "   " ++ Ansi.dim ++ Glyph.arrow ++ js " "
                       ++ default [] (TechDebt.linkedTask td) ++ Ansi.reset)
   else ret tt).

(** The progress that the debt view shows for an item. *)
Definition shownProgress (td : TechDebt.t) : Z := or_num (TechDebt.progress td) 0.

(** What the debt view prints for an item whose bar can be drawn. *)
Definition itemLines (td : TechDebt.t) : list Line :=
  match createProgressBar (shownProgress td) 15 with
  | Ok bar =>
      [(Stdout, nl ++ debtIcon (TechDebt.status td) ++ js " " ++ Ansi.bright
                  ++ TechDebt.id td ++ Ansi.reset ++ js " "
                  ++ debtColor (TechDebt.status td) ++ js "["
                  ++ TechDebt.status td ++ js "]" ++ Ansi.reset);
       (Stdout, js "   " ++ bar ++ js " " ++ String_of_Z (shownProgress td) ++ js "%")]
      ++ match TechDebt.linkedTask td with
         | Some l => if truthy_str l
                     then [(Stdout, js "   " ++ Ansi.dim ++ Glyph.arrow ++ js " " ++ l
                                      ++ Ansi.reset)]
                     else []
         | None => []
         end
  | Throw _ => []
  end.

(** The heading of the debt view. *)
Definition debtHeader : list Line :=
  [(Stdout, nl ++ repeat_unit Glyph.dbl_rule 50);
   (Stdout, Ansi.bright ++ js "  TECHNICAL DEBT" ++ Ansi.reset);
   (Stdout, repeat_unit Glyph.dbl_rule 50)].

(** The bar of the item can be drawn. *)
Definition drawable (td : TechDebt.t) : Prop :=
  exists bar, createProgressBar (shownProgress td) 15 = Ok bar.

(** The document apart from its tasks. *)
Definition restOf (d : Document) : Document := set_tasks [] d.

(** The state [s'] differs from [s] in the console, in the world and in
    tasks related by [R], position by position. *)
Definition sameButTasks {W} (R : Task -> Task -> Prop) (s s' : State W) : Prop :=
  Forall2 R (tasks (data s)) (tasks (data s'))
  /\ restOf (data s') = restOf (data s)
  /\ written s' = written s /\ now s' = now s.

(** What a pull may do to a task: nothing, or complete today a linked
    task that was not done. *)
Definition pulled (today : jsstring) (t t' : Task) : Prop :=
  t' = t \/
  (linked t /\ status t <> js "done"
   /\ t' = set_completedAt today (set_status (js "done") t)).

(** An entry of the report of a pull names a task that is done, since
    today. *)
Definition reportsDone (today : jsstring) (ts : list Task) (u : Updated) : Prop :=
  updated_action u = js "marked done" /\
  exists t, t ∈ ts /\ id t = updated_id u /\ status t = js "done"
            /\ completedAt t = Some today.

(** What a push may do to a task: nothing, or record an issue and its
    address on a task that was not linked. *)
Definition pushed (t t' : Task) : Prop :=
  t' = t \/
  (~ linked t /\ exists n u, t' = set_githubUrl u (set_githubIssue n t)).

(** The number of entries of the report of a push. *)
Definition entries (r : PushResults) : nat :=
  (length (created r) + length (updated r) + length (errors r))%nat.

(** The issue number that [createIssue] reads off an address. *)
Definition issueNumberOf (url : jsstring) : option Z :=
  match match_issues url with
  | Some ds => parseInt ds
  | None => None
  end.

(** A text without slash; a text without slash or dot. *)
Definition noSlash (x : jsstring) : Prop := Forall (fun c => c <> 47%N) x.
Definition noSlashDot (x : jsstring) : Prop :=
  Forall (fun c => c <> 47%N /\ c <> 46%N) x.

(** The first code unit of a text, if any, is not a digit. *)
Definition noLeadingDigit (x : jsstring) : Prop :=
  forall c, head x = Some c -> is_digit c = false.

(** The address of issue [n] of a repository. *)
Definition issueUrl (r : RepoInfo) (n : Z) : jsstring :=
  js "https://github.com/" ++ slug r ++ js "/issues/" ++ decimal n.

(** What may follow the name of the repository in the address of a
    remote: nothing, or a text that starts with a dot or a slash. *)
Definition endsName (tail : jsstring) : Prop :=
  tail = [] \/ exists c t, tail = c :: t /\ (c = 46%N \/ c = 47%N).

(** A repository whose address can be read back: neither its owner nor
    its name holds a slash, and the name of a repository of the owner
    [issues] does not start with a digit. *)
Definition plainRepo (r : RepoInfo) : Prop :=
  noSlash (repo_owner r) /\ noSlash (repo_name r)
  /\ (repo_owner r = js "issues" -> noLeadingDigit (repo_name r)).

(** The issue number given to [link]. *)
Definition linkNumber (args : list jsstring) : option Z :=
  match args !! 2%nat with Some a => parseInt a | None => None end.

(** The task as [link] leaves it, given what [getRepoInfo] returned. *)
Definition linkedTo (o : option RepoInfo) (n : Z) (task : Task) : Task :=
  match o with
  | Some r => set_githubUrl (js "https://github.com/" ++ slug r ++ js "/issues/"
                               ++ String_of_Z n)
                (set_githubIssue (Some n) task)
  | None => set_githubIssue (Some n) task
  end.

(** The two ways a sync command ends: the document was saved, once,
    with its tasks related to the former ones by [R]; or nothing was
    changed, and the command ended in one of three ways. *)
Definition noRemote : jsstring := js "Not in a git repository with GitHub remote".

Definition savedOnce {W} (R : Task -> Task -> Prop) (s : State W) (res : Res Z)
    (s' : State W) : Prop :=
  res = Ok 0 /\ written s' = written s ++ [data s']
  /\ lastUpdated (data s') = now s
  /\ Forall2 R (tasks (data s)) (tasks (data s')).

Definition untouched {W} (notFound : jsstring) (s : State W) (res : Res Z)
    (s' : State W) : Prop :=
  data s' = data s /\ written s' = written s
  /\ (res = Ok 1 \/ res = Throw notFound \/ res = Throw noRemote).

End FurtherVocabulary.

(** Further documents used as concrete instances. *)
Module Cases.
(** A document written by hand, without [capacity]. *)
Definition bare (ts : list Task) (debts : option (list TechDebt.t)) : Document :=
  {| project := js "My Project"; version := None;
     currentSprint := js "1"; sprintStart := js "2026-01-18";
     sprintEnd := js "2026-01-31"; capacity := None;
     tasks := ts; technicalDebt := debts;
     lastUpdated := js "2026-01-18T15:30:00.000Z" |}.

Definition bareState (ts : list Task) (debts : option (list TechDebt.t)) : State unit :=
  mkState (bare ts debts) [] [] (js "2026-02-02T09:00:00.000Z") tt.

(** An item at 40 percent and an item whose progress was entered as 250. *)
Definition steady : TechDebt.t :=
  TechDebt.mk (js "TD-001") (js "in_progress") (Some 40) (Some (js "TASK-001")).
Definition runaway : TechDebt.t :=
  TechDebt.mk (js "TD-002") (js "pending") (Some 250) None.

Definition three : list Task :=
  [Sample.task "TASK-001" "ready" 1; Sample.task "TASK-002" "done" 2;
   Sample.task "TASK-003" "ready" 3].
End Cases.

(** The directory holds a configuration file. *)
Definition hasConfig (existsSync : list jsstring * jsstring -> bool) (d : list jsstring) : Prop :=
  existsSync (d, CONFIG_FILE) = true.

(* ================================================================== *)
(** * Properties *)
(* ================================================================== *)

Section Properties.
Context `{RT : Runtime}.

Lemma bind_ok {W A B} (m : M W A) (k : A -> M W B) s a s' :
  m s = (Ok a, s') -> bind m k s = k a s'.
Proof. intros E. unfold bind. now rewrite E. Qed.

Lemma bind_throw {W A B} (m : M W A) (k : A -> M W B) s e s' :
  m s = (Throw e, s') -> bind m k s = (Throw e, s').
Proof. intros E. unfold bind. now rewrite E. Qed.

(** ** [cmdMove] *)

Lemma cmdMove_invalid {W} config taskId newStatus (s : State W) :
  newStatus ∉ configColumns config ->
  cmdMove config taskId newStatus s =
    (Ok tt, mkState (data s) (written s)
              (console s ++ [(Stderr, Ansi.red ++ js "Invalid status. Use: "
                                ++ join (js ", ") (configColumns config) ++ Ansi.reset)])
              (now s) (world s)).
Proof.
  intros Hn. unfold cmdMove. rewrite bool_decide_eq_false_2 by exact Hn.
  reflexivity.
Qed.

Lemma cmdMove_not_found {W} config taskId newStatus (s : State W) :
  newStatus ∈ configColumns config ->
  findTask taskId (tasks (data s)) = None ->
  cmdMove config taskId newStatus s =
    (Ok tt, mkState (data s) (written s)
              (console s ++ [(Stderr, Ansi.red ++ js "Task not found: " ++ taskId
                                ++ Ansi.reset)])
              (now s) (world s)).
Proof.
  intros Hin Hf. unfold cmdMove. rewrite bool_decide_eq_true_2 by exact Hin.
  simpl. unfold bind at 1, get at 1. rewrite Hf. reflexivity.
Qed.

Lemma alter_twice_moved newStatus today i task (ts : list Task) :
  ts !! i = Some task ->
  (if str_eqb newStatus (js "done") && negb (truthy_ostr (completedAt task))
   then alter (set_completedAt today) i (alter (set_status newStatus) i ts)
   else alter (set_status newStatus) i ts)
  = alter (moved newStatus today) i ts.
Proof.
  intros Hl. unfold moved.
  destruct (str_eqb newStatus (js "done") && negb (truthy_ostr (completedAt task))) eqn:E.
  - rewrite list_alter_alter_eq. apply list_alter_ext; [|reflexivity].
    intros x Hx. rewrite Hl in Hx. injection Hx as <-. simpl. now rewrite E.
  - apply list_alter_ext; [|reflexivity].
    intros x Hx. rewrite Hl in Hx. injection Hx as <-. now rewrite E.
Qed.

Lemma cmdMove_found {W} config taskId newStatus (s : State W) i task :
  newStatus ∈ configColumns config ->
  findTask taskId (tasks (data s)) = Some (i, task) ->
  let d' := set_lastUpdated (now s)
              (set_tasks (alter (moved newStatus (todayOf s)) i
                            (tasks (data s))) (data s)) in
  cmdMove config taskId newStatus s =
    (Ok tt, mkState d' (written s ++ [d'])
              (console s ++ [(Stdout, Ansi.green ++ Glyph.check ++ js " " ++ id task
                                ++ js ": " ++ status task ++ js " " ++ Glyph.arrow
                                ++ js " " ++ newStatus ++ Ansi.reset)])
              (now s) (world s)).
Proof.
  intros Hin Hf d'. unfold cmdMove. rewrite bool_decide_eq_true_2 by exact Hin.
  simpl. unfold bind at 1, get at 1. rewrite Hf.
  assert (Hl : tasks (data s) !! i = Some task).
  { apply list_find_Some in Hf. tauto. }
  subst d'. rewrite <- (alter_twice_moved _ _ _ _ _ Hl).
  destruct (str_eqb newStatus (js "done") && negb (truthy_ostr (completedAt task)));
    run; reflexivity.
Qed.

Lemma findTask_firstMatch taskId ts i t :
  findTask taskId ts = Some (i, t) <-> firstMatch taskId ts i t.
Proof.
  unfold findTask, firstMatch, sameId.
  apply (list_find_Some (fun t => toLowerCase (id t) = toLowerCase taskId)).
Qed.

Lemma findTask_none taskId ts :
  findTask taskId ts = None <-> forall t, t ∈ ts -> ~ sameId taskId t.
Proof.
  unfold findTask, sameId.
  rewrite (list_find_None (fun t => toLowerCase (id t) = toLowerCase taskId)).
  apply Forall_forall.
Qed.

Lemma moved_status newStatus today t : status (moved newStatus today t) = newStatus.
Proof. unfold moved. now destruct (_ && _). Qed.

Lemma moved_completedAt_stamped today t :
  ~ isSet (completedAt t) -> completedAt (moved (js "done") today t) = Some today.
Proof.
  unfold isSet, moved. intros Hu.
  destruct (truthy_ostr (completedAt t)); [congruence|]. reflexivity.
Qed.

Lemma moved_completedAt_kept newStatus today t :
  newStatus <> js "done" \/ isSet (completedAt t) ->
  completedAt (moved newStatus today t) = completedAt t.
Proof.
  unfold isSet, moved, str_eqb. intros [Hn|Hs].
  - rewrite bool_decide_eq_false_2 by exact Hn. reflexivity.
  - rewrite Hs. rewrite andb_false_r. reflexivity.
Qed.

(** A move keeps every position of the task list, and a [completedAt]
    that is set stays as it is at every position. *)
Lemma cmdMove_keeps_set {W} config taskId newStatus (s : State W) i t :
  tasks (data s) !! i = Some t -> isSet (completedAt t) ->
  exists t', tasks (data (cmdMove config taskId newStatus s).2) !! i = Some t'
             /\ completedAt t' = completedAt t.
Proof.
  intros Hl Hs.
  destruct (decide (newStatus ∈ configColumns config)) as [Hin|Hn].
  - destruct (findTask taskId (tasks (data s))) as [[k u]|] eqn:Hf.
    + rewrite (cmdMove_found _ _ _ _ _ _ Hin Hf). simpl.
      destruct (decide (k = i)) as [->|Hne].
      * rewrite list_lookup_alter_eq, Hl. simpl. eexists. split; [reflexivity|].
        apply moved_completedAt_kept. now right.
      * rewrite list_lookup_alter_ne by exact Hne. eauto.
    + rewrite (cmdMove_not_found _ _ _ _ Hin Hf). simpl. eauto.
  - rewrite (cmdMove_invalid _ _ _ _ Hn). simpl. eauto.
Qed.

Lemma cmdMove_ok {W} config taskId newStatus (s : State W) :
  (cmdMove config taskId newStatus s).1 = Ok tt.
Proof.
  destruct (decide (newStatus ∈ configColumns config)) as [Hin|Hn].
  - destruct (findTask taskId (tasks (data s))) as [[k u]|] eqn:Hf.
    + now rewrite (cmdMove_found _ _ _ _ _ _ Hin Hf).
    + now rewrite (cmdMove_not_found _ _ _ _ Hin Hf).
  - now rewrite (cmdMove_invalid _ _ _ _ Hn).
Qed.

Lemma cmdMoves_keeps_set {W} config moves (s : State W) i t :
  tasks (data s) !! i = Some t -> isSet (completedAt t) ->
  exists t', tasks (data (cmdMoves config moves s).2) !! i = Some t'
             /\ completedAt t' = completedAt t.
Proof.
  revert s t. induction moves as [|[tid st] moves IH]; intros s t Hl Hs.
  - simpl. eauto.
  - unfold cmdMoves. simpl. unfold bind.
    pose proof (cmdMove_ok config tid st s) as Hok.
    destruct (cmdMove_keeps_set config tid st s i t Hl Hs) as (t1 & Hl1 & Hc1).
    destruct (cmdMove config tid st s) as [r s1]. simpl in *. subst r.
    destruct (IH s1 t1 Hl1) as (t2 & Hl2 & Hc2).
    { unfold isSet in *. now rewrite Hc1. }
    exists t2. split; [exact Hl2|]. now rewrite Hc2.
Qed.

(** C1. [cmdMove] on any document, column list, task id and target
    status; the column list is the one of the configuration and, without
    one, the five default columns; a task matches when its id and the
    given id are the same text once both are put in lower case, which on
    ASCII text is the comparison without regard to the case of the
    letters [A] to [Z]. The command always returns normally. If the
    target is not one of the configured columns it prints the list of
    the columns on the error stream, and if no task matches it prints
    [Task not found] there; in both cases it neither changes the
    document nor writes the data file. Otherwise the first matching task
    gets the target status; its [completedAt] becomes today's date when
    the target is [done] and it was not set, and is left as it was in
    every other case; the document is then written to the data file. A
    [completedAt] that is set survives any sequence of moves, at every
    position of the task list. *)
Theorem cmdMove_spec {W} (config : option Config) (taskId newStatus : jsstring)
    (s : State W) :
  let cols := match config with
              | Some c => match columns c with
                          | Some l => l
                          | None => [js "backlog"; js "ready"; js "in_progress";
                                     js "review"; js "done"]
                          end
              | None => [js "backlog"; js "ready"; js "in_progress"; js "review";
                         js "done"]
              end in
  let matches (t : Task) := toLowerCase (id t) = toLowerCase taskId in
  let s' := (cmdMove config taskId newStatus s).2 in
  (cmdMove config taskId newStatus s).1 = Ok tt /\
  (forall t, is_ascii (id t) = true -> is_ascii taskId = true ->
     (matches t <-> List.map lower_unit (id t) = List.map lower_unit taskId)) /\
  (newStatus ∉ cols ->
     data s' = data s /\ written s' = written s /\
     console s' = console s ++ [(Stderr, Ansi.red ++ js "Invalid status. Use: "
                                           ++ join (js ", ") cols ++ Ansi.reset)]) /\
  (newStatus ∈ cols -> (forall t, t ∈ tasks (data s) -> ~ matches t) ->
     data s' = data s /\ written s' = written s /\
     console s' = console s ++ [(Stderr, Ansi.red ++ js "Task not found: " ++ taskId
                                           ++ Ansi.reset)]) /\
  (forall i t, newStatus ∈ cols ->
     tasks (data s) !! i = Some t -> matches t ->
     (forall j u, tasks (data s) !! j = Some u -> (j < i)%nat -> ~ matches u) ->
     exists t', tasks (data s') !! i = Some t' /\
       status t' = newStatus /\
       (newStatus = js "done" /\ ~ isSet (completedAt t) ->
          completedAt t' = Some (todayOf s)) /\
       (newStatus <> js "done" \/ isSet (completedAt t) ->
          completedAt t' = completedAt t) /\
       written s' = written s ++ [data s']) /\
  (forall moves i t, tasks (data s) !! i = Some t -> isSet (completedAt t) ->
     exists t', tasks (data (cmdMoves config moves s).2) !! i = Some t' /\
                completedAt t' = completedAt t).
Proof.
  intros cols matches s'. change cols with (configColumns config) in *.
  split; [apply cmdMove_ok|]. split; [|split; [|split; [|split]]].
  - intros t Ht Hq. unfold matches.
    rewrite (toLowerCase_ascii _ Ht), (toLowerCase_ascii _ Hq). reflexivity.
  - intros Hn. subst s'. now rewrite (cmdMove_invalid _ _ _ _ Hn).
  - intros Hin Hnone. subst s'. apply findTask_none in Hnone.
    now rewrite (cmdMove_not_found _ _ _ _ Hin Hnone).
  - intros i t Hin Hl Hm Hfirst. subst s'.
    assert (Hfm : firstMatch taskId (tasks (data s)) i t) by (split; [|split]; assumption).
    apply findTask_firstMatch in Hfm.
    rewrite (cmdMove_found _ _ _ _ _ _ Hin Hfm). simpl.
    exists (moved newStatus (todayOf s) t).
    rewrite list_lookup_alter_eq, Hl. simpl.
    split; [reflexivity|]. split; [apply moved_status|]. split; [|split].
    + intros [-> Hu]. now apply moved_completedAt_stamped.
    + apply moved_completedAt_kept.
    + reflexivity.
  - intros moves i t. apply cmdMoves_keeps_set.
Qed.

(** C9. A successful [cmdMove] changes, in the whole document, only the
    [status] of the first matching task, its [completedAt] (and that
    only when the target is [done] and it was not set), and the
    document's [lastUpdated], which becomes the clock reading. Every
    other field of that task, every other task, the length of the task
    list, [technicalDebt], [capacity] and the sprint fields are as they
    were. *)
Theorem cmdMove_frame {W} (config : option Config) (taskId newStatus : jsstring)
    (s : State W) (i : nat) (t : Task) :
  newStatus ∈ configColumns config ->
  firstMatch taskId (tasks (data s)) i t ->
  let d := data s in
  let d' := data (cmdMove config taskId newStatus s).2 in
  (project d' = project d /\ version d' = version d /\
   currentSprint d' = currentSprint d /\ sprintStart d' = sprintStart d /\
   sprintEnd d' = sprintEnd d /\ capacity d' = capacity d /\
   technicalDebt d' = technicalDebt d /\ lastUpdated d' = now s) /\
  length (tasks d') = length (tasks d) /\
  (forall j, j <> i -> tasks d' !! j = tasks d !! j) /\
  exists t', tasks d' !! i = Some t' /\
    (id t' = id t /\ title t' = title t /\ type t' = type t /\
     priority t' = priority t /\ points t' = points t /\ sprint t' = sprint t /\
     owner t' = owner t /\ branch t' = branch t /\ worktree t' = worktree t /\
     notes t' = notes t /\ linkedTD t' = linkedTD t /\
     acceptanceCriteria t' = acceptanceCriteria t /\ blockers t' = blockers t /\
     createdAt t' = createdAt t /\ githubIssue t' = githubIssue t /\
     githubUrl t' = githubUrl t) /\
    status t' = newStatus /\
    (completedAt t' <> completedAt t ->
       newStatus = js "done" /\ ~ isSet (completedAt t)).
Proof.
  intros Hin Hfm d d'. subst d d'.
  pose proof Hfm as (Hl & _ & _).
  apply findTask_firstMatch in Hfm.
  rewrite (cmdMove_found _ _ _ _ _ _ Hin Hfm). simpl.
  split; [repeat split|]. split; [apply length_alter|]. split.
  - intros j Hj. apply list_lookup_alter_ne. congruence.
  - exists (moved newStatus (todayOf s) t).
    rewrite list_lookup_alter_eq, Hl. simpl. split; [reflexivity|].
    split; [unfold moved; destruct (_ && _); repeat split|].
    split; [apply moved_status|].
    intros Hch.
    destruct (decide (newStatus = js "done")) as [Hd|Hd].
    + split; [exact Hd|]. intros Hs. apply Hch.
      apply moved_completedAt_kept. now right.
    + exfalso. apply Hch. apply moved_completedAt_kept. now left.
Qed.

(** ** Numbers *)

Lemma Number_of_safe z : Z.abs z <= max_safe -> Number_of z = z.
Proof. intros Hz. unfold Number_of. apply Z.leb_le in Hz. now rewrite Hz. Qed.

Lemma String_of_Z_safe z : Z.abs z <= max_safe -> String_of_Z z = decimal z.
Proof. intros Hz. unfold String_of_Z. apply Z.leb_le in Hz. now rewrite Hz. Qed.

(** [Number_of] on integers beyond [2^53] is the conversion to double
    precision: to the nearest double, ties to the even mantissa, and to
    [Infinity] from [2^1024] on. *)
Remark Number_of_nearest :
  Number_of 9007199254740993 = 9007199254740992 /\
  Number_of 9007199254740995 = 9007199254740996 /\
  Number_of (-9007199254740993) = -9007199254740992 /\
  Number_of (2 ^ 1024 - 1) = infinity /\
  Math_round (double_of_Z (2 ^ 1024 - 1)) = RInf false /\
  forallb (fun z => match Math_round (double_of_Z z) with
                    | RInt v => v =? Number_of z
                    | _ => false
                    end)
    (seqZ (2 ^ 53 - 8) 64 ++ seqZ (- 2 ^ 54 - 8) 64 ++ seqZ (10 ^ 30) 64
     ++ seqZ (2 ^ 1023 + 2 ^ 970 - 8) 16) = true.
Proof. repeat split; vm_compute; reflexivity. Qed.

(** ** [cmdBoard]: the grid *)

Lemma forEach_log {W A} (f : A -> jsstring) (l : list A) (s : State W) :
  forEach (fun x => console_log (f x)) l s =
    (Ok tt, mkState (data s) (written s)
              (console s ++ List.map (fun x => (Stdout, f x)) l) (now s) (world s)).
Proof.
  revert s. induction l as [|x l IH]; intros s; simpl.
  - unfold ret. rewrite app_nil_r. now destruct s.
  - unfold bind at 1. unfold console_log at 1, print at 1. rewrite IH. simpl.
    now rewrite <- app_assoc.
Qed.

Lemma filter_str_eqb {A} (f : A -> jsstring) (v : jsstring) (l : list A) :
  List.filter (fun x => str_eqb (f x) v) l = filter (fun x => f x = v) l.
Proof.
  induction l as [|x l IH]; [reflexivity|].
  simpl. rewrite filter_cons. unfold str_eqb at 1.
  destruct (decide (f x = v)) as [E|E].
  - rewrite bool_decide_eq_true_2 by exact E. now rewrite IH.
  - rewrite bool_decide_eq_false_2 by exact E. exact IH.
Qed.

Lemma sprintTasksOf_active d : sprintTasksOf d = activeTasks d.
Proof. unfold sprintTasksOf, activeTasks. apply filter_str_eqb. Qed.

Lemma group_init (cols : list jsstring) : forall (g0 : gmap jsstring (list Task)) col,
  foldl (fun g c => <[c := []]> g) g0 cols !! col
  = if decide (col ∈ cols) then Some [] else g0 !! col.
Proof.
  induction cols as [|c cols IH]; intros g0 col; simpl.
  - destruct (decide (col ∈ [])) as [Hin|_]; [now apply elem_of_nil in Hin|reflexivity].
  - rewrite IH. destruct (decide (col ∈ cols)) as [Hin|Hn].
    + destruct (decide (col ∈ c :: cols)) as [_|Hn']; [reflexivity|].
      exfalso. apply Hn'. now right.
    + destruct (decide (col = c)) as [->|Hne].
      * rewrite lookup_insert_eq.
        destruct (decide (c ∈ c :: cols)) as [_|Hn']; [reflexivity|].
        exfalso. apply Hn'. left.
      * rewrite lookup_insert_ne by congruence.
        destruct (decide (col ∈ c :: cols)) as [Hin'|_]; [|reflexivity].
        apply elem_of_cons in Hin' as [?|?]; contradiction.
Qed.

(** Grouping the tasks whose status is a column or finds nothing: every
    column receives its tasks, in order. *)
Lemma groupFrom_ok (ts : list Task) : forall (g : gmap jsstring (list Task)),
  (forall t, t ∈ ts -> is_Some (g !! status t) \/ inherited (status t) = None) ->
  exists g', groupFrom g ts = Ok g' /\
    forall col, g' !! col = match g !! col with
                            | Some l => Some (l ++ filter (fun t => status t = col) ts)
                            | None => None
                            end.
Proof.
  induction ts as [|t ts IH]; intros g Hall.
  - exists g. split; [reflexivity|]. intros col.
    destruct (g !! col); [now rewrite app_nil_r | reflexivity].
  - cbn [groupFrom]. unfold groupStep.
    destruct (g !! status t) as [l|] eqn:Eg.
    + destruct (IH (<[status t := l ++ [t]]> g)) as (g' & Hrun & Hlook).
      { intros u Hu. destruct (Hall u) as [Hs|Hn]; [now right| |now right].
        left. destruct (decide (status u = status t)) as [->|Hne].
        - rewrite lookup_insert_eq. eauto.
        - rewrite lookup_insert_ne by congruence. exact Hs. }
      exists g'. split; [exact Hrun|]. intros col. rewrite Hlook, filter_cons.
      destruct (decide (status t = col)) as [<-|Hne].
      * rewrite lookup_insert_eq, Eg. now rewrite <- app_assoc.
      * rewrite lookup_insert_ne by exact Hne. reflexivity.
    + destruct (Hall t) as [Hs|Hn]; [now left | rewrite Eg in Hs; now destruct Hs |].
      rewrite Hn.
      destruct (IH g) as (g' & Hrun & Hlook).
      { intros u Hu. apply Hall. now right. }
      exists g'. split; [exact Hrun|]. intros col. rewrite Hlook, filter_cons.
      destruct (decide (status t = col)) as [<-|Hne]; [now rewrite Eg | reflexivity].
Qed.

(** Grouping stops at the first task whose status is no column and
    names a member of [Object.prototype]. *)
Lemma groupFrom_throw (pre : list Task) : forall (g : gmap jsstring (list Task)) t post,
  (forall u, u ∈ pre -> is_Some (g !! status u) \/ inherited (status u) = None) ->
  g !! status t = None -> inherited (status t) <> None ->
  groupFrom g (pre ++ t :: post) = Throw TypeError_push.
Proof.
  induction pre as [|u pre IH]; intros g t post Hall Hg Hi.
  - cbn [app groupFrom]. unfold groupStep. rewrite Hg.
    destruct (inherited (status t)); [reflexivity | congruence].
  - cbn [app groupFrom]. unfold groupStep.
    destruct (g !! status u) as [l|] eqn:Eg.
    + apply IH; [|rewrite lookup_insert_ne; [exact Hg | congruence] | exact Hi].
      intros v Hv. destruct (Hall v) as [Hs|Hn]; [now right| |now right].
      left. destruct (decide (status v = status u)) as [->|Hne].
      * rewrite lookup_insert_eq. eauto.
      * rewrite lookup_insert_ne by congruence. exact Hs.
    + destruct (Hall u) as [Hs|Hn]; [now left | rewrite Eg in Hs; now destruct Hs |].
      rewrite Hn. apply IH; [|exact Hg | exact Hi].
      intros v Hv. apply Hall. now right.
Qed.

Lemma groupTasks_ok (cols : list jsstring) d :
  groupable cols d ->
  exists g, groupTasks cols (sprintTasksOf d) = Ok g /\
    (forall col, col ∈ cols -> g !! col = Some (columnTasks d col)) /\
    (forall col, col ∉ cols -> g !! col = None).
Proof.
  intros [_ Hall]. unfold groupTasks. rewrite sprintTasksOf_active.
  destruct (groupFrom_ok (activeTasks d) (foldl (fun g c => <[c := []]> g) ∅ cols))
    as (g & Hrun & Hlook).
  { intros t Ht. destruct (Hall t Ht) as [Hin|Hn]; [left | now right].
    rewrite group_init. destruct (decide (status t ∈ cols)); [eauto | contradiction]. }
  exists g. split; [exact Hrun|]. split; intros col Hc; rewrite Hlook, group_init.
  - destruct (decide (col ∈ cols)); [reflexivity | contradiction].
  - destruct (decide (col ∈ cols)); [contradiction | now rewrite lookup_empty].
Qed.

Lemma groupTasks_throws (cols : list jsstring) d pre t post :
  activeTasks d = pre ++ t :: post ->
  (forall u, u ∈ pre -> status u ∈ cols \/ inherited (status u) = None) ->
  status t ∉ cols -> inherited (status t) <> None ->
  groupTasks cols (sprintTasksOf d) = Throw TypeError_push.
Proof.
  intros Hsplit Hall Hn Hi. unfold groupTasks. rewrite sprintTasksOf_active, Hsplit.
  apply groupFrom_throw; [|rewrite group_init | exact Hi].
  - intros u Hu. destruct (Hall u Hu) as [Hin|Hnone]; [left | now right].
    rewrite group_init. destruct (decide (status u ∈ cols)); [eauto | contradiction].
  - destruct (decide (status t ∈ cols)); [contradiction | now rewrite lookup_empty].
Qed.

(** A check of [groupable]. *)
Lemma groupable_check (cols : list jsstring) d :
  negb (bool_decide (js "__proto__" ∈ cols))
  && forallb (fun t => bool_decide (status t ∈ cols)
                       || match inherited (status t) with None => true | Some _ => false end)
       (sprintTasksOf d) = true ->
  groupable cols d.
Proof.
  intros Hb. apply andb_true_iff in Hb as [Hp Hall].
  apply negb_true_iff, bool_decide_eq_false in Hp.
  split; [exact Hp|]. intros t Ht. rewrite <- sprintTasksOf_active in Ht.
  rewrite forallb_forall in Hall. apply list_elem_of_In in Ht.
  specialize (Hall t Ht). apply orb_true_iff in Hall as [Hc|Hi].
  - left. now apply bool_decide_eq_true in Hc.
  - right. now destruct (inherited (status t)).
Qed.

Lemma join_cons (sep x : jsstring) (l : list jsstring) :
  l <> [] -> join sep (x :: l) = x ++ sep ++ join sep l.
Proof. destruct l; [congruence | reflexivity]. Qed.

(** A row as the source builds it, cell after cell with a bar after
    every cell but the last, is the join of the cells. *)
Lemma boardRow_from (cell : jsstring -> jsstring) (n : nat) (F : jsstring -> nat * jsstring -> jsstring) :
  (forall row idx col, F row (idx, col)
                       = if (idx <? n - 1)%nat then (row ++ cell col) ++ Glyph.vbar
                         else row ++ cell col) ->
  forall (l : list jsstring) (k : nat) (acc : jsstring),
    (k + length l = n)%nat ->
    foldl F acc (imap (fun j c => (k + j, c)%nat) l) = acc ++ join Glyph.vbar (List.map cell l).
Proof.
  intros HF. induction l as [|c l IH]; intros k acc Hn.
  - simpl. now rewrite app_nil_r.
  - cbn [imap foldl]. rewrite HF, Nat.add_0_r.
    assert (E : imap ((fun j c0 => (k + j, c0)%nat) ∘ S) l
                = imap (fun j c0 => (S k + j, c0)%nat) l).
    { apply imap_ext. intros j x _. simpl. f_equal. lia. }
    rewrite E. destruct l as [|c' l'].
    + simpl in Hn. assert (Hlt : (k <? n - 1)%nat = false) by (apply Nat.ltb_ge; lia).
      rewrite Hlt. reflexivity.
    + assert (Hlt : (k <? n - 1)%nat = true) by (apply Nat.ltb_lt; simpl in Hn; lia).
      rewrite Hlt. rewrite IH by (simpl in *; lia).
      cbn [List.map]. rewrite (join_cons _ (cell c)) by discriminate.
      now rewrite <- !app_assoc.
Qed.

Lemma boardRow_rowAt (cols : list jsstring) (g : gmap jsstring (list Task)) d w i :
  (forall col, col ∈ cols -> g !! col = Some (columnTasks d col)) ->
  boardRow cols g w i = rowAt cols d w i.
Proof.
  intros Hg. unfold boardRow, rowAt.
  assert (Hcells : List.map (fun col =>
                      match (g !!! col) !! i with
                      | Some _ => statusColor col ++ boardCell g w col i ++ Ansi.reset
                      | None => boardCell g w col i
                      end) cols = List.map (cellAt d w i) cols).
  { apply map_ext_in. intros col Hin. apply list_elem_of_In in Hin.
    unfold boardCell, cellAt, cellText, lookup_total, map_lookup_total.
    rewrite (Hg col Hin). cbn [default]. unfold Datatypes.id. now destruct (columnTasks d col !! i). }
  rewrite <- Hcells.
  refine (boardRow_from _ (length cols) _ _ cols 0%nat [] eq_refl).
  intros row idx col. destruct ((g !!! col) !! i), (idx <? length cols - 1)%nat;
    now rewrite <- ?app_assoc.
Qed.

Lemma foldr_max_list (l : list nat) : foldr Nat.max 1%nat l = Nat.max 1 (max_list l).
Proof. induction l as [|x l IH]; simpl; [reflexivity|]. rewrite IH. lia. Qed.

Lemma maxRowsOf_rowsOf (cols : list jsstring) (g : gmap jsstring (list Task)) d :
  (forall col, col ∈ cols -> g !! col = Some (columnTasks d col)) ->
  maxRowsOf cols g = rowsOf cols d.
Proof.
  intros Hg. unfold maxRowsOf, rowsOf. rewrite foldr_max_list. do 2 f_equal.
  apply map_ext_in. intros col Hin. apply list_elem_of_In in Hin.
  unfold lookup_total, map_lookup_total. now rewrite (Hg col Hin).
Qed.

Lemma boardHead_run {W} (s : State W) (k : M W unit) :
  (console_log (nl ++ repeat_unit Glyph.dbl_rule 80) ;;;
   console_log (Ansi.bright ++ js "  SPRINT " ++ currentSprint (data s) ++ js " - "
                  ++ project (data s) ++ Ansi.reset) ;;;
   console_log (js "  " ++ sprintStart (data s) ++ js " " ++ Glyph.arrow ++ js " "
                  ++ sprintEnd (data s)) ;;;
   console_log (repeat_unit Glyph.dbl_rule 80) ;;;
   k) s
  = k (mkState (data s) (written s) (console s ++ boardHead (data s)) (now s) (world s)).
Proof.
  unfold bind, console_log, print. cbn [data written console now world].
  unfold boardHead. now rewrite <- !app_assoc.
Qed.

(** The board of a document whose tasks can be grouped. *)
Lemma cmdBoard_run {W} config (s : State W) :
  groupable (configColumns config) (data s) ->
  cmdBoard config s =
    (Ok tt, mkState (data s) (written s) (console s ++ boardLines config (data s))
              (now s) (world s)).
Proof.
  intros Hg. pose proof Hg as [Hproto _].
  destruct (groupTasks_ok _ _ Hg) as (g & Hrun & Hin & _).
  unfold cmdBoard. unfold bind at 1, get at 1. cbv zeta.
  rewrite boardHead_run. rewrite (bool_decide_eq_false_2 _ Hproto).
  unfold bind at 1, lift_res at 1. rewrite Hrun.
  do 2 (unfold bind at 1, console_log at 1, print at 1).
  unfold bind at 1. rewrite forEach_log.
  do 2 (unfold bind at 1, console_log at 1, print at 1).
  unfold bind at 1.
  rewrite (maxRowsOf_rowsOf _ _ _ Hin).
  erewrite (map_ext_in (fun i => (Stdout, boardRow _ g _ i)));
    [|intros i _; rewrite (boardRow_rowAt _ _ _ _ _ Hin); reflexivity].
  unfold boardLines, progressLine, boardProgress, headerCell, colWidthOf, repeat_unit.
  destruct (0 <? length (List.filter hasBlockers (sprintTasksOf (data s))))%nat;
    unfold bind, console_log, print, ret; cbn [data written console now world];
    repeat rewrite <- app_assoc; reflexivity.
Qed.

(** The board of a document with an active task whose status is no
    column and names a member of [Object.prototype]: the grouping throws
    after the four lines of the heading. *)
Lemma cmdBoard_throws {W} config (s : State W) pre t post :
  js "__proto__" ∉ configColumns config ->
  activeTasks (data s) = pre ++ t :: post ->
  (forall u, u ∈ pre -> status u ∈ configColumns config \/ inherited (status u) = None) ->
  status t ∉ configColumns config -> inherited (status t) <> None ->
  cmdBoard config s =
    (Throw TypeError_push,
     mkState (data s) (written s) (console s ++ boardHead (data s)) (now s) (world s)).
Proof.
  intros Hproto Hsplit Hall Hn Hi.
  unfold cmdBoard. unfold bind at 1, get at 1. cbv zeta.
  rewrite boardHead_run. rewrite (bool_decide_eq_false_2 _ Hproto).
  unfold bind at 1, lift_res at 1.
  now rewrite (groupTasks_throws _ _ _ _ _ Hsplit Hall Hn Hi).
Qed.






(** ** [createProgressBar] and the debt view *)

Lemma createProgressBar_within percent width f :
  barFilled percent width = RInt f -> 0 <= f <= width ->
  createProgressBar percent width =
    Ok (js "[" ++ replicate (Z.to_nat f) Glyph.full_block
               ++ replicate (Z.to_nat (width - f)) Glyph.light_shade ++ js "]").
Proof.
  intros Hf [H0 Hw]. unfold createProgressBar. rewrite Hf. simpl.
  destruct (f <? 0) eqn:E1; [apply Z.ltb_lt in E1; lia|].
  destruct (width - f <? 0) eqn:E2; [apply Z.ltb_lt in E2; lia|].
  reflexivity.
Qed.

Lemma createProgressBar_outside percent width f :
  barFilled percent width = RInt f -> f < 0 \/ width < f ->
  exists e, createProgressBar percent width = Throw e.
Proof.
  intros Hf Hout. unfold createProgressBar. rewrite Hf. simpl.
  destruct (f <? 0) eqn:E1; [eauto|].
  apply Z.ltb_ge in E1.
  destruct (width - f <? 0) eqn:E2; [eauto|].
  apply Z.ltb_ge in E2. lia.
Qed.

Lemma filledWithin15_upto_103 :
  forallb filledWithin15 (List.map Z.of_nat (seq 0 104)) = true.
Proof. vm_compute. reflexivity. Qed.

Lemma barFilled_15_range percent :
  0 <= percent <= 103 -> exists f, barFilled percent 15 = RInt f /\ 0 <= f <= 15.
Proof.
  intros Hp.
  pose proof filledWithin15_upto_103 as Hall.
  rewrite forallb_forall in Hall.
  specialize (Hall percent).
  assert (Hin : In percent (List.map Z.of_nat (seq 0 104))).
  { apply in_map_iff. exists (Z.to_nat percent). split; [lia|].
    apply in_seq. lia. }
  specialize (Hall Hin). unfold filledWithin15 in Hall.
  destruct (barFilled percent 15) as [f| |]; try discriminate.
  exists f. split; [reflexivity|].
  apply andb_true_iff in Hall as [H1 H2].
  apply Z.leb_le in H1. apply Z.leb_le in H2. lia.
Qed.

Lemma cmdDebt_throws {W} (s : State W) td rest e :
  technicalDebt (data s) = Some (td :: rest) ->
  createProgressBar (or_num (TechDebt.progress td) 0) 15 = Throw e ->
  exists s', cmdDebt s = (Throw e, s') /\ data s' = data s /\ written s' = written s.
Proof.
  intros Htd He. unfold cmdDebt. unfold bind at 1, get at 1. rewrite Htd.
  do 3 (unfold bind at 1, console_log at 1, print at 1; simpl).
  unfold bind at 1. simpl. unfold bind at 1. unfold bind at 1, lift_res at 1.
  rewrite He. eexists. split; [reflexivity|]. split; reflexivity.
Qed.

(** C10, amended. With [filled = round(percent / 100 * width)] computed
    in double precision, [createProgressBar] returns a bar of exactly
    [width] cells, [filled] of them full, whenever [0 <= filled <= width],
    and throws whenever [filled] is negative or exceeds [width]. At the
    width 15 of the debt view, [filled] lies within the bar for every
    percent from 0 to 103, so in particular for 0 to 100; at 104 and at
    200 the function throws. The debt view passes the progress of each
    item unchecked, so a document whose first item has such a progress
    makes [cmdDebt] throw. *)
Theorem createProgressBar_spec :
  (forall percent width f, 0 <= width -> barFilled percent width = RInt f ->
     (0 <= f <= width ->
        exists nf ne, (nf + ne)%nat = Z.to_nat width /\ nf = Z.to_nat f /\
          createProgressBar percent width =
            Ok (js "[" ++ replicate nf Glyph.full_block
                       ++ replicate ne Glyph.light_shade ++ js "]")) /\
     (f < 0 \/ width < f -> exists e, createProgressBar percent width = Throw e)) /\
  (forall percent, 0 <= percent <= 103 ->
     exists f, barFilled percent 15 = RInt f /\ 0 <= f <= 15) /\
  (exists e, createProgressBar 104 15 = Throw e) /\
  (exists e, createProgressBar 200 15 = Throw e) /\
  (forall W (s : State W) td rest e,
     technicalDebt (data s) = Some (td :: rest) ->
     createProgressBar (or_num (TechDebt.progress td) 0) 15 = Throw e ->
     exists s', cmdDebt s = (Throw e, s')).
Proof.
  split; [|split; [|split; [|split]]].
  - intros percent width f Hw Hf. split.
    + intros Hr. exists (Z.to_nat f), (Z.to_nat (width - f)).
      split; [lia|]. split; [reflexivity|].
      now apply createProgressBar_within.
    + now apply createProgressBar_outside.
  - apply barFilled_15_range.
  - eexists. vm_compute. reflexivity.
  - eexists. vm_compute. reflexivity.
  - intros W s td rest e Htd He.
    destruct (cmdDebt_throws s td rest e Htd He) as (s' & Hs' & _). eauto.
Qed.

(** ** [cmdBoard]: the progress metric *)










(** The quotient is rounded as a double, not as an exact fraction:
    [29 / 200 * 100] is [14.499999999999998] and shows as 14, and
    [23 / 40 * 100] is [57.49999999999999] and shows as 57. *)
Remark progress_29_of_200 : progressOf 29 200 = RInt 14 /\ progressOf 23 40 = RInt 57.
Proof. split; vm_compute; reflexivity. Qed.

(** ** Numbers written and read back *)

Lemma is_digit_range c : is_digit c = true <-> (48 <= c <= 57)%N.
Proof.
  unfold is_digit. rewrite andb_true_iff, !N.leb_le. reflexivity.
Qed.

Lemma digit_val_digit d : (d < 10)%N -> digit_val 10 (digit_unit d) = Some d.
Proof.
  intros Hd. unfold digit_val, digit_unit.
  assert (E1 : (48 <=? 48 + d)%N = true) by (apply N.leb_le; lia).
  assert (E2 : (48 + d <=? 57)%N = true) by (apply N.leb_le; lia).
  rewrite E1, E2. simpl.
  assert (E3 : (48 + d - 48 <? 10)%N = true) by (apply N.ltb_lt; lia).
  rewrite E3. f_equal. lia.
Qed.

Lemma is_digit_digit_unit d : (d < 10)%N -> is_digit (digit_unit d) = true.
Proof. intros Hd. apply is_digit_range. unfold digit_unit. lia. Qed.

Lemma digits_fuel_spec fuel : forall n acc,
  (n < 10 ^ N.of_nat (S fuel))%N ->
  exists ds, digits_fuel (S fuel) n acc = ds ++ acc /\ ds <> [] /\
    Forall (fun c => is_digit c = true) ds /\
    forall a rest, parse_digits 10 (Some a) (ds ++ rest)
                   = parse_digits 10 (Some (a * 10 ^ N.of_nat (length ds) + n)%N) rest.
Proof.
  induction fuel as [|fuel IH]; intros n acc Hn.
  - exists [digit_unit (n mod 10)%N].
    assert (Hlt : (n < 10)%N) by (change (10 ^ N.of_nat 1)%N with 10%N in Hn; exact Hn).
    split; [simpl; now destruct (n / 10 =? 0)%N|].
    split; [discriminate|].
    split; [repeat constructor; apply is_digit_digit_unit; now apply N.mod_lt|].
    intros a rest. simpl. rewrite digit_val_digit by now apply N.mod_lt.
    simpl. rewrite N.mod_small by exact Hlt. do 2 f_equal; try lia.
  - assert (Hm : (n mod 10 < 10)%N) by now apply N.mod_lt.
    change (digits_fuel (S (S fuel)) n acc)
      with (if (n / 10 =? 0)%N then digit_unit (n mod 10)%N :: acc
            else digits_fuel (S fuel) (n / 10)%N (digit_unit (n mod 10)%N :: acc)).
    destruct (n / 10 =? 0)%N eqn:E.
    + apply N.eqb_eq in E.
      assert (Hlt : (n < 10)%N) by (apply N.div_small_iff in E; lia).
      exists [digit_unit (n mod 10)%N].
      split; [reflexivity|]. split; [discriminate|].
      split; [repeat constructor; now apply is_digit_digit_unit|].
      intros a rest. simpl. rewrite digit_val_digit by exact Hm.
      simpl. rewrite N.mod_small by exact Hlt. do 2 f_equal; try lia.
    + destruct (IH (n / 10)%N (digit_unit (n mod 10)%N :: acc)) as (ds & Hds & Hne & Hall & Hp).
      { apply N.Div0.div_lt_upper_bound.
        replace (N.of_nat (S (S fuel))) with (N.succ (N.of_nat (S fuel))) in Hn by lia.
        rewrite N.pow_succ_r' in Hn. exact Hn. }
      exists (ds ++ [digit_unit (n mod 10)%N]).
      split; [rewrite Hds, <- app_assoc; reflexivity|].
      split; [destruct ds; discriminate|].
      split; [apply Forall_app; split; [exact Hall|];
              repeat constructor; now apply is_digit_digit_unit|].
      intros a rest. rewrite <- app_assoc. rewrite Hp. simpl.
      rewrite digit_val_digit by exact Hm. simpl. do 2 f_equal.
      rewrite length_app. simpl.
      replace (N.of_nat (length ds + 1)) with (N.succ (N.of_nat (length ds))) by lia.
      rewrite N.pow_succ_r'.
      pose proof (N.div_mod n 10 ltac:(lia)) as Hdm. nia.
Qed.

Lemma String_of_N_spec n :
  exists ds, String_of_N n = ds /\ ds <> [] /\
    Forall (fun c => is_digit c = true) ds /\
    forall a rest, parse_digits 10 (Some a) (ds ++ rest)
                   = parse_digits 10 (Some (a * 10 ^ N.of_nat (length ds) + n)%N) rest.
Proof.
  unfold String_of_N.
  destruct (digits_fuel_spec (N.to_nat (N.log2 n)) n []) as (ds & Hds & Hne & Hall & Hp).
  - replace (N.of_nat (S (N.to_nat (N.log2 n)))) with (N.succ (N.log2 n)) by lia.
    destruct (N.eq_dec n 0%N) as [->|Hnz]; [reflexivity|].
    pose proof (N.log2_spec n ltac:(lia)) as [_ Hup].
    eapply N.lt_le_trans; [exact Hup|].
    apply N.pow_le_mono_l. lia.
  - exists ds. rewrite Hds, app_nil_r. auto.
Qed.

Lemma is_space_digit c : is_digit c = true -> is_space c = false.
Proof.
  intros Hd. apply is_digit_range in Hd. unfold is_space.
  apply orb_false_iff. split.
  - apply bool_decide_eq_false_2. rewrite !elem_of_cons, elem_of_nil. lia.
  - apply andb_false_iff. left. apply N.leb_gt. lia.
Qed.

Lemma parseInt_digits s :
  s <> [] -> Forall (fun c => is_digit c = true) s ->
  parseInt s = match parse_digits 10 None s with
               | Some n => Some (Number_of (Z.of_N n))
               | None => None
               end.
Proof.
  intros Hne Hall. destruct s as [|c s]; [congruence|].
  apply Forall_cons in Hall as [Hc Hs].
  unfold parseInt. simpl trimStart. rewrite (is_space_digit c Hc).
  pose proof (proj1 (is_digit_range c) Hc) as Hr.
  unfold strip_sign.
  assert (E1 : (c =? 45)%N = false) by (apply N.eqb_neq; lia).
  assert (E2 : (c =? 43)%N = false) by (apply N.eqb_neq; lia).
  rewrite E1, E2.
  assert (Hh : strip_hex (c :: s) = (10%N, c :: s)).
  { unfold strip_hex. destruct s as [|x r]; [reflexivity|].
    apply Forall_cons in Hs as [Hx _].
    pose proof (proj1 (is_digit_range x) Hx) as Hxr.
    assert (E3 : (x =? 120)%N = false) by (apply N.eqb_neq; lia).
    assert (E4 : (x =? 88)%N = false) by (apply N.eqb_neq; lia).
    rewrite E3, E4. simpl. now rewrite andb_false_r. }
  rewrite Hh. reflexivity.
Qed.

Lemma parse_digits_zeros k s :
  parse_digits 10 (Some 0%N) (replicate k 48%N ++ s) = parse_digits 10 (Some 0%N) s.
Proof. induction k as [|k IH]; [reflexivity|]. simpl. exact IH. Qed.

Lemma parse_digits_start c s :
  is_digit c = true ->
  parse_digits 10 None (c :: s) = parse_digits 10 (Some 0%N) (c :: s).
Proof.
  intros Hc. apply is_digit_range in Hc.
  assert (Hu : c = digit_unit (c - 48)%N) by (unfold digit_unit; lia).
  simpl. rewrite Hu, digit_val_digit by lia. reflexivity.
Qed.

Lemma pad3_digits n :
  0 < n -> pad3 n <> [] /\ Forall (fun c => is_digit c = true) (pad3 n)
           /\ parse_digits 10 None (pad3 n) = Some (Z.to_N n).
Proof.
  intros Hn. unfold pad3, padStart.
  destruct n as [|p|p]; try lia. simpl decimal.
  destruct (String_of_N_spec (N.pos p)) as (ds & Hds & Hne & Hall & Hp).
  rewrite Hds. split; [|split].
  - destruct ds; [congruence|]. now destruct (replicate _ _).
  - apply Forall_app. split; [|exact Hall].
    apply Forall_replicate. reflexivity.
  - assert (Hhead : exists c r, replicate (3 - length ds) 48%N ++ ds = c :: r
                               /\ is_digit c = true).
    { destruct (replicate (3 - length ds) 48%N) as [|z zs] eqn:Ez.
      - destruct ds as [|c r]; [congruence|]. exists c, r. split; [reflexivity|].
        now apply Forall_cons in Hall as [Hc _].
      - exists z, (zs ++ ds). split; [reflexivity|].
        assert (Hz : z ∈ replicate (3 - length ds) 48%N) by (rewrite Ez; left).
        apply elem_of_replicate in Hz as [-> _]. reflexivity. }
    destruct Hhead as (c & r & Hcr & Hc).
    rewrite Hcr, (parse_digits_start c r Hc), <- Hcr.
    rewrite parse_digits_zeros.
    rewrite <- (app_nil_r ds), Hp. simpl. f_equal; try lia.
Qed.

Lemma parseInt_pad3 n : 0 < n <= max_safe -> parseInt (pad3 n) = Some n.
Proof.
  intros [Hn Hsafe]. destruct (pad3_digits n Hn) as (Hne & Hall & Hp).
  rewrite (parseInt_digits _ Hne Hall), Hp. f_equal.
  rewrite Z2N.id by lia. apply Number_of_safe. lia.
Qed.

(** ** [cmdAdd] *)

Lemma startsWith_app p x : startsWith (p ++ x) p = true.
Proof. induction p as [|c p IH]; [reflexivity|]. simpl. now rewrite N.eqb_refl. Qed.

Lemma replace_unfold s pat rep :
  replace s pat rep =
    if startsWith s pat then rep ++ drop (length pat) s
    else match s with
         | [] => []
         | c :: s' => c :: replace s' pat rep
         end.
Proof. now destruct s. Qed.

Lemma replace_prefix p x rep : replace (p ++ x) p rep = rep ++ x.
Proof.
  rewrite replace_unfold, startsWith_app. now rewrite drop_app_length.
Qed.

Lemma suffixNumOf_newId prefix t n :
  0 < n <= max_safe -> id t = prefix ++ js "-" ++ pad3 n -> suffixNumOf prefix t = n.
Proof.
  intros Hn Hid. unfold suffixNumOf. rewrite Hid, app_assoc, replace_prefix.
  simpl. rewrite parseInt_pad3 by exact Hn. simpl.
  destruct (n =? 0) eqn:E; [apply Z.eqb_eq in E; lia | reflexivity].
Qed.

Lemma foldl_max_ge (l : list Z) a : a <= foldl (fun max n => Z.max max n) a l.
Proof.
  revert a. induction l as [|x l IH]; intros a; simpl; [lia|].
  specialize (IH (Z.max a x)). lia.
Qed.

Lemma foldl_max_upper (l : list Z) a x :
  x ∈ l -> x <= foldl (fun max n => Z.max max n) a l.
Proof.
  revert a. induction l as [|y l IH]; intros a Hx; [now apply elem_of_nil in Hx|].
  simpl. apply elem_of_cons in Hx as [->|Hx].
  - pose proof (foldl_max_ge l (Z.max a y)). lia.
  - now apply IH.
Qed.


Lemma maxNumOf_nonneg prefix ts : 0 <= maxNumOf prefix ts.
Proof. apply foldl_max_ge. Qed.

Lemma maxNumOf_upper prefix ts u :
  u ∈ ts -> startsWith (id u) prefix = true ->
  suffixNumOf prefix u <= maxNumOf prefix ts.
Proof.
  intros Hu Hs. apply foldl_max_upper.
  apply list_elem_of_In, in_map, filter_In. split; [now apply list_elem_of_In|exact Hs].
Qed.




Lemma cmdAdd_created {W} config args (s : State W) :
  join (js " ") args <> [] ->
  let title := join (js " ") args in
  let newId := newIdOf (configPrefix config) (tasks (data s)) in
  let task := newTask newId title (currentSprint (data s)) (todayOf s) in
  let d' := stamped s (set_tasks (tasks (data s) ++ [task]) (data s)) in
  cmdAdd config args s =
    (Ok tt, mkState d' (written s ++ [d'])
              (console s ++ [(Stdout, Ansi.green ++ Glyph.check ++ js " Created " ++ newId
                                ++ js ": " ++ title ++ Ansi.reset);
                             (Stdout, js "  Edit with: sprint edit " ++ newId)])
              (now s) (world s)).
Proof.
  intros Ht title newId task d'. unfold cmdAdd.
  assert (Htr : truthy_str (join (js " ") args) = true).
  { destruct (join (js " ") args); [congruence | reflexivity]. }
  rewrite Htr. simpl negb. cbv iota.
  run. rewrite <- app_assoc. reflexivity.
Qed.

(** While [maxNum + 1] is at most [2^53] the sum is exact and written
    in full. *)
Lemma newIdOf_safe prefix ts :
  maxNumOf prefix ts + 1 <= max_safe ->
  newIdOf prefix ts = prefix ++ js "-" ++ pad3 (maxNumOf prefix ts + 1).
Proof.
  intros Hsafe. pose proof (maxNumOf_nonneg prefix ts). unfold newIdOf, pad3.
  rewrite Number_of_safe by lia. now rewrite String_of_Z_safe by lia.
Qed.





(** ** The bridge: subprocess helpers *)

Section BridgeFacts.
Context {W : Type} `{Subprocess W}.

Lemma exec_run {A} (f : W -> A * W) (s : State W) :
  exec f s = (Ok (f (world s)).1, with_world s (f (world s)).2).
Proof. unfold exec, with_world. now destruct (f (world s)). Qed.

Lemma console_log_run (l : jsstring) (s : State W) :
  console_log l s = (Ok tt, logged s (Stdout, l)).
Proof. reflexivity. Qed.

Lemma modify_task_run i f (s : State W) :
  modify_task i f s = (Ok tt, with_task s i f).
Proof. reflexivity. Qed.

Lemma task_at_run i (s : State W) task :
  tasks (data s) !! i = Some task -> task_at i s = (Ok task, s).
Proof. intros Hl. unfold task_at. now rewrite Hl. Qed.

Lemma checkGhCli_run (s : State W) :
  checkGhCli s = (Ok (is_ok (execSync (js "gh --version") (world s)).1),
                  with_world s (execSync (js "gh --version") (world s)).2).
Proof. unfold checkGhCli. unfold bind. now rewrite exec_run. Qed.

Lemma getIssueStatus_run n r (s : State W) :
  exists o w', getIssueStatus n r s = (Ok o, with_world s w').
Proof.
  unfold getIssueStatus, bind. rewrite exec_run.
  destruct (execSync _ (world s)) as [[e|out] w']; simpl; eauto.
Qed.

Lemma closeIssue_run n r (s : State W) :
  exists b w', closeIssue n r s = (Ok b, with_world s w').
Proof. unfold closeIssue, bind. rewrite exec_run. eauto. Qed.

Lemma reopenIssue_run n r (s : State W) :
  exists b w', reopenIssue n r s = (Ok b, with_world s w').
Proof. unfold reopenIssue, bind. rewrite exec_run. eauto. Qed.

Lemma addToProject_run u n o (s : State W) :
  exists b w', addToProject u n o s = (Ok b, with_world s w').
Proof. unfold addToProject, bind. rewrite exec_run. eauto. Qed.

Lemma with_world_id (s : State W) : with_world s (world s) = s.
Proof. now destruct s. Qed.

Lemma forEach_exec {A B} (g : A -> W -> B * W) (l : list A) (s : State W) :
  exists w', forEach (fun x => _ <- exec (g x) ;; ret tt) l s = (Ok tt, with_world s w').
Proof.
  revert s. induction l as [|x l IH]; intros s.
  - exists (world s). simpl. unfold ret. now rewrite with_world_id.
  - simpl. unfold bind at 1. unfold bind at 1. rewrite exec_run. unfold ret at 1.
    destruct (IH (with_world s (g x (world s)).2)) as [w' Hw']. rewrite Hw'. eauto.
Qed.

(** [createIssue] returns an issue or throws with the message of the
    failed command; either way only the world has moved. *)
Lemma createIssue_run task r labels (s : State W) :
  exists w' res, createIssue task r labels s = (res, with_world s w')
    /\ forall m, res = Throw m -> exists msg, m = js "Failed to create issue: " ++ msg.
Proof.
  unfold createIssue.
  destruct (issueLabels task labels) as [|l0 ls] eqn:El.
  - unfold bind at 1. unfold ret at 1. unfold bind at 1. rewrite exec_run.
    destruct (execSync _ (world s)) as [[e|out] w']; cbn [fst snd].
    + eexists _, _. split; [reflexivity|]. intros m [= <-]. eauto.
    + eexists _, _. split; [reflexivity|]. intros m [=].
  - unfold bind at 1. unfold bind at 1.
    destruct (forEach_exec
                (fun label => execSync (js "gh label create " ++ quote ++ label ++ quote
                                          ++ js " --repo " ++ slug r ++ js " 2>/dev/null"))
                (l0 :: ls) s) as [w1 Hw1].
    rewrite Hw1. unfold ret at 1. unfold bind at 1. rewrite exec_run.
    destruct (execSync _ (world (with_world s w1))) as [[e|out] w']; cbn [fst snd].
    + eexists _, _. split; [reflexivity|]. intros m [= <-]. eauto.
    + eexists _, _. split; [reflexivity|]. intros m [=].
Qed.

End BridgeFacts.

(** ** The bridge: pull *)

Section PullFacts.
Context {W : Type} `{Subprocess W}.

Lemma pullTask_unlinked r i results (s : State W) task :
  tasks (data s) !! i = Some task -> ~ linked task ->
  pullTask r i results s = (Ok results, s).
Proof.
  intros Hl Hu. unfold pullTask. rewrite (bind_ok _ _ _ _ _ (task_at_run i s task Hl)).
  unfold linked in Hu. destruct (truthy_num (githubIssue task)); [congruence|].
  reflexivity.
Qed.

(** The four outcomes of a fetch for a linked task. *)
Lemma pullTask_linked r i results (s : State W) task o s1 :
  tasks (data s) !! i = Some task -> linked task ->
  getIssueStatus (default 0 (githubIssue task)) r s = (Ok o, s1) ->
  pullTask r i results s =
    match o with
    | None => (Ok results, s1)
    | Some st =>
        let isIssueClosed := str_eqb (issue_state st) (js "CLOSED") in
        let isTaskDone := str_eqb (status task) (js "done") in
        if isIssueClosed && negb isTaskDone then
          (Ok (pull_add_updated (mkUpdated (id task) (js "marked done")) results),
           logged (with_task (with_task s1 i (set_status (js "done"))) i
                     (set_completedAt (todayOf s1)))
             (Stdout, js "  " ++ Glyph.check ++ js " " ++ id task
                        ++ js " marked as done (issue closed)"))
        else if negb isIssueClosed && isTaskDone then
          (Ok results,
           logged s1 (Stdout, js "  ! " ++ id task ++ js " is done but issue #"
                                ++ String_of_Z (default 0 (githubIssue task))
                                ++ js " is open"))
        else (Ok results, s1)
    end.
Proof.
  intros Hl Hk Hg. unfold pullTask.
  rewrite (bind_ok _ _ _ _ _ (task_at_run i s task Hl)).
  unfold linked in Hk. rewrite Hk. cbn [negb]. cbv iota.
  unfold try_catch. rewrite (bind_ok _ _ _ _ _ Hg).
  destruct o as [st|]; [|reflexivity].
  cbv zeta.
  destruct (str_eqb (issue_state st) (js "CLOSED") && negb (str_eqb (status task) (js "done"))).
  - reflexivity.
  - destruct (negb (str_eqb (issue_state st) (js "CLOSED")) && str_eqb (status task) (js "done"));
      reflexivity.
Qed.

(** A step of the loop of pull returns normally, keeps the list of
    errors and the length of the task list, and writes nothing. *)
Lemma pullTask_total r i results (s : State W) :
  (i < length (tasks (data s)))%nat ->
  exists results' s', pullTask r i results s = (Ok results', s')
    /\ pull_errors results' = pull_errors results
    /\ length (tasks (data s')) = length (tasks (data s))
    /\ written s' = written s.
Proof.
  intros Hi. destruct (lookup_lt_is_Some_2 _ _ Hi) as [task Hl].
  destruct (decide (linked task)) as [Hk|Hu].
  - destruct (getIssueStatus_run (default 0 (githubIssue task)) r s) as (o & w' & Hg).
    rewrite (pullTask_linked r i results s task o _ Hl Hk Hg).
    destruct o as [st|]; [|eauto 10].
    cbv zeta.
    destruct (str_eqb (issue_state st) (js "CLOSED") && negb (str_eqb (status task) (js "done"))).
    + eexists _, _. split; [reflexivity|]. split; [reflexivity|]. split; [|reflexivity].
      simpl. now rewrite !length_alter.
    + destruct (negb (str_eqb (issue_state st) (js "CLOSED")) && str_eqb (status task) (js "done"));
        eauto 10.
  - rewrite (pullTask_unlinked r i results s task Hl Hu). eauto 10.
Qed.

Lemma valid_refs_step (refs : list nat) (s s' : State W) :
  length (tasks (data s')) = length (tasks (data s)) ->
  valid_refs refs s -> valid_refs refs s'.
Proof. intros Hlen. unfold valid_refs. now rewrite Hlen. Qed.

Lemma pullLoop_total r refs : forall results (s : State W),
  valid_refs refs s ->
  exists results' s', pullLoop r refs results s = (Ok results', s')
    /\ pull_errors results' = pull_errors results
    /\ length (tasks (data s')) = length (tasks (data s))
    /\ written s' = written s.
Proof.
  induction refs as [|i refs IH]; intros results s Hv.
  - simpl. unfold ret. eauto 10.
  - apply Forall_cons in Hv as [Hi Hv].
    destruct (pullTask_total r i results s Hi) as (r1 & s1 & Hstep & He1 & Hl1 & Hw1).
    simpl. rewrite (bind_ok _ _ _ _ _ Hstep).
    destruct (IH r1 s1 (valid_refs_step refs s s1 Hl1 Hv)) as (r2 & s2 & Hloop & He2 & Hl2 & Hw2).
    exists r2, s2. split; [exact Hloop|]. split; [congruence|]. split; congruence.
Qed.

Lemma pullLoop_app r pre post : forall results (s : State W),
  pullLoop r (pre ++ post) results s =
    bind (pullLoop r pre results) (pullLoop r post) s.
Proof.
  induction pre as [|i pre IH]; intros results s; [reflexivity|].
  simpl. unfold bind.
  destruct (pullTask r i results s) as [[r1|e] s1]; [|reflexivity].
  rewrite IH. reflexivity.
Qed.

Lemma valid_refs_seq (s : State W) : valid_refs (seq 0 (length (tasks (data s)))) s.
Proof. apply Forall_forall. intros i Hi. apply list_elem_of_In, in_seq in Hi. lia. Qed.

(** [pullFromGitHub] never returns an error entry. *)
Lemma pullFromGitHub_errors config (s : State W) results s' :
  pullFromGitHub config s = (Ok results, s') -> pull_errors results = [].
Proof.
  unfold pullFromGitHub. rewrite (bind_ok _ _ _ _ _ (checkGhCli_run s)).
  destruct (is_ok _); [|discriminate]. cbn [negb]. cbv iota.
  unfold bind at 1.
  destruct (getRepoInfo _) as [[[r|]|e] s1]; try discriminate.
  rewrite (bind_ok _ _ _ _ _ (console_log_run _ s1)).
  unfold bind at 1, get at 1.
  set (s2 := logged s1 _).
  destruct (pullLoop_total r (seq 0 (length (tasks (data s2)))) (mkPullResults [] []) s2
              (valid_refs_seq s2)) as (r2 & s3 & Hloop & He & _).
  rewrite Hloop. intros [= <- <-]. exact He.
Qed.

End PullFacts.

Section PullClaims.
Context {W : Type} `{Subprocess W}.

Lemma getIssueStatus_store n r (s s1 : State W) o :
  getIssueStatus n r s = (Ok o, s1) ->
  data s1 = data s /\ written s1 = written s /\ console s1 = console s /\ now s1 = now s.
Proof.
  intros Hg. destruct (getIssueStatus_run n r s) as (o' & w' & Hg').
  rewrite Hg' in Hg. injection Hg as _ <-. repeat split.
Qed.

(** C2. What the loop of pull does with a linked task whose issue state
    has been fetched. When the issue is closed and the task is not done,
    the task becomes [done], one entry [marked done] is recorded, and
    [completedAt] is set to today's date whatever it was before: a date
    already set is overwritten, where the claim, like [cmdMove], keeps
    it. When the issue is open and the task is done, the document and the
    results are unchanged and one warning line is printed. *)
Theorem pullTask_closed_or_reopened r i results (s s1 : State W) task st :
  tasks (data s) !! i = Some task -> linked task ->
  getIssueStatus (default 0 (githubIssue task)) r s = (Ok (Some st), s1) ->
  (issue_state st = js "CLOSED" -> status task <> js "done" ->
     exists s' t',
       pullTask r i results s =
         (Ok (pull_add_updated (mkUpdated (id task) (js "marked done")) results), s')
       /\ tasks (data s') !! i = Some t'
       /\ status t' = js "done"
       /\ completedAt t' = Some (todayOf s)) /\
  (issue_state st <> js "CLOSED" -> status task = js "done" ->
     exists msg,
       pullTask r i results s = (Ok results, logged s1 (Stdout, msg))
       /\ data s1 = data s).
Proof.
  intros Hl Hk Hg.
  pose proof (getIssueStatus_store _ _ _ _ _ Hg) as (Hd & _ & _ & Hn).
  rewrite (pullTask_linked r i results s task _ _ Hl Hk Hg). cbv zeta.
  unfold str_eqb. split.
  - intros Hc Hnd.
    rewrite (bool_decide_eq_true_2 _ Hc), (bool_decide_eq_false_2 _ Hnd). simpl.
    eexists _, _. split; [reflexivity|]. simpl.
    rewrite list_lookup_alter_eq, list_lookup_alter_eq, Hd, Hl. simpl.
    split; [reflexivity|]. split; [reflexivity|].
    unfold todayOf. now rewrite Hn.
  - intros Hc Hdone.
    rewrite (bool_decide_eq_false_2 _ Hc), (bool_decide_eq_true_2 _ Hdone). simpl.
    eauto.
Qed.

(** C7, amended. In the loop of pull a task that is not linked is passed
    over with no effect at all; a linked task whose issue state cannot be
    fetched is passed over too: only the world has moved, the document,
    the data file and the console are as before, and no entry is added,
    neither an update nor an error. In both cases the loop goes on with
    the tasks that follow. The list of errors that pull returns is always
    empty. *)
Theorem pull_skips_silently r :
  (forall pre i post results (s s1 : State W) res1 task,
     pullLoop r pre results s = (Ok res1, s1) ->
     tasks (data s1) !! i = Some task ->
     (~ linked task ->
        pullTask r i res1 s1 = (Ok res1, s1) /\
        pullLoop r (pre ++ i :: post) results s = pullLoop r post res1 s1) /\
     (linked task -> forall s2,
        getIssueStatus (default 0 (githubIssue task)) r s1 = (Ok None, s2) ->
        pullTask r i res1 s1 = (Ok res1, s2) /\
        data s2 = data s1 /\ written s2 = written s1 /\ console s2 = console s1 /\
        pullLoop r (pre ++ i :: post) results s = pullLoop r post res1 s2)) /\
  (forall refs results (s : State W), valid_refs refs s ->
     exists results' s', pullLoop r refs results s = (Ok results', s')
                         /\ pull_errors results' = pull_errors results) /\
  (forall config (s s' : State W) results,
     pullFromGitHub config s = (Ok results, s') -> pull_errors results = []).
Proof.
  split; [|split].
  - intros pre i post results s s1 res1 task Hpre Hl. split.
    + intros Hu. pose proof (pullTask_unlinked r i res1 s1 task Hl Hu) as Hstep.
      split; [exact Hstep|].
      rewrite pullLoop_app, (bind_ok _ _ _ _ _ Hpre). simpl.
      now rewrite (bind_ok _ _ _ _ _ Hstep).
    + intros Hk s2 Hg.
      pose proof (pullTask_linked r i res1 s1 task None s2 Hl Hk Hg) as Hstep.
      pose proof (getIssueStatus_store _ _ _ _ _ Hg) as (Hd & Hw & Hc & _).
      split; [exact Hstep|]. split; [exact Hd|]. split; [exact Hw|]. split; [exact Hc|].
      rewrite pullLoop_app, (bind_ok _ _ _ _ _ Hpre). simpl.
      now rewrite (bind_ok _ _ _ _ _ Hstep).
  - intros refs results s Hv.
    destruct (pullLoop_total r refs results s Hv) as (r' & s' & Hloop & He & _). eauto.
  - intros config s s' results. apply pullFromGitHub_errors.
Qed.

End PullClaims.

(** ** The bridge: push *)

Section PushFacts.
Context {W : Type} `{Subprocess W}.

Lemma extends_refl (r : PushResults) : extends r r.
Proof. exists [], [], []. now rewrite !app_nil_r. Qed.

Lemma extends_trans (r1 r2 r3 : PushResults) :
  extends r1 r2 -> extends r2 r3 -> extends r1 r3.
Proof.
  intros (c1 & u1 & e1 & Hc1 & Hu1 & He1) (c2 & u2 & e2 & Hc2 & Hu2 & He2).
  exists (c1 ++ c2), (u1 ++ u2), (e1 ++ e2).
  rewrite Hc2, Hu2, He2, Hc1, Hu1, He1, !app_assoc. auto.
Qed.

Lemma extends_add_created e (r : PushResults) : extends r (add_created e r).
Proof. exists [e], [], []. simpl. now rewrite !app_nil_r. Qed.

Lemma extends_add_updated e (r : PushResults) : extends r (add_updated e r).
Proof. exists [], [e], []. simpl. now rewrite !app_nil_r. Qed.

Lemma extends_add_error e (r : PushResults) : extends r (add_error e r).
Proof. exists [], [], [e]. simpl. now rewrite !app_nil_r. Qed.

(** The step of the loop of push on a task without issue whose issue
    cannot be created. *)
Lemma syncTask_create_fails r pn i results (s s2 : State W) task m :
  tasks (data s) !! i = Some task -> ~ linked task ->
  createIssue task r []
    (logged s (Stdout, js "  Creating issue for " ++ id task ++ js "...")) = (Throw m, s2) ->
  syncTask r pn i results s =
    (Ok (add_error (mkErrorEntry (id task) m) results),
     logged s2 (Stdout, js "  " ++ Glyph.cross ++ js " Error for " ++ id task
                          ++ js ": " ++ m)).
Proof.
  intros Hl Hu Hc. unfold syncTask.
  rewrite (bind_ok _ _ _ _ _ (task_at_run i s task Hl)).
  unfold linked in Hu. destruct (truthy_num (githubIssue task)); [congruence|].
  unfold try_catch.
  rewrite (bind_ok _ _ _ _ _ (console_log_run _ s)).
  rewrite (bind_throw _ _ _ _ _ Hc). reflexivity.
Qed.

(** The two optional steps that follow the creation of an issue. *)
Lemma project_step_run pn url o (s : State W) :
  exists s', (if truthy_num pn then
                added <- addToProject url (default 0 pn) o ;;
                if added
                then console_log (js "    Added to project #" ++ String_of_Z (default 0 pn))
                else ret tt
              else ret tt) s = (Ok tt, s')
             /\ data s' = data s /\ written s' = written s.
Proof.
  destruct (truthy_num pn); [|unfold ret; eauto].
  destruct (addToProject_run url (default 0 pn) o s) as (b & w' & Ha).
  rewrite (bind_ok _ _ _ _ _ Ha). destruct b; eexists; split; reflexivity || auto.
Qed.

Lemma close_step_run st n r (s : State W) :
  exists s', (if str_eqb st (js "done") then
                _ <- closeIssue n r ;;
                console_log (js "    Closed (task is done)")
              else ret tt) s = (Ok tt, s')
             /\ data s' = data s /\ written s' = written s.
Proof.
  destruct (str_eqb st (js "done")); [|unfold ret; eauto].
  destruct (closeIssue_run n r s) as (b & w' & Hc).
  rewrite (bind_ok _ _ _ _ _ Hc). eexists; split; reflexivity || auto.
Qed.

(** A step of the loop of push returns normally on every task: it only
    adds entries at the end of the results, keeps the length of the task
    list and writes nothing. *)
Lemma syncTask_total r pn i results (s : State W) :
  (i < length (tasks (data s)))%nat ->
  exists results' s', syncTask r pn i results s = (Ok results', s')
    /\ extends results results'
    /\ length (tasks (data s')) = length (tasks (data s))
    /\ written s' = written s.
Proof.
  intros Hi. destruct (lookup_lt_is_Some_2 _ _ Hi) as [task Hl].
  unfold syncTask. rewrite (bind_ok _ _ _ _ _ (task_at_run i s task Hl)).
  unfold try_catch.
  destruct (truthy_num (githubIssue task)) eqn:Ek.
  - destruct (getIssueStatus_run (default 0 (githubIssue task)) r s) as (o & w1 & Hg).
    rewrite (bind_ok _ _ _ _ _ Hg).
    destruct o as [st|]; [|unfold ret; eauto 10 using extends_refl].
    cbv zeta.
    destruct (str_eqb (status task) (js "done") && negb (str_eqb (issue_state st) (js "CLOSED"))).
    + destruct (closeIssue_run (Some (default 0 (githubIssue task))) r (with_world s w1))
        as (b & w2 & Hc).
      rewrite (bind_ok _ _ _ _ _ Hc).
      eexists _, _. split; [reflexivity|]. split; [apply extends_add_updated|]. auto.
    + destruct (negb (str_eqb (status task) (js "done")) && str_eqb (issue_state st) (js "CLOSED")).
      * destruct (reopenIssue_run (default 0 (githubIssue task)) r (with_world s w1))
          as (b & w2 & Hc).
        rewrite (bind_ok _ _ _ _ _ Hc).
        eexists _, _. split; [reflexivity|]. split; [apply extends_add_updated|]. auto.
      * eexists _, _. split; [reflexivity|]. split; [apply extends_refl|]. auto.
  - rewrite (bind_ok _ _ _ _ _ (console_log_run _ s)).
    set (s0 := logged s _).
    destruct (createIssue_run task r [] s0) as (w1 & res & Hc & Hmsg).
    destruct res as [issue|m].
    + rewrite (bind_ok _ _ _ _ _ Hc).
      rewrite (bind_ok _ _ _ _ _ (modify_task_run i _ _)).
      rewrite (bind_ok _ _ _ _ _ (modify_task_run i _ _)).
      rewrite (bind_ok _ _ _ _ _ (console_log_run _ _)).
      set (s3 := logged _ _).
      destruct (project_step_run pn (issue_url issue) (repo_owner r) s3) as (s4 & Hp & Hd4 & Hw4).
      rewrite (bind_ok _ _ _ _ _ Hp).
      destruct (close_step_run (status task) (issue_number issue) r s4) as (s5 & Hcl & Hd5 & Hw5).
      rewrite (bind_ok _ _ _ _ _ Hcl).
      eexists _, _. split; [reflexivity|]. split; [apply extends_add_created|].
      rewrite Hd5, Hd4, Hw5, Hw4. subst s3 s0. simpl.
      now rewrite !length_alter.
    + rewrite (bind_throw _ _ _ _ _ Hc).
      eexists _, _. split; [reflexivity|]. split; [apply extends_add_error|]. auto.
Qed.

(** What a step of the loop of push adds to the results: nothing or one
    update for a linked task, whatever the status fetch, the close and
    the reopen commands answer; one created issue for a task without
    issue whose issue is created, whatever the label, project and close
    commands answer; one error when the issue cannot be created, and
    only then. *)
Lemma syncTask_outcome r pn i results (s : State W) task :
  tasks (data s) !! i = Some task ->
  exists results' s', syncTask r pn i results s = (Ok results', s')
    /\ (linked task ->
          errors results' = errors results /\ created results' = created results
          /\ (updated results' = updated results
              \/ exists action,
                   updated results' = updated results ++ [mkUpdated (id task) action]))
    /\ (~ linked task -> forall issue s1,
          createIssue task r [] (logged s (creatingLine task)) = (Ok issue, s1) ->
          results' = add_created (mkCreated (id task) (issue_number issue)
                                    (issue_url issue)) results)
    /\ (~ linked task -> forall m s1,
          createIssue task r [] (logged s (creatingLine task)) = (Throw m, s1) ->
          results' = add_error (mkErrorEntry (id task) m) results)
    /\ (errors results' <> errors results -> creationFails r i s = true).
Proof.
  intros Hl. unfold creationFails. rewrite Hl.
  unfold syncTask. rewrite (bind_ok _ _ _ _ _ (task_at_run i s task Hl)).
  unfold try_catch, linked.
  destruct (truthy_num (githubIssue task)) eqn:Ek.
  - assert (Hlinked : forall results' s',
              errors results' = errors results -> created results' = created results ->
              (updated results' = updated results
               \/ exists action,
                    updated results' = updated results ++ [mkUpdated (id task) action]) ->
              exists results0 s0, (Ok results', s') = (Ok results0, s0 : State W)
                /\ (true = true ->
                      errors results0 = errors results /\ created results0 = created results
                      /\ (updated results0 = updated results
                          \/ exists action,
                               updated results0
                               = updated results ++ [mkUpdated (id task) action]))
                /\ (true <> true -> forall issue s1,
                      createIssue task r [] (logged s (creatingLine task)) = (Ok issue, s1) ->
                      results0 = add_created (mkCreated (id task) (issue_number issue)
                                                (issue_url issue)) results)
                /\ (true <> true -> forall m s1,
                      createIssue task r [] (logged s (creatingLine task)) = (Throw m, s1) ->
                      results0 = add_error (mkErrorEntry (id task) m) results)
                /\ (errors results0 <> errors results ->
                      negb true
                      && throws (createIssue task r [] (logged s (creatingLine task))).1
                      = true)).
    { intros results' s' He Hc Hu. exists results', s'. split; [reflexivity|].
      split; [auto|]. split; [congruence|]. split; [congruence|]. congruence. }
    destruct (getIssueStatus_run (default 0 (githubIssue task)) r s) as (o & w1 & Hg).
    rewrite (bind_ok _ _ _ _ _ Hg).
    destruct o as [st|]; [|unfold ret; apply Hlinked; auto].
    cbv zeta.
    destruct (str_eqb (status task) (js "done") && negb (str_eqb (issue_state st) (js "CLOSED"))).
    + destruct (closeIssue_run (Some (default 0 (githubIssue task))) r (with_world s w1))
        as (b & w2 & Hc).
      rewrite (bind_ok _ _ _ _ _ Hc). unfold bind, console_log, print, ret.
      apply Hlinked; [reflexivity | reflexivity | right; eexists; reflexivity].
    + destruct (negb (str_eqb (status task) (js "done")) && str_eqb (issue_state st) (js "CLOSED")).
      * destruct (reopenIssue_run (default 0 (githubIssue task)) r (with_world s w1))
          as (b & w2 & Hc).
        rewrite (bind_ok _ _ _ _ _ Hc). unfold bind, console_log, print, ret.
        apply Hlinked; [reflexivity | reflexivity | right; eexists; reflexivity].
      * unfold bind, console_log, print, ret. apply Hlinked; auto.
  - rewrite (bind_ok _ _ _ _ _ (console_log_run _ s)).
    unfold creatingLine.
    set (s0 := logged s _).
    destruct (createIssue_run task r [] s0) as (w1 & res & Hc & Hmsg).
    destruct res as [issue|m].
    + rewrite (bind_ok _ _ _ _ _ Hc).
      rewrite (bind_ok _ _ _ _ _ (modify_task_run i _ _)).
      rewrite (bind_ok _ _ _ _ _ (modify_task_run i _ _)).
      rewrite (bind_ok _ _ _ _ _ (console_log_run _ _)).
      set (s3 := logged _ _).
      destruct (project_step_run pn (issue_url issue) (repo_owner r) s3) as (s4 & Hp & _).
      rewrite (bind_ok _ _ _ _ _ Hp).
      destruct (close_step_run (status task) (issue_number issue) r s4) as (s5 & Hcl & _).
      rewrite (bind_ok _ _ _ _ _ Hcl). unfold ret.
      eexists _, _. split; [reflexivity|]. split; [discriminate|].
      split; [intros _ issue' s1' Hc'; rewrite Hc in Hc'; now injection Hc' as <- _|].
      split; [intros _ m s1' Hc'; rewrite Hc in Hc'; discriminate|].
      intros Hne. exfalso. now apply Hne.
    + rewrite (bind_throw _ _ _ _ _ Hc). unfold bind, console_log, print, ret.
      eexists _, _. split; [reflexivity|]. split; [discriminate|].
      split; [intros _ issue' s1' Hc'; rewrite Hc in Hc'; discriminate|].
      split; [intros _ m' s1' Hc'; rewrite Hc in Hc'; now injection Hc' as <- _|].
      intros _. rewrite Hc. reflexivity.
Qed.

Lemma syncTask_adds r pn i results (s : State W) :
  (i < length (tasks (data s)))%nat ->
  exists results' s' cs us es,
    syncTask r pn i results s = (Ok results', s')
    /\ created results' = created results ++ cs
    /\ updated results' = updated results ++ us
    /\ errors results' = errors results ++ es
    /\ (length cs + length us + length es <= 1)%nat
    /\ (creationFails r i s = false -> es = [])
    /\ length (tasks (data s')) = length (tasks (data s)).
Proof.
  intros Hi. destruct (lookup_lt_is_Some_2 _ _ Hi) as [task Hl].
  destruct (syncTask_total r pn i results s Hi) as (res0 & s0 & Hrun0 & _ & Hlen & _).
  destruct (syncTask_outcome r pn i results s task Hl)
    as (results' & s' & Hrun & Hlinked & Hcreated & Hfailed & Hconv).
  rewrite Hrun in Hrun0. injection Hrun0 as <- <-.
  exists results', s'.
  destruct (decide (linked task)) as [Hk|Hk].
  - destruct (Hlinked Hk) as (He & Hc & [Hu | [a Hu]]).
    + exists [], [], []. rewrite !app_nil_r. repeat split; try assumption. simpl. lia.
    + exists [], [mkUpdated (id task) a], []. rewrite !app_nil_r.
      repeat split; try assumption. simpl. lia.
  - destruct (createIssue task r [] (logged s (creatingLine task))) as [[issue|m] s1] eqn:Ec.
    + pose proof (Hcreated Hk issue s1 eq_refl) as Hr. subst results'.
      exists [mkCreated (id task) (issue_number issue) (issue_url issue)], [], [].
      rewrite !app_nil_r. repeat split; try assumption; try reflexivity; simpl; lia.
    + pose proof (Hfailed Hk m s1 eq_refl) as Hr. subst results'.
      exists [], [], [mkErrorEntry (id task) m]. rewrite !app_nil_r.
      repeat split; try assumption; try reflexivity; try (simpl; lia).
      unfold creationFails. rewrite Hl, Ec. unfold linked in Hk.
      destruct (truthy_num (githubIssue task)); [congruence | discriminate].
Qed.

Lemma syncLoop_adds r pn refs : forall results (s : State W),
  valid_refs refs s ->
  exists results' s' cs us es,
    syncLoop r pn refs results s = (Ok results', s')
    /\ created results' = created results ++ cs
    /\ updated results' = updated results ++ us
    /\ errors results' = errors results ++ es
    /\ (length cs + length us + length es <= length refs)%nat
    /\ (noCreationFails r pn refs results s = true -> es = []).
Proof.
  induction refs as [|i refs IH]; intros results s Hv.
  - exists results, s, [], [], []. rewrite !app_nil_r. simpl. unfold ret. repeat split. lia.
  - apply Forall_cons in Hv as [Hi Hv].
    destruct (syncTask_adds r pn i results s Hi)
      as (r1 & s1 & c1 & u1 & e1 & Hstep & Hc1 & Hu1 & He1 & Hn1 & Hq1 & Hlen).
    destruct (IH r1 s1 (valid_refs_step refs s s1 Hlen Hv))
      as (r2 & s2 & c2 & u2 & e2 & Hloop & Hc2 & Hu2 & He2 & Hn2 & Hq2).
    exists r2, s2, (c1 ++ c2), (u1 ++ u2), (e1 ++ e2).
    cbn [syncLoop]. rewrite (bind_ok _ _ _ _ _ Hstep).
    split; [exact Hloop|].
    rewrite Hc2, Hu2, He2, Hc1, Hu1, He1, !app_assoc.
    split; [reflexivity|]. split; [reflexivity|]. split; [reflexivity|].
    split; [rewrite !length_app; simpl; lia|].
    intros Hq. cbn [noCreationFails] in Hq. rewrite Hstep in Hq.
    apply andb_true_iff in Hq as [Hq Hrest].
    apply negb_true_iff in Hq. now rewrite (Hq1 Hq), (Hq2 Hrest).
Qed.

(** [createIssue] ends as its last command does, whatever the commands
    that create the labels have answered. *)
Lemma createIssue_last task r labels (s : State W) :
  exists cmd w1,
    (forall msg, (execSync cmd w1).1 = inl msg ->
       (createIssue task r labels s).1 = Throw (js "Failed to create issue: " ++ msg)) /\
    (forall out, (execSync cmd w1).1 = inr out ->
       exists issue, (createIssue task r labels s).1 = Ok issue
                     /\ issue_url issue = trim out).
Proof.
  assert (Hrun : exists cmd w1,
            (createIssue task r labels s).1
            = match (execSync cmd w1).1 with
              | inl message => Throw (js "Failed to create issue: " ++ message)
              | inr result => Ok (mkIssue (trim result) (issueNumberOf (trim result)))
              end).
  { unfold createIssue.
    destruct (issueLabels task labels) as [|l0 ls] eqn:El.
    - unfold bind at 1. unfold ret at 1. unfold bind at 1. rewrite exec_run.
      match goal with |- context [execSync ?c (world s)] => exists c, (world s) end.
      now destruct (execSync _ (world s)) as [[e|out] w'].
    - unfold bind at 1. unfold bind at 1.
      destruct (forEach_exec
                  (fun label => execSync (js "gh label create " ++ quote ++ label ++ quote
                                            ++ js " --repo " ++ slug r ++ js " 2>/dev/null"))
                  (l0 :: ls) s) as [w1 Hw1].
      rewrite Hw1. unfold ret at 1. unfold bind at 1. rewrite exec_run.
      cbn [world with_world].
      match goal with |- context [execSync ?c w1] => exists c, w1 end.
      now destruct (execSync _ w1) as [[e|out] w']. }
  destruct Hrun as (cmd & w1 & Hrun). exists cmd, w1. rewrite Hrun. split.
  - now intros msg ->.
  - intros out ->. eexists. split; reflexivity.
Qed.

Lemma syncLoop_total r pn refs : forall results (s : State W),
  valid_refs refs s ->
  exists results' s', syncLoop r pn refs results s = (Ok results', s')
    /\ extends results results'
    /\ length (tasks (data s')) = length (tasks (data s))
    /\ written s' = written s.
Proof.
  induction refs as [|i refs IH]; intros results s Hv.
  - simpl. unfold ret. eauto 10 using extends_refl.
  - apply Forall_cons in Hv as [Hi Hv].
    destruct (syncTask_total r pn i results s Hi) as (r1 & s1 & Hstep & He1 & Hl1 & Hw1).
    simpl. rewrite (bind_ok _ _ _ _ _ Hstep).
    destruct (IH r1 s1 (valid_refs_step refs s s1 Hl1 Hv)) as (r2 & s2 & Hloop & He2 & Hl2 & Hw2).
    exists r2, s2. split; [exact Hloop|].
    split; [eapply extends_trans; eassumption|]. split; congruence.
Qed.

Lemma syncLoop_app r pn pre post : forall results (s : State W),
  syncLoop r pn (pre ++ post) results s =
    bind (syncLoop r pn pre results) (syncLoop r pn post) s.
Proof.
  induction pre as [|i pre IH]; intros results s; [reflexivity|].
  simpl. unfold bind.
  destruct (syncTask r pn i results s) as [[r1|e] s1]; [|reflexivity].
  rewrite IH. reflexivity.
Qed.

End PushFacts.

Section PushClaims.
Context {W : Type} `{Subprocess W}.

(** The references that [syncToGitHub] iterates over denote tasks of the
    document, in list order. *)
Lemma positions_valid_refs keep (s : State W) :
  valid_refs (positions keep (tasks (data s))) s.
Proof.
  apply Forall_forall. intros i Hi. unfold positions in Hi.
  apply list_elem_of_In, in_map_iff in Hi as ([j t] & <- & Hin).
  apply filter_In in Hin as [Hin _].
  apply list_elem_of_In, elem_of_lookup_imap in Hin as (k & u & [= -> ->] & Hl).
  simpl. now apply lookup_lt_Some in Hl.
Qed.

(** C3, amended. In the loop of push, the one failure that a task can
    raise is the failure to create its issue. It is caught: exactly one
    entry, with the id of the task and the message of the failure, is
    added at the end of the list of errors, the document is left as it
    was, and the loop goes on with the tasks that follow, in list order;
    the loop returns normally and every entry recorded before is kept
    in place. Every step adds at most one entry. A step on a linked task
    adds no error and no created issue, whatever the status fetch, the
    close and the reopen commands answer; a step on a task whose issue
    is created adds that issue and no error, whatever the label, project
    and close commands answer, since [createIssue] ends as its last
    command does; an error is added only when the creation fails. So
    when the creation fails for no other task of the run, the errors of
    the run are that one entry, after the errors recorded before, and
    the created and updated entries are those of the other tasks, at
    most one for each, in list order. *)
Theorem syncLoop_fault_isolation r pn pre i post results (s s1 s2 : State W)
    res1 task m :
  syncLoop r pn pre results s = (Ok res1, s1) ->
  tasks (data s1) !! i = Some task -> ~ linked task ->
  createIssue task r [] (logged s1 (creatingLine task)) = (Throw m, s2) ->
  valid_refs pre s -> valid_refs post s1 ->
  let e := mkErrorEntry (id task) m in
  let s2' := logged s2 (errorLine task m) in
  (exists msg, m = js "Failed to create issue: " ++ msg) /\
  syncTask r pn i res1 s1 = (Ok (add_error e res1), s2') /\
  errors (add_error e res1) = errors res1 ++ [e] /\
  created (add_error e res1) = created res1 /\
  updated (add_error e res1) = updated res1 /\
  data s2' = data s1 /\ written s2' = written s1 /\
  syncLoop r pn (pre ++ i :: post) results s = syncLoop r pn post (add_error e res1) s2' /\
  (exists res3 s3 c1 u1 e1 c3 u3 e3,
     syncLoop r pn post (add_error e res1) s2' = (Ok res3, s3) /\
     created res1 = created results ++ c1 /\
     updated res1 = updated results ++ u1 /\
     errors res1 = errors results ++ e1 /\
     created res3 = created results ++ c1 ++ c3 /\
     updated res3 = updated results ++ u1 ++ u3 /\
     errors res3 = errors results ++ e1 ++ e :: e3 /\
     (length c1 + length u1 + length e1 <= length pre)%nat /\
     (length c3 + length u3 + length e3 <= length post)%nat /\
     (noCreationFails r pn pre results s = true -> e1 = []) /\
     (noCreationFails r pn post (add_error e res1) s2' = true -> e3 = [])) /\
  (forall j results0 (s0 : State W) task0, tasks (data s0) !! j = Some task0 ->
     exists results' s',
       syncTask r pn j results0 s0 = (Ok results', s') /\
       (linked task0 ->
          errors results' = errors results0 /\ created results' = created results0 /\
          (updated results' = updated results0
           \/ exists action,
                updated results' = updated results0 ++ [mkUpdated (id task0) action])) /\
       (~ linked task0 -> forall issue s1',
          createIssue task0 r [] (logged s0 (creatingLine task0)) = (Ok issue, s1') ->
          results' = add_created (mkCreated (id task0) (issue_number issue)
                                    (issue_url issue)) results0) /\
       (errors results' <> errors results0 ->
          ~ linked task0 /\
          exists m0 s2', createIssue task0 r [] (logged s0 (creatingLine task0))
                         = (Throw m0, s2')
                         /\ results' = add_error (mkErrorEntry (id task0) m0) results0)) /\
  (forall task0 labels (s0 : State W), exists cmd w1,
     (forall msg, (execSync cmd w1).1 = inl msg ->
        (createIssue task0 r labels s0).1 = Throw (js "Failed to create issue: " ++ msg)) /\
     (forall out, (execSync cmd w1).1 = inr out ->
        exists issue, (createIssue task0 r labels s0).1 = Ok issue
                      /\ issue_url issue = trim out)).
Proof.
  intros Hpre Hl Hu Hc Hvpre Hv e s2'.
  pose proof (syncTask_create_fails r pn i res1 s1 s2 task m Hl Hu Hc) as Hstep.
  destruct (createIssue_run task r [] (logged s1 (creatingLine task)))
    as (w' & res & Hrun & Hmsg).
  pose proof Hc as Hc0.
  unfold creatingLine in Hc. unfold creatingLine in Hrun. rewrite Hc in Hrun.
  injection Hrun as <- ->.
  split; [now apply Hmsg|]. split; [exact Hstep|].
  split; [reflexivity|]. split; [reflexivity|]. split; [reflexivity|].
  split; [reflexivity|]. split; [reflexivity|]. split; [|split; [|split]].
  - rewrite syncLoop_app, (bind_ok _ _ _ _ _ Hpre). simpl.
    now rewrite (bind_ok _ _ _ _ _ Hstep).
  - destruct (syncLoop_adds r pn pre results s Hvpre)
      as (res1' & s1' & c1 & u1 & e1 & Hloop1 & Hc1 & Hu1 & He1 & Hn1 & Hq1).
    rewrite Hpre in Hloop1. injection Hloop1 as <- <-.
    destruct (syncLoop_adds r pn post (add_error e res1) s2')
      as (res3 & s3 & c3 & u3 & e3 & Hloop & Hc3 & Hu3 & He3 & Hn3 & Hq3).
    { exact Hv. }
    exists res3, s3, c1, u1, e1, c3, u3, e3. split; [exact Hloop|].
    split; [exact Hc1|]. split; [exact Hu1|]. split; [exact He1|].
    split; [rewrite Hc3; simpl; rewrite Hc1; now rewrite <- app_assoc|].
    split; [rewrite Hu3; simpl; rewrite Hu1; now rewrite <- app_assoc|].
    split; [rewrite He3; simpl; rewrite He1; now rewrite <- !app_assoc|].
    auto.
  - intros j results0 s0 task0 Hl0.
    destruct (syncTask_outcome r pn j results0 s0 task0 Hl0)
      as (results' & s' & Hrun0 & Hlinked & Hcreated & Hfailed & Hconv).
    exists results', s'. split; [exact Hrun0|]. split; [exact Hlinked|].
    split; [exact Hcreated|].
    intros Hne. specialize (Hconv Hne). unfold creationFails in Hconv.
    rewrite Hl0 in Hconv. apply andb_true_iff in Hconv as [Hk Ht].
    apply negb_true_iff in Hk.
    assert (Hnl : ~ linked task0) by (unfold linked; congruence).
    split; [exact Hnl|].
    destruct (createIssue task0 r [] (logged s0 (creatingLine task0)))
      as [[issue|m0] s2''] eqn:Ec; [discriminate|].
    exists m0, s2''. split; [reflexivity|]. now apply (Hfailed Hnl m0 s2'').
  - intros task0 labels s0. apply createIssue_last.
Qed.

End PushClaims.

(** ** The dispatcher: the check of the client *)

Section DispatchClaims.
Context {W : Type} `{Subprocess W}.

Lemma main_push_absent config args (s : State W) :
  clientAbsent s ->
  main_push config args s = (Ok 1, logged (afterCheck s) (Stderr, ghNotFound)).
Proof.
  intros Ha. unfold main_push. rewrite (bind_ok _ _ _ _ _ (checkGhCli_run s)).
  unfold clientAbsent in Ha. rewrite Ha. reflexivity.
Qed.

Lemma main_pull_absent config args (s : State W) :
  clientAbsent s ->
  main_pull config args s = (Ok 1, logged (afterCheck s) (Stderr, ghNotFound)).
Proof.
  intros Ha. unfold main_pull. rewrite (bind_ok _ _ _ _ _ (checkGhCli_run s)).
  unfold clientAbsent in Ha. rewrite Ha. reflexivity.
Qed.

Lemma getRepoInfo_run (s : State W) :
  exists o, getRepoInfo s =
              (Ok o, with_world s (execSync (js "git remote get-url origin") (world s)).2).
Proof.
  unfold getRepoInfo. unfold bind. rewrite exec_run.
  destruct (execSync _ (world s)) as [[e|out] w']; cbn [fst snd]; [eauto|].
  destruct (match_remote (trim out)) as [[o n]|]; eauto.
Qed.

(** [case 'link'] on well-formed arguments and a task that exists: the
    only subprocess is [git remote get-url origin]. *)
Lemma main_link_run config args (s : State W) (taskId a : jsstring) n i task :
  args !! 1%nat = Some taskId -> taskId <> [] ->
  args !! 2%nat = Some a -> parseInt a = Some n -> n <> 0 ->
  findTask taskId (tasks (data s)) = Some (i, task) ->
  exists s' t',
    main_link config args s = (Ok 0, s')
    /\ world s' = (execSync (js "git remote get-url origin") (world s)).2
    /\ tasks (data s') !! i = Some t' /\ githubIssue t' = Some n
    /\ written s' = written s ++ [data s'].
Proof.
  intros H1 Hne H2 Hp Hn Hf. unfold main_link. rewrite H1, H2, Hp.
  assert (Ht : truthy_ostr (Some taskId) = true) by (destruct taskId; [congruence|reflexivity]).
  assert (Hz : truthy_num (Some n) = true).
  { simpl. apply negb_true_iff, Z.eqb_neq. exact Hn. }
  rewrite Ht, Hz. cbn [negb orb]. cbv iota zeta.
  change (default [] (Some taskId)) with taskId.
  unfold bind at 1, get at 1. rewrite Hf.
  assert (Hl : tasks (data s) !! i = Some task) by (apply list_find_Some in Hf; tauto).
  destruct (getRepoInfo_run s) as (o & Hr).
  rewrite (bind_ok _ _ _ _ _ Hr).
  destruct o as [r|].
  - run. eexists _, _. split; [reflexivity|]. simpl.
    split; [reflexivity|].
    rewrite list_lookup_alter_eq, list_lookup_alter_eq, Hl. simpl.
    split; [reflexivity|]. split; reflexivity.
  - run. eexists _, _. split; [reflexivity|]. simpl.
    split; [reflexivity|].
    rewrite list_lookup_alter_eq, Hl. simpl.
    split; [reflexivity|]. split; reflexivity.
Qed.

(** C8, amended. [push] and [pull] check the client first: when
    [gh --version] fails they print the message on the error stream and
    exit with status 1; nothing but that check has been run, the
    document is unchanged and the data file is not written. [link] makes
    no such check and never runs the client: on a task that exists and a
    number that is not 0 it runs only [git remote get-url origin], links
    the task, writes the data file and ends with status 0, whether or
    not the client is there. *)
Theorem sync_client_check (config : option Config) (args : list jsstring) (s : State W) :
  (clientAbsent s ->
     main_push config args s = (Ok 1, logged (afterCheck s) (Stderr, ghNotFound)) /\
     main_pull config args s = (Ok 1, logged (afterCheck s) (Stderr, ghNotFound)) /\
     data (logged (afterCheck s) (Stderr, ghNotFound)) = data s /\
     written (logged (afterCheck s) (Stderr, ghNotFound)) = written s) /\
  (forall (taskId a : jsstring) n i task,
     args !! 1%nat = Some taskId -> taskId <> [] ->
     args !! 2%nat = Some a -> parseInt a = Some n -> n <> 0 ->
     findTask taskId (tasks (data s)) = Some (i, task) ->
     exists s' t',
       main_link config args s = (Ok 0, s')
       /\ world s' = (execSync (js "git remote get-url origin") (world s)).2
       /\ tasks (data s') !! i = Some t' /\ githubIssue t' = Some n
       /\ written s' = written s ++ [data s']).
Proof.
  split.
  - intros Ha. split; [now apply main_push_absent|].
    split; [now apply main_pull_absent|]. split; reflexivity.
  - intros taskId a n i task. apply main_link_run.
Qed.

End DispatchClaims.

(* ================================================================== *)
(** * Further properties *)
(* ================================================================== *)

Lemma str_eqb_spec (a b : jsstring) : reflect (a = b) (str_eqb a b).
Proof. apply bool_decide_reflect. Qed.

(** ** [cmdEdit] *)

Lemma cmdEdit_not_found {W} config (tid : jsstring) field value (s : State W) :
  findTask tid (tasks (data s)) = None ->
  cmdEdit config (Some tid) field value s =
    (Ok tt, logged s (Stderr, Ansi.red ++ js "Task not found: " ++ tid ++ Ansi.reset)).
Proof.
  intros Hf. unfold cmdEdit. unfold bind at 1, get at 1.
  unfold bind at 1, lift_res at 1. simpl findTaskArg. rewrite Hf. reflexivity.
Qed.

Lemma cmdEdit_invalid_field {W} config (tid : jsstring) field value (s : State W) i task :
  findTask tid (tasks (data s)) = Some (i, task) ->
  (forall f, field = Some f -> f ∉ allowedFields) ->
  cmdEdit config (Some tid) field value s =
    (Ok tt, logged s (Stderr, Ansi.red ++ js "Invalid field. Use: "
                                ++ join (js ", ") allowedFields ++ Ansi.reset)).
Proof.
  intros Hf Hn. unfold cmdEdit. unfold bind at 1, get at 1.
  unfold bind at 1, lift_res at 1. simpl findTaskArg. rewrite Hf.
  destruct field as [f|]; [|reflexivity].
  rewrite bool_decide_eq_false_2 by (now apply Hn). reflexivity.
Qed.

Lemma cmdEdit_applied {W} config (tid f : jsstring) value (s : State W) i task :
  findTask tid (tasks (data s)) = Some (i, task) ->
  f ∈ allowedFields ->
  let d' := stamped s (set_tasks (alter (assignField f value) i (tasks (data s))) (data s)) in
  cmdEdit config (Some tid) (Some f) value s =
    (Ok tt, mkState d' (written s ++ [d'])
              (console s ++ [(Stdout, Ansi.green ++ Glyph.check ++ js " " ++ id task
                                ++ js "." ++ f ++ js ": " ++ fieldOrEmpty f task ++ js " "
                                ++ Glyph.arrow ++ js " " ++ valueText f value
                                ++ Ansi.reset)])
              (now s) (world s)).
Proof.
  intros Hf Hin d'. unfold cmdEdit. unfold bind at 1, get at 1.
  unfold bind at 1, lift_res at 1. simpl findTaskArg. rewrite Hf.
  rewrite bool_decide_eq_true_2 by exact Hin. reflexivity.
Qed.

(** X1. [cmdEdit] with a task id that matches no task, or with a field
    that is missing or outside the allow-list, prints one line on the
    error stream, leaves the document as it was and does not write the
    data file. *)
Theorem cmdEdit_rejects {W} (config : option Config) (tid : jsstring)
    (field : option jsstring) (value : jsstring) (s : State W) :
  findTask tid (tasks (data s)) = None
  \/ (forall f, field = Some f -> f ∉ allowedFields) ->
  let s' := (cmdEdit config (Some tid) field value s).2 in
  (cmdEdit config (Some tid) field value s).1 = Ok tt /\
  data s' = data s /\ written s' = written s /\
  exists msg, console s' = console s ++ [(Stderr, msg)].
Proof.
  intros Hrej s'. subst s'.
  destruct (findTask tid (tasks (data s))) as [[i task]|] eqn:Hf.
  - destruct Hrej as [Hn|Hn]; [discriminate|].
    rewrite (cmdEdit_invalid_field config tid field value s i task Hf Hn). simpl. eauto.
  - rewrite (cmdEdit_not_found config tid field value s Hf). simpl. eauto.
Qed.

Lemma assignField_identity f value t : keepsIdentity t (assignField f value t).
Proof.
  unfold assignField.
  repeat (match goal with |- context [str_eqb ?a ?b] => destruct (str_eqb a b) end;
          [repeat split|]).
  repeat split.
Qed.

Lemma assignField_holds f value t :
  f ∈ allowedFields -> holdsField f value (assignField f value t).
Proof.
  intros Hin. unfold allowedFields in Hin.
  rewrite !elem_of_cons, elem_of_nil in Hin.
  unfold holdsField.
  repeat (destruct Hin as [->|Hin];
          [repeat split; intros Heq; try (vm_compute in Heq; discriminate); reflexivity|]).
  contradiction.
Qed.

Lemma assignField_keeps f value t :
  f ∈ allowedFields -> keepsField f t (assignField f value t).
Proof.
  intros Hin. unfold allowedFields in Hin.
  rewrite !elem_of_cons, elem_of_nil in Hin.
  unfold keepsField.
  repeat (destruct Hin as [->|Hin];
          [repeat split; intros Hne; try reflexivity; exfalso; now apply Hne|]).
  contradiction.
Qed.

Lemma parseInt_decimal n : 0 < n <= max_safe -> parseInt (decimal n) = Some n.
Proof.
  intros [Hn Hsafe]. destruct n as [|p|p]; try lia. cbn [decimal].
  destruct (String_of_N_spec (N.pos p)) as (ds & Hds & Hne & Hall & Hp).
  rewrite Hds, (parseInt_digits _ Hne Hall).
  destruct ds as [|c ds]; [congruence|].
  rewrite parse_digits_start by (now apply Forall_cons in Hall as [? _]).
  rewrite <- (app_nil_r (c :: ds)), Hp. cbn [parse_digits]. f_equal.
  rewrite N.mul_0_l, N.add_0_l. apply Number_of_safe. simpl. lia.
Qed.

(** X2. [cmdEdit] on a task that is found and an allowed field assigns
    the value to that field of the first matching task ([points] gets
    [parseInt(value) || 0]: the number that the value writes, while it
    is at most [2^53], and 0 when the value starts with no number),
    keeps the seven other editable fields, the id, the status, the dates
    and the links of the task, keeps every other task and the other
    fields of the document, stamps [lastUpdated] with the clock reading,
    writes the resulting document to the data file and prints one line
    that shows the former and the new value. *)
Theorem cmdEdit_applies {W} (config : option Config) (tid f value : jsstring)
    (s : State W) (i : nat) (t : Task) :
  firstMatch tid (tasks (data s)) i t -> f ∈ allowedFields ->
  let d := data s in
  let s' := (cmdEdit config (Some tid) (Some f) value s).2 in
  let d' := data s' in
  (cmdEdit config (Some tid) (Some f) value s).1 = Ok tt /\
  (exists t', tasks d' !! i = Some t' /\ holdsField f value t'
              /\ keepsField f t t' /\ keepsIdentity t t'
              /\ (f = js "points" ->
                    (forall n, 0 < n <= max_safe -> value = decimal n ->
                       points t' = Some n)
                    /\ (parseInt value = None -> points t' = Some 0))) /\
  (forall j, j <> i -> tasks d' !! j = tasks d !! j) /\
  length (tasks d') = length (tasks d) /\
  (project d' = project d /\ version d' = version d /\
   currentSprint d' = currentSprint d /\ sprintStart d' = sprintStart d /\
   sprintEnd d' = sprintEnd d /\ capacity d' = capacity d /\
   technicalDebt d' = technicalDebt d /\ lastUpdated d' = now s) /\
  written s' = written s ++ [d'] /\
  (exists old new,
     console s' = console s
                  ++ [(Stdout, Ansi.green ++ Glyph.check ++ js " " ++ id t ++ js "." ++ f
                                 ++ js ": " ++ old ++ js " " ++ Glyph.arrow ++ js " "
                                 ++ new ++ Ansi.reset)] /\
     (f <> js "points" -> new = value) /\
     (f = js "points" -> new = String_of_Z (or_num (parseInt value) 0)) /\
     (f = js "title" -> old = if truthy_str (title t) then title t else js "(empty)") /\
     (f = js "owner" -> old = match owner t with
                              | Some o => if truthy_str o then o else js "(empty)"
                              | None => js "(empty)"
                              end)).
Proof.
  intros Hfm Hin d s' d'. subst d d' s'.
  pose proof Hfm as (Hl & _ & _). apply findTask_firstMatch in Hfm.
  rewrite (cmdEdit_applied config tid f value s i t Hfm Hin). simpl.
  split; [reflexivity|]. split; [|split; [|split; [|split; [|split]]]].
  - exists (assignField f value t). rewrite list_lookup_alter_eq, Hl. simpl.
    split; [reflexivity|]. split; [now apply assignField_holds|].
    split; [now apply assignField_keeps|]. split; [apply assignField_identity|].
    intros ->. unfold assignField. cbn. unfold coercePoints. split.
    + intros n Hn ->. rewrite (parseInt_decimal n Hn). simpl.
      destruct (n =? 0) eqn:E; [apply Z.eqb_eq in E; lia | reflexivity].
    + now intros ->.
  - intros j Hj. apply list_lookup_alter_ne. congruence.
  - apply length_alter.
  - repeat split.
  - reflexivity.
  - eexists _, _. split; [reflexivity|]. split; [|split; [|split]].
    + intros Hne. unfold valueText.
      destruct (str_eqb_spec f (js "points")); [contradiction | reflexivity].
    + now intros ->.
    + now intros ->.
    + now intros ->.
Qed.

(** ** Ids under edits, moves and additions *)

Lemma map_id_alter (g : Task -> Task) i (ts : list Task) :
  (forall t, id (g t) = id t) -> List.map id (alter g i ts) = List.map id ts.
Proof.
  intros Hg. revert i. induction ts as [|t ts IH]; intros i; [reflexivity|].
  destruct i as [|i]; simpl.
  - now rewrite Hg.
  - f_equal. apply IH.
Qed.

Lemma assignField_id f value t : id (assignField f value t) = id t.
Proof. apply (assignField_identity f value t). Qed.

Lemma moved_id newStatus today t : id (moved newStatus today t) = id t.
Proof. unfold moved. now destruct (_ && _). Qed.

Lemma findTaskArg_none (ts : list Task) :
  findTaskArg None ts = match ts with
                        | [] => Ok None
                        | _ :: _ => Throw (TypeError_undefined (js "toLowerCase"))
                        end.
Proof. reflexivity. Qed.

Lemma cmdEdit_no_id {W} config field value (s : State W) :
  cmdEdit config None field value s =
    match tasks (data s) with
    | [] => (Ok tt, logged s (Stderr, Ansi.red ++ js "Task not found: undefined"
                                        ++ Ansi.reset))
    | _ :: _ => (Throw (TypeError_undefined (js "toLowerCase")), s)
    end.
Proof.
  unfold cmdEdit. unfold bind at 1, get at 1. unfold bind at 1, lift_res at 1.
  rewrite findTaskArg_none. now destruct (tasks (data s)).
Qed.

Lemma cmdShow_no_id {W} (s : State W) :
  cmdShow None s =
    match tasks (data s) with
    | [] => (Ok tt, logged s (Stderr, Ansi.red ++ js "Task not found: undefined"
                                        ++ Ansi.reset))
    | _ :: _ => (Throw (TypeError_undefined (js "toLowerCase")), s)
    end.
Proof.
  unfold cmdShow. unfold bind at 1, get at 1. unfold bind at 1, lift_res at 1.
  rewrite findTaskArg_none. now destruct (tasks (data s)).
Qed.

Lemma cmdEdit_ids {W} config taskId field value (s : State W) :
  List.map id (tasks (data (cmdEdit config taskId field value s).2))
  = List.map id (tasks (data s)).
Proof.
  destruct taskId as [tid|].
  - destruct (findTask tid (tasks (data s))) as [[i task]|] eqn:Hf.
    + destruct field as [f|].
      * destruct (decide (f ∈ allowedFields)) as [Hin|Hn].
        -- rewrite (cmdEdit_applied config tid f value s i task Hf Hin). simpl.
           apply map_id_alter. intros t. apply assignField_id.
        -- rewrite (cmdEdit_invalid_field config tid (Some f) value s i task Hf);
             [reflexivity|]. now intros f' [= <-].
      * rewrite (cmdEdit_invalid_field config tid None value s i task Hf);
          [reflexivity | discriminate].
    + now rewrite (cmdEdit_not_found config tid field value s Hf).
  - rewrite cmdEdit_no_id. destruct (tasks (data s)) eqn:E; simpl; now rewrite E.
Qed.

Lemma cmdMove_ids {W} config tid st (s : State W) :
  List.map id (tasks (data (cmdMove config tid st s).2)) = List.map id (tasks (data s)).
Proof.
  destruct (decide (st ∈ configColumns config)) as [Hin|Hn].
  - destruct (findTask tid (tasks (data s))) as [[k u]|] eqn:Hf.
    + rewrite (cmdMove_found _ _ _ _ _ _ Hin Hf). simpl.
      apply map_id_alter. intros t. apply moved_id.
    + now rewrite (cmdMove_not_found _ _ _ _ Hin Hf).
  - now rewrite (cmdMove_invalid _ _ _ _ Hn).
Qed.

Lemma maxNumOf_ids prefix (ts ts' : list Task) :
  List.map id ts' = List.map id ts -> maxNumOf prefix ts' = maxNumOf prefix ts.
Proof.
  intros Hids. unfold maxNumOf. f_equal.
  revert ts' Hids. induction ts as [|t ts IH]; intros [|t' ts'] Hids; try discriminate.
  - reflexivity.
  - simpl in Hids. injection Hids as Hid Hrest. simpl. rewrite Hid.
    destruct (startsWith (id t) prefix); simpl.
    + unfold suffixNumOf at 1 3. rewrite Hid. f_equal. now apply IH.
    + now apply IH.
Qed.

(** X3. No sequence of [edit] and [move] runs changes the id of a task
    or the order of the tasks, so the id that [cmdAdd] gives to the next
    task is the same after such runs as before them. *)
Theorem ids_survive_revisions {W} (config : option Config) (rs : list Revision)
    (s : State W) :
  List.map id (tasks (data (afterRuns config rs s))) = List.map id (tasks (data s)) /\
  forall prefix,
    newIdOf prefix (tasks (data (afterRuns config rs s)))
    = newIdOf prefix (tasks (data s)).
Proof.
  assert (Hids : List.map id (tasks (data (afterRuns config rs s)))
                 = List.map id (tasks (data s))).
  { revert s. induction rs as [|r rs IH]; intros s; [reflexivity|].
    unfold afterRuns. simpl. fold (afterRuns config rs (revise config r s).2).
    rewrite IH. destruct r as [a b c|a b]; simpl.
    - apply cmdEdit_ids.
    - apply cmdMove_ids. }
  split; [exact Hids|]. intros prefix. unfold newIdOf.
  now rewrite (maxNumOf_ids prefix _ _ Hids).
Qed.

Lemma upper_unit_idem c : upper_unit (upper_unit c) = upper_unit c.
Proof.
  unfold upper_unit.
  destruct ((97 <=? c)%N && (c <=? 122)%N) eqn:E.
  - apply andb_true_iff in E as [E1 E2]. apply N.leb_le in E1. apply N.leb_le in E2.
    assert (E3 : ((97 <=? c - 32)%N && (c - 32 <=? 122)%N) = false).
    { apply andb_false_iff. left. apply N.leb_gt. lia. }
    now rewrite E3.
  - now rewrite E.
Qed.

Lemma is_ascii_app a b : is_ascii (a ++ b) = is_ascii a && is_ascii b.
Proof. apply forallb_app. Qed.

Lemma is_ascii_digits s : Forall (fun c => is_digit c = true) s -> is_ascii s = true.
Proof.
  induction 1 as [|c s Hc _ IH]; [reflexivity|].
  simpl. rewrite IH, andb_true_r. apply is_digit_range in Hc. apply N.ltb_lt. lia.
Qed.

Lemma ascii_upper_digits s :
  Forall (fun c => is_digit c = true) s -> ascii_upper s = s.
Proof.
  induction 1 as [|c s Hc _ IH]; [reflexivity|].
  unfold ascii_upper in *. simpl. rewrite IH. f_equal.
  apply is_digit_range in Hc. unfold upper_unit.
  assert (E : ((97 <=? c)%N && (c <=? 122)%N) = false).
  { apply andb_false_iff. left. apply N.leb_gt. lia. }
  now rewrite E.
Qed.

Lemma upperText_app a b : upperText a -> upperText b -> upperText (a ++ b).
Proof.
  intros [Ha1 Ha2] [Hb1 Hb2]. split.
  - now rewrite is_ascii_app, Ha1, Hb1.
  - unfold ascii_upper in *. now rewrite List.map_app, Ha2, Hb2.
Qed.

Lemma upperText_numbered prefix n :
  upperText prefix -> 0 < n -> upperText (prefix ++ js "-" ++ pad3 n).
Proof.
  intros Hp Hn. destruct (pad3_digits n Hn) as (_ & Hall & _).
  apply upperText_app; [exact Hp|]. apply upperText_app; [now split|].
  split; [now apply is_ascii_digits | now apply ascii_upper_digits].
Qed.

Lemma lower_unit_inj_upper c d :
  upper_unit c = c -> upper_unit d = d -> lower_unit c = lower_unit d -> c = d.
Proof.
  unfold upper_unit, lower_unit.
  destruct ((97 <=? c)%N && (c <=? 122)%N) eqn:Ec;
    [apply andb_true_iff in Ec as [E1 E2]; apply N.leb_le in E1; lia|].
  destruct ((97 <=? d)%N && (d <=? 122)%N) eqn:Ed;
    [apply andb_true_iff in Ed as [E1 E2]; apply N.leb_le in E1; lia|].
  intros _ _.
  apply andb_false_iff in Ec. apply andb_false_iff in Ed.
  rewrite !N.leb_gt in Ec, Ed.
  destruct ((65 <=? c)%N && (c <=? 90)%N) eqn:Fc;
    destruct ((65 <=? d)%N && (d <=? 90)%N) eqn:Fd;
    try (apply andb_true_iff in Fc as [F1 F2]; apply N.leb_le in F1; apply N.leb_le in F2);
    try (apply andb_true_iff in Fd as [G1 G2]; apply N.leb_le in G1; apply N.leb_le in G2);
    lia.
Qed.

Lemma ascii_lower_inj_upper a b :
  ascii_upper a = a -> ascii_upper b = b -> ascii_lower a = ascii_lower b -> a = b.
Proof.
  unfold ascii_upper, ascii_lower.
  revert b. induction a as [|c a IH]; intros [|d b] Ha Hb Hl; try discriminate.
  - reflexivity.
  - simpl in Ha, Hb, Hl. injection Ha as Hc Ha. injection Hb as Hd Hb.
    injection Hl as Hcd Hl. f_equal.
    + now apply lower_unit_inj_upper.
    + now apply IH.
Qed.

Lemma newIdOf_fresh prefix ts u :
  maxNumOf prefix ts + 1 <= max_safe -> u ∈ ts -> id u <> newIdOf prefix ts.
Proof.
  intros Hsafe Hu Heq.
  pose proof (maxNumOf_nonneg prefix ts) as Hm.
  assert (Hs : startsWith (id u) prefix = true).
  { rewrite Heq. unfold newIdOf. apply startsWith_app. }
  pose proof (maxNumOf_upper prefix ts u Hu Hs) as Hup.
  rewrite (newIdOf_safe prefix ts Hsafe) in Heq.
  rewrite (suffixNumOf_newId prefix u (maxNumOf prefix ts + 1)) in Hup by (lia || exact Heq).
  lia.
Qed.

(** X4. When the prefix and every id of the document are ASCII text
    without lower-case letters, as [cmdAdd] writes them, and the next
    number is at most [2^53], a task that has just been added is the one
    that a lookup by its id finds, however the id is typed in upper or
    lower case; and the ids of the document are still ASCII text without
    lower-case letters. *)
Theorem cmdAdd_then_find {W} (config : option Config) (args : list jsstring)
    (q : jsstring) (s : State W) :
  let prefix := configPrefix config in
  let m := maxNumOf prefix (tasks (data s)) in
  let newId := prefix ++ js "-" ++ padStart (decimal (m + 1)) 3 48 in
  join (js " ") args <> [] ->
  upperText prefix ->
  Forall upperId (tasks (data s)) ->
  m + 1 <= max_safe ->
  is_ascii q = true ->
  ascii_lower q = ascii_lower newId ->
  let s' := (cmdAdd config args s).2 in
  (exists t, findTask q (tasks (data s')) = Some (length (tasks (data s)), t)
             /\ id t = newId /\ title t = join (js " ") args) /\
  Forall upperId (tasks (data s')).
Proof.
  intros prefix m newId Ht Hp Hup Hsafe Hqa Hq s'. subst s'.
  rewrite (cmdAdd_created config args s Ht). simpl.
  fold prefix. pose proof (newIdOf_safe prefix (tasks (data s)) Hsafe) as Hnew.
  fold m in Hnew. change (prefix ++ js "-" ++ pad3 (m + 1)) with newId in Hnew.
  rewrite Hnew.
  pose proof (maxNumOf_nonneg prefix (tasks (data s))) as Hm. fold m in Hm.
  assert (Hnu : upperText newId) by (apply upperText_numbered; [exact Hp | lia]).
  set (t := newTask newId _ _ _).
  split.
  - exists t. split; [|split; reflexivity].
    apply findTask_firstMatch. split; [|split].
    + rewrite lookup_app_r by lia. now rewrite Nat.sub_diag.
    + unfold sameId. simpl.
      rewrite (toLowerCase_ascii newId (proj1 Hnu)), (toLowerCase_ascii q Hqa).
      now rewrite Hq.
    + intros j u Hj Hlt Hsame.
      rewrite lookup_app_l in Hj by exact Hlt.
      assert (Hin : u ∈ tasks (data s)) by (apply list_elem_of_lookup; eauto).
      rewrite Forall_forall in Hup. destruct (Hup u Hin) as [Hua Huu].
      apply (newIdOf_fresh prefix _ u Hsafe Hin). fold m. rewrite Hnew.
      apply ascii_lower_inj_upper; [exact Huu | exact (proj2 Hnu) |].
      unfold sameId in Hsame.
      rewrite (toLowerCase_ascii (id u) Hua), (toLowerCase_ascii q Hqa) in Hsame.
      now rewrite Hsame, Hq.
  - apply Forall_app. split; [exact Hup|].
    constructor; [|constructor]. exact Hnu.
Qed.

(** ** A missing task id *)

(** X5. [show] and [edit] run without a task id ([undefined]): on a
    document that has at least one task the lookup throws a [TypeError]
    before anything is printed or changed; on a document without tasks
    the command reports [Task not found: undefined] on the error stream.
    Neither writes the data file. *)
Theorem missing_id_argument {W} (config : option Config) (field : option jsstring)
    (value : jsstring) (s : State W) :
  (tasks (data s) <> [] ->
     cmdShow None s = (Throw (TypeError_undefined (js "toLowerCase")), s) /\
     cmdEdit config None field value s
       = (Throw (TypeError_undefined (js "toLowerCase")), s)) /\
  (tasks (data s) = [] ->
     cmdShow None s
       = (Ok tt, logged s (Stderr, Ansi.red ++ js "Task not found: undefined"
                                     ++ Ansi.reset)) /\
     cmdEdit config None field value s
       = (Ok tt, logged s (Stderr, Ansi.red ++ js "Task not found: undefined"
                                     ++ Ansi.reset))).
Proof.
  rewrite cmdShow_no_id, cmdEdit_no_id.
  split; intros Hts.
  - destruct (tasks (data s)); [congruence|]. split; reflexivity.
  - rewrite Hts. split; reflexivity.
Qed.

(** ** [cmdBoard]: grouping and rows *)

Lemma columnTasks_elem d col t :
  t ∈ columnTasks d col <-> t ∈ tasks d /\ sprint t = currentSprint d /\ status t = col.
Proof.
  unfold columnTasks, activeTasks. rewrite !list_elem_of_filter. tauto.
Qed.

(** X6. The columns of the board. While no column is named [__proto__]
    and the status of every active task (those of the current sprint) is
    a configured column or names no member of [Object.prototype], a
    configured column holds exactly the active tasks whose status is the
    name of the column, in the order of the task list; a name that is
    not configured has no column, so an active task whose status is not
    a configured column is in no cell of the board. When the first
    active task whose status is neither is reached, the grouping throws
    a [TypeError], and the board stops after the four lines of its
    heading. *)
Theorem board_grouping {W} (config : option Config) (s : State W) :
  let cols := configColumns config in
  let d := data s in
  let active := filter (fun t => sprint t = currentSprint d) (tasks d) in
  ((js "__proto__" ∉ cols) ->
   (forall t, t ∈ active -> status t ∈ cols \/ inherited (status t) = None) ->
   exists grouped,
     groupTasks cols (sprintTasksOf d) = Ok grouped /\
     (cmdBoard config s).1 = Ok tt /\
     (forall col, col ∈ cols ->
        grouped !! col = Some (filter (fun t => status t = col) active)) /\
     (forall col, col ∉ cols -> grouped !! col = None) /\
     (forall col i t, col ∈ cols -> (grouped !!! col) !! i = Some t ->
        t ∈ tasks d /\ sprint t = currentSprint d /\ status t = col) /\
     (forall t col i, status t ∉ cols -> col ∈ cols -> (grouped !!! col) !! i <> Some t)) /\
  ((js "__proto__" ∉ cols) ->
   forall pre t post, active = pre ++ t :: post ->
     (forall u, u ∈ pre -> status u ∈ cols \/ inherited (status u) = None) ->
     status t ∉ cols -> inherited (status t) <> None ->
     cmdBoard config s
     = (Throw (js "grouped[task.status].push is not a function"),
        mkState d (written s)
          (console s
           ++ [ (Stdout, nl ++ replicate 80 9552%N);
                (Stdout, Ansi.bright ++ js "  SPRINT " ++ currentSprint d ++ js " - "
                           ++ project d ++ Ansi.reset);
                (Stdout, js "  " ++ sprintStart d ++ js " " ++ Glyph.arrow ++ js " "
                           ++ sprintEnd d);
                (Stdout, replicate 80 9552%N) ])
          (now s) (world s))).
Proof.
  intros cols d active. change active with (activeTasks d). split.
  - intros Hproto Hall.
    assert (Hg : groupable cols d) by (split; assumption).
    destruct (groupTasks_ok cols d Hg) as (g & Hrun & Hin & Hout).
    assert (Hcell : forall col i t, col ∈ cols -> (g !!! col) !! i = Some t ->
              t ∈ tasks d /\ sprint t = currentSprint d /\ status t = col).
    { intros col i t Hc Hl. unfold lookup_total, map_lookup_total in Hl.
      rewrite (Hin col Hc) in Hl. simpl in Hl.
      apply list_elem_of_lookup_2 in Hl. now apply columnTasks_elem. }
    exists g. split; [exact Hrun|]. split; [now rewrite (cmdBoard_run config s Hg)|].
    split; [exact Hin|]. split; [exact Hout|]. split; [exact Hcell|].
    intros t col i Hn Hc Hl. destruct (Hcell col i t Hc Hl) as (_ & _ & Hst).
    apply Hn. now rewrite Hst.
  - intros Hproto pre t post Hsplit Hall Hn Hi.
    apply (cmdBoard_throws config s pre t post Hproto Hsplit Hall Hn Hi).
Qed.

Lemma max_list_ge (l : list nat) x : x ∈ l -> (x <= max_list l)%nat.
Proof.
  induction l as [|y l IH]; intros Hx; [now apply elem_of_nil in Hx|].
  simpl. apply elem_of_cons in Hx as [->|Hx]; [lia|]. specialize (IH Hx). lia.
Qed.

Lemma max_list_attained (l : list nat) : max_list l = 0%nat \/ max_list l ∈ l.
Proof.
  induction l as [|y l IH]; [now left|]. simpl.
  destruct (Nat.max_spec y (max_list l)) as [[Hlt ->]|[Hle ->]].
  - destruct IH as [E|E]; [lia | right; now right].
  - right. left.
Qed.

(** X7. The rows of the board, while the tasks can be grouped. After
    the heading, the header line and a rule, [cmdBoard] prints as many
    rows as the largest column has tasks, and one row when every column
    is empty; row [i] is made of the cells of the columns at [i], a
    vertical bar between two of them, and is followed after the last row
    by a rule. Every active task whose status is a configured column has
    its cell, the padded icon and id between the colour of the column
    and the reset code, in one of these rows. *)
Theorem board_rows {W} (config : option Config) (s : State W) :
  let cols := configColumns config in
  let d := data s in
  let w := (78 / length cols)%nat in
  let size (col : jsstring) := length (columnTasks d col) in
  groupable cols d ->
  (exists header rows tail,
     console (cmdBoard config s).2
     = console s ++ boardHead d ++ [header; (Stdout, replicate 80 9472%N)] ++ rows
         ++ (Stdout, nl ++ replicate 80 9472%N) :: tail /\
     (forall i, (i < length rows)%nat ->
        rows !! i = Some (Stdout, join Glyph.vbar (List.map (cellAt d w i) cols))) /\
     (1 <= length rows)%nat /\
     (forall col, col ∈ cols -> (size col <= length rows)%nat) /\
     (length rows = 1%nat \/ exists col, col ∈ cols /\ size col = length rows)) /\
  (forall t, t ∈ tasks d -> sprint t = currentSprint d -> status t ∈ cols ->
     exists i, (i < size (status t))%nat /\
       columnTasks d (status t) !! i = Some t /\
       cellAt d w i (status t)
       = statusColor (status t)
           ++ padRight (priorityIcon (priority t) ++ js " " ++ id t) w ++ Ansi.reset).
Proof.
  intros cols d w size Hg. split.
  - rewrite (cmdBoard_run config s Hg). cbn [snd console]. unfold boardLines.
    fold cols d w.
    eexists _, (List.map (fun i => (Stdout, rowAt cols d w i)) (seq 0 (rowsOf cols d))), _.
    split; [reflexivity|].
    rewrite length_map, length_seq.
    split; [|split; [|split]].
    + intros i Hi. rewrite list_lookup_fmap, lookup_seq_lt by exact Hi. reflexivity.
    + unfold rowsOf. lia.
    + intros col Hc. unfold rowsOf.
      assert (Hle : (size col <= max_list (List.map size cols))%nat).
      { apply max_list_ge. apply list_elem_of_In, in_map. now apply list_elem_of_In. }
      fold size. lia.
    + unfold rowsOf. fold size.
      destruct (max_list_attained (List.map size cols)) as [E|E].
      * left. rewrite E. reflexivity.
      * apply list_elem_of_In, in_map_iff in E as (col & Hcol & Hin).
        destruct (Nat.max_spec 1 (max_list (List.map size cols))) as [[_ ->]|[_ ->]];
          [right | now left].
        exists col. split; [now apply list_elem_of_In | exact Hcol].
  - intros t Ht Hsp Hst.
    assert (Hin : t ∈ columnTasks d (status t)) by (apply columnTasks_elem; auto).
    apply list_elem_of_lookup in Hin as [i Hi].
    exists i. split; [exact (lookup_lt_Some _ _ _ Hi)|]. split; [exact Hi|].
    unfold cellAt. now rewrite Hi.
Qed.

(** ** The views change nothing *)

Lemma printsOnly_ret {W A} (a : A) : printsOnly (ret a : M W A).
Proof. intros s. exists (Ok a), []. unfold ret. rewrite app_nil_r. now destruct s. Qed.

Lemma printsOnly_lift {W A} (r : Res A) : printsOnly (lift_res r : M W A).
Proof. intros s. exists r, []. unfold lift_res. rewrite app_nil_r. now destruct s. Qed.

Lemma printsOnly_get {W} : printsOnly (get : M W (State W)).
Proof. intros s. exists (Ok s), []. unfold get. rewrite app_nil_r. now destruct s. Qed.

Lemma printsOnly_print {W} (l : Line) : printsOnly (print l : M W unit).
Proof. intros s. exists (Ok tt), [l]. reflexivity. Qed.

Lemma printsOnly_bind {W A B} (m : M W A) (k : A -> M W B) :
  printsOnly m -> (forall a, printsOnly (k a)) -> printsOnly (bind m k).
Proof.
  intros Hm Hk s. destruct (Hm s) as (r & l1 & E1). unfold bind. rewrite E1.
  destruct r as [a|e].
  - destruct (Hk a (mkState (data s) (written s) (console s ++ l1) (now s) (world s)))
      as (r2 & l2 & E2).
    rewrite E2. simpl. exists r2, (l1 ++ l2). now rewrite app_assoc.
  - exists (Throw e), l1. reflexivity.
Qed.

Lemma printsOnly_forEach {W A} (f : A -> M W unit) (l : list A) :
  (forall x, printsOnly (f x)) -> printsOnly (forEach f l).
Proof.
  intros Hf. induction l as [|x l IH]; simpl.
  - apply printsOnly_ret.
  - apply printsOnly_bind; [apply Hf | intros _; exact IH].
Qed.

Lemma printsOnly_forEachIndexed {W A} (f : A -> nat -> M W unit) (l : list A) i :
  (forall x j, printsOnly (f x j)) -> printsOnly (forEachIndexed f i l).
Proof.
  intros Hf. revert i. induction l as [|x l IH]; intros i; simpl.
  - apply printsOnly_ret.
  - apply printsOnly_bind; [apply Hf | intros _; apply IH].
Qed.

Lemma printsOnly_board_with_proto {W} config d :
  printsOnly (fun s' : State W =>
                let '(lines, r) := board_with_proto config d in
                (r, mkState (data s') (written s') (console s' ++ lines) (now s')
                      (world s'))).
Proof. intros s. destruct (board_with_proto config d) as [lines r]. eauto. Qed.

Lemma cmdBoard_printsOnly {W} config : printsOnly (cmdBoard config : M W unit).
Proof.
  unfold cmdBoard. apply printsOnly_bind; [apply printsOnly_get | intros s0].
  cbv zeta. repeat (
  match goal with
    | |- printsOnly (bind _ _) => apply printsOnly_bind; [|intros ?]
    | |- printsOnly (console_log _) => apply printsOnly_print
    | |- printsOnly (ret _) => apply printsOnly_ret
    | |- printsOnly (lift_res _) => apply printsOnly_lift
    | |- printsOnly (forEach _ _) => apply printsOnly_forEach; intros ?
    | |- printsOnly (if bool_decide _ then _ else _) =>
        destruct (bool_decide _); [apply printsOnly_board_with_proto|]
    | |- printsOnly (if ?b then _ else _) => destruct b
    end).
Qed.

Lemma cmdStatus_printsOnly {W} : printsOnly (cmdStatus : M W unit).
Proof. unfold cmdStatus. repeat (
  match goal with
    | |- printsOnly (bind _ _) => apply printsOnly_bind; [|intros ?]
    | |- printsOnly (console_log _) => apply printsOnly_print
    | |- printsOnly (console_error _) => apply printsOnly_print
    | |- printsOnly (ret _) => apply printsOnly_ret
    | |- printsOnly (throw _) => apply (printsOnly_lift (Throw _))
    | |- printsOnly (lift_res _) => apply printsOnly_lift
    | |- printsOnly get => apply printsOnly_get
    | |- printsOnly (forEach _ _) => apply printsOnly_forEach; intros ?
    | |- printsOnly (forEachIndexed _ _ _) => apply printsOnly_forEachIndexed; intros ? ?
    | |- printsOnly (if ?b then _ else _) => destruct b
    | |- printsOnly (match ?x with _ => _ end) => destruct x
    end). Qed.

Lemma cmdList_printsOnly {W} filterStatus : printsOnly (cmdList filterStatus : M W unit).
Proof. unfold cmdList. repeat (
  match goal with
    | |- printsOnly (bind _ _) => apply printsOnly_bind; [|intros ?]
    | |- printsOnly (console_log _) => apply printsOnly_print
    | |- printsOnly (console_error _) => apply printsOnly_print
    | |- printsOnly (ret _) => apply printsOnly_ret
    | |- printsOnly (throw _) => apply (printsOnly_lift (Throw _))
    | |- printsOnly (lift_res _) => apply printsOnly_lift
    | |- printsOnly get => apply printsOnly_get
    | |- printsOnly (forEach _ _) => apply printsOnly_forEach; intros ?
    | |- printsOnly (forEachIndexed _ _ _) => apply printsOnly_forEachIndexed; intros ? ?
    | |- printsOnly (if ?b then _ else _) => destruct b
    | |- printsOnly (match ?x with _ => _ end) => destruct x
    end). Qed.

Lemma cmdShow_printsOnly {W} taskId : printsOnly (cmdShow taskId : M W unit).
Proof. unfold cmdShow. repeat (
  match goal with
    | |- printsOnly (bind _ _) => apply printsOnly_bind; [|intros ?]
    | |- printsOnly (console_log _) => apply printsOnly_print
    | |- printsOnly (console_error _) => apply printsOnly_print
    | |- printsOnly (ret _) => apply printsOnly_ret
    | |- printsOnly (throw _) => apply (printsOnly_lift (Throw _))
    | |- printsOnly (lift_res _) => apply printsOnly_lift
    | |- printsOnly get => apply printsOnly_get
    | |- printsOnly (forEach _ _) => apply printsOnly_forEach; intros ?
    | |- printsOnly (forEachIndexed _ _ _) => apply printsOnly_forEachIndexed; intros ? ?
    | |- printsOnly (if ?b then _ else _) => destruct b
    | |- printsOnly (match ?x with _ => _ end) => destruct x
    end). Qed.

Lemma cmdDebt_printsOnly {W} : printsOnly (cmdDebt : M W unit).
Proof. unfold cmdDebt. repeat (
  match goal with
    | |- printsOnly (bind _ _) => apply printsOnly_bind; [|intros ?]
    | |- printsOnly (console_log _) => apply printsOnly_print
    | |- printsOnly (console_error _) => apply printsOnly_print
    | |- printsOnly (ret _) => apply printsOnly_ret
    | |- printsOnly (throw _) => apply (printsOnly_lift (Throw _))
    | |- printsOnly (lift_res _) => apply printsOnly_lift
    | |- printsOnly get => apply printsOnly_get
    | |- printsOnly (forEach _ _) => apply printsOnly_forEach; intros ?
    | |- printsOnly (forEachIndexed _ _ _) => apply printsOnly_forEachIndexed; intros ? ?
    | |- printsOnly (if ?b then _ else _) => destruct b
    | |- printsOnly (match ?x with _ => _ end) => destruct x
    end). Qed.

(** X8. The five views, [board], [status], [list], [show] and [debt],
    only print: whether they return or throw, they leave the document,
    the data file, the clock and the outside world as they found them,
    and the console with its earlier lines in place. *)
Theorem views_only_print {W} (config : option Config)
    (filterStatus taskId : option jsstring) :
  printsOnly (cmdBoard config : M W unit) /\
  printsOnly (cmdStatus : M W unit) /\
  printsOnly (cmdList filterStatus : M W unit) /\
  printsOnly (cmdShow taskId : M W unit) /\
  printsOnly (cmdDebt : M W unit).
Proof.
  split; [apply cmdBoard_printsOnly|]. split; [apply cmdStatus_printsOnly|].
  split; [apply cmdList_printsOnly|]. split; [apply cmdShow_printsOnly|].
  apply cmdDebt_printsOnly.
Qed.

(** ** [cmdStatus] *)

Lemma or_num_self n : or_num (Some n) 0 = n.
Proof. simpl. destruct (n =? 0) eqn:E; [apply Z.eqb_eq in E; now subst | reflexivity]. Qed.

Lemma inherited_proto : inherited (js "__proto__") = Some (js "[object Object]").
Proof. unfold inherited. now destruct (str_eqb_spec (js "__proto__") (js "__proto__")). Qed.

Lemma countFor_bump_same key (c : list (jsstring * Count)) :
  countFor key (bump key c)
  = match countFor key c with
    | Some x => Some (plusOne x)
    | None => match inherited key with
              | Some member => if str_eqb key (js "__proto__") then None
                               else Some (Text (member ++ js "1"))
              | None => Some (Counted 1)
              end
    end.
Proof.
  unfold countFor. induction c as [|[k0 n] c IH]; simpl.
  - destruct (inherited key) as [member|]; simpl.
    + destruct (str_eqb key (js "__proto__")); [reflexivity|]. simpl.
      now destruct (str_eqb_spec key key).
    + now destruct (str_eqb_spec key key).
  - destruct (str_eqb_spec k0 key) as [->|Hne]; simpl.
    + now destruct (str_eqb_spec key key).
    + destruct (str_eqb_spec k0 key); [contradiction | exact IH].
Qed.

Lemma countFor_bump_other key (c : list (jsstring * Count)) k :
  k <> key -> countFor k (bump key c) = countFor k c.
Proof.
  intros Hk. unfold countFor. induction c as [|[k0 n] c IH]; simpl.
  - destruct (inherited key) as [member|]; simpl.
    + destruct (str_eqb key (js "__proto__")); [reflexivity|]. simpl.
      destruct (str_eqb_spec key k); [congruence | reflexivity].
    + destruct (str_eqb_spec key k); [congruence | reflexivity].
  - destruct (str_eqb_spec k0 key) as [->|Hne]; simpl.
    + destruct (str_eqb_spec key k); [congruence | reflexivity].
    + destruct (str_eqb_spec k0 k); [reflexivity | exact IH].
Qed.

Lemma bump_keys key (c : list (jsstring * Count)) :
  List.map fst (bump key c)
  = if decide (key ∈ List.map fst c) then List.map fst c
    else if str_eqb key (js "__proto__") then List.map fst c
    else List.map fst c ++ [key].
Proof.
  induction c as [|[k0 n] c IH]; simpl.
  - destruct (decide (key ∈ [])) as [Hin|_]; [now apply elem_of_nil in Hin|].
    unfold inherited. destruct (str_eqb key (js "__proto__")); [reflexivity|].
    now destruct (Object_prototype key).
  - destruct (str_eqb_spec k0 key) as [->|Hne]; simpl.
    + destruct (decide (key ∈ key :: List.map fst c)) as [_|Hn]; [reflexivity|].
      exfalso. apply Hn. left.
    + rewrite IH. destruct (decide (key ∈ List.map fst c)) as [Hin|Hn].
      * destruct (decide (key ∈ k0 :: List.map fst c)) as [_|Hn']; [reflexivity|].
        exfalso. apply Hn'. now right.
      * destruct (decide (key ∈ k0 :: List.map fst c)) as [Hin'|_].
        -- apply elem_of_cons in Hin' as [?|?]; [congruence | contradiction].
        -- now destruct (str_eqb key (js "__proto__")).
Qed.

Lemma bump_NoDup key (c : list (jsstring * Count)) :
  NoDup (List.map fst c) -> NoDup (List.map fst (bump key c)).
Proof.
  intros Hnd. rewrite bump_keys.
  destruct (decide (key ∈ List.map fst c)) as [Hin|Hn]; [exact Hnd|].
  destruct (str_eqb key (js "__proto__")); [exact Hnd|].
  apply NoDup_app. split; [exact Hnd|]. split.
  - intros x Hx Hx'. apply list_elem_of_singleton in Hx'. now subst.
  - apply NoDup_singleton.
Qed.

Lemma countFor_elem (c : list (jsstring * Count)) k n :
  NoDup (List.map fst c) -> ((k, n) ∈ c <-> countFor k c = Some n).
Proof.
  unfold countFor. induction c as [|[k0 m] c IH]; intros Hnd; simpl.
  - split; [intros Hin; now apply elem_of_nil in Hin | discriminate].
  - apply NoDup_cons in Hnd as [Hnot Hnd]. specialize (IH Hnd).
    destruct (str_eqb_spec k0 k) as [->|Hne]; simpl.
    + split.
      * intros Hin. apply elem_of_cons in Hin as [[= ->]|Hin]; [reflexivity|].
        exfalso. apply Hnot. apply list_elem_of_In, in_map_iff.
        exists (k, n). split; [reflexivity | now apply list_elem_of_In].
      * intros [= ->]. left.
    + rewrite <- IH. split.
      * intros Hin. apply elem_of_cons in Hin as [[= ? ?]|Hin]; [congruence | exact Hin].
      * intros Hin. now right.
Qed.

Lemma countStatuses_snoc ts t :
  countStatuses (ts ++ [t]) = bump (status t) (countStatuses ts).
Proof. unfold countStatuses. now rewrite foldl_app. Qed.

Lemma plusOne_expected st n c :
  expectedCount st (S n) = Some c -> Some (plusOne c) = expectedCount st (S (S n)).
Proof.
  unfold expectedCount. destruct (inherited st) as [member|].
  - destruct (str_eqb st (js "__proto__")); [discriminate|].
    intros [= <-]. unfold plusOne.
    assert (Ht : forall l, truthy_str (member ++ 49%N :: l) = true).
    { intros l. destruct member; reflexivity. }
    rewrite Ht. do 2 f_equal. rewrite <- app_assoc. f_equal.
    change (49%N :: replicate n 49%N) with (replicate (S n) 49%N).
    change (js "1") with (replicate 1 49%N). rewrite <- replicate_add.
    f_equal. lia.
  - intros [= <-]. cbn [plusOne]. rewrite or_num_self. do 2 f_equal. lia.
Qed.

(** What [counts] holds after the loop, status by status. *)
Lemma countStatuses_spec ts :
  NoDup (List.map fst (countStatuses ts)) /\
  forall st, countFor st (countStatuses ts)
             = expectedCount st (length (filter (fun t => status t = st) ts)).
Proof.
  induction ts as [|t ts IH] using rev_ind.
  - split; [constructor|]. intros st. reflexivity.
  - destruct IH as (Hnd & Hcount). rewrite countStatuses_snoc.
    split; [now apply bump_NoDup|].
    intros st. rewrite filter_app, length_app, filter_cons, filter_nil.
    destruct (decide (status t = st)) as [<-|Hne].
    + rewrite countFor_bump_same, Hcount. cbn [length].
      rewrite Nat.add_1_r.
      destruct (length (filter (fun t0 => status t0 = status t) ts)) as [|n] eqn:En.
      * cbn [expectedCount]. destruct (inherited (status t)); reflexivity.
      * destruct (expectedCount (status t) (S n)) as [c|] eqn:Ec.
        -- now apply plusOne_expected.
        -- unfold expectedCount in *. destruct (inherited (status t)) as [member|];
             [|discriminate].
           now destruct (str_eqb (status t) (js "__proto__")).
    + rewrite countFor_bump_other by congruence. rewrite Hcount.
      cbn [length]. now rewrite Nat.add_0_r.
Qed.

Lemma insert_sorted_perm e (l : list (N * (jsstring * Count))) :
  insert_sorted e l ≡ₚ e :: l.
Proof.
  induction l as [|x l IH]; simpl; [reflexivity|].
  destruct (fst e <=? fst x)%N; [reflexivity|].
  rewrite IH. apply Permutation_swap.
Qed.

Lemma objectEntries_perm (c : list (jsstring * Count)) : objectEntries c ≡ₚ c.
Proof.
  unfold objectEntries. induction c as [|e c IH]; [reflexivity|].
  simpl. destruct (indexOf (fst e)) as [n|].
  - rewrite insert_sorted_perm. simpl. now rewrite IH.
  - rewrite <- Permutation_middle. now rewrite IH.
Qed.

Lemma totalCount_perm (c c' : list (jsstring * Count)) :
  c ≡ₚ c' -> totalCount c = totalCount c'.
Proof.
  unfold totalCount. induction 1; simpl; lia.
Qed.

Lemma bump_total key (c : list (jsstring * Count)) :
  inherited key = None ->
  Forall (fun e => exists n, snd e = Counted n) c ->
  Forall (fun e => exists n, snd e = Counted n) (bump key c) /\
  totalCount (bump key c) = totalCount c + 1.
Proof.
  intros Hk. unfold totalCount. induction 1 as [|[k0 x] c [n Hn] Hall IH]; simpl.
  - rewrite Hk. split; [repeat constructor; now exists 1 | reflexivity].
  - simpl in Hn. subst x. destruct (str_eqb_spec k0 key); simpl.
    + split; [constructor; [eexists; reflexivity | exact Hall]|].
      fold (or_num (Some n) 0). rewrite or_num_self. lia.
    + destruct IH as [IH1 IH2]. split; [constructor; [now exists n | exact IH1]|].
      rewrite IH2. lia.
Qed.

Lemma countStatuses_total ts :
  (forall t, t ∈ ts -> inherited (status t) = None) ->
  Forall (fun e => exists n, snd e = Counted n) (countStatuses ts) /\
  totalCount (countStatuses ts) = Z.of_nat (length ts).
Proof.
  induction ts as [|t ts IH] using rev_ind; intros Hall.
  - split; [constructor | reflexivity].
  - destruct IH as [IH1 IH2].
    { intros u Hu. apply Hall. apply elem_of_app. now left. }
    rewrite countStatuses_snoc.
    destruct (bump_total (status t) (countStatuses ts)) as [H1 H2]; [|exact IH1|].
    { apply Hall. apply elem_of_app. right. left. }
    split; [exact H1|]. rewrite H2, IH2, length_app. simpl. lia.
Qed.

Lemma cmdStatus_run {W} (s : State W) :
  cmdStatus s =
    match capacity (data s) with
    | None =>
        (Throw (TypeError_undefined (js "committed")),
         mkState (data s) (written s) (console s ++ statusLines (data s))
           (now s) (world s))
    | Some cap =>
        (Ok tt,
         mkState (data s) (written s)
           (console s ++ statusLines (data s) ++ capacityLines cap) (now s) (world s))
    end.
Proof.
  assert (Hmap : forall l : list (jsstring * Count),
            List.map (fun x => (Stdout, snd (statusLine x))) l = List.map statusLine l).
  { intros l. apply List.map_ext. now intros [k n]. }
  unfold cmdStatus, statusLines.
  unfold bind at 1, get at 1.
  do 3 (unfold bind at 1, console_log at 1, print at 1).
  unfold bind at 1.
  match goal with
  | |- context [forEach ?f ?l ?st] =>
      change (forEach f l st)
        with (forEach (fun x => console_log (snd (statusLine x))) l st)
  end.
  rewrite forEach_log, Hmap.
  unfold bind at 1, console_log at 1, print at 1.
  cbn [data written console now world].
  fold (statusEntries (data s)).
  destruct (capacity (data s)) as [cap|].
  - unfold bind, console_log, print, capacityLines.
    cbn [data written console now world].
    repeat rewrite <- app_assoc. reflexivity.
  - unfold throw. repeat rewrite <- app_assoc. reflexivity.
Qed.

Lemma statusEntries_spec d :
  NoDup (List.map fst (statusEntries d)) /\
  forall st c, (st, c) ∈ statusEntries d
               <-> expectedCount st (length (filter (fun t => status t = st)
                                               (activeTasks d))) = Some c.
Proof.
  unfold statusEntries.
  destruct (countStatuses_spec (sprintTasksOf d)) as (Hnd & Hcount).
  pose proof (objectEntries_perm (countStatuses (sprintTasksOf d))) as Hperm.
  split.
  - assert (Hp : fst <$> objectEntries (countStatuses (sprintTasksOf d))
                 ≡ₚ fst <$> countStatuses (sprintTasksOf d)) by now rewrite Hperm.
    change (NoDup (fst <$> objectEntries (countStatuses (sprintTasksOf d)))).
    rewrite Hp. exact Hnd.
  - intros st c. rewrite Hperm, (countFor_elem _ st c Hnd), Hcount.
    now rewrite sprintTasksOf_active.
Qed.

(** X9. The counts of the status view. Each status held by an active
    task is printed at most once. A status that names no member of
    [Object.prototype] is printed with the number of active tasks in
    that status, and only when there is one. A status that names a
    member, such as [constructor], is printed with the text of that
    member followed by one [1] for each task; the status [__proto__] is
    never printed. When no active task has a status that names a
    member, the counts add up to the number of active tasks. *)
Theorem status_counts {W} (s : State W) :
  let d := data s in
  let active := filter (fun t => sprint t = currentSprint d) (tasks d) in
  let es := objectEntries (countStatuses (sprintTasksOf d)) in
  let size (st : jsstring) := length (filter (fun t => status t = st) active) in
  NoDup (List.map fst es) /\
  (forall st c, inherited st = None ->
     ((st, c) ∈ es <-> c = Counted (Z.of_nat (size st)) /\ (0 < size st)%nat)) /\
  (forall st c member, inherited st = Some member -> st <> js "__proto__" ->
     ((st, c) ∈ es <-> c = Text (member ++ replicate (size st) 49%N) /\ (0 < size st)%nat)) /\
  (forall c, (js "__proto__", c) ∉ es) /\
  ((forall t, t ∈ active -> inherited (status t) = None) ->
     totalCount es = Z.of_nat (length active)) /\
  (forall st c, (st, c) ∈ es ->
     (Stdout, statusColor st ++ padRight (st ++ js ":") 15 ++ Ansi.reset ++ js " "
                ++ match c with Counted n => String_of_Z n | Text t => t end
                ++ js " tasks") ∈ console (cmdStatus s).2).
Proof.
  intros d active es size. change active with (activeTasks d) in *.
  fold (statusEntries d) in es.
  destruct (statusEntries_spec d) as [Hnd Hspec]. fold es in Hnd, Hspec.
  assert (Hsize : forall st, length (filter (fun t => status t = st) (activeTasks d))
                             = size st) by reflexivity.
  split; [exact Hnd|]. split; [|split; [|split; [|split]]].
  - intros st c Hi. rewrite Hspec, Hsize. unfold expectedCount.
    destruct (size st) as [|n]; [split; [discriminate | lia]|].
    rewrite Hi. split; [intros [= <-]; split; [reflexivity | lia] | now intros [-> _]].
  - intros st c member Hi Hne. rewrite Hspec, Hsize. unfold expectedCount.
    destruct (size st) as [|n]; [split; [discriminate | lia]|].
    rewrite Hi. destruct (str_eqb_spec st (js "__proto__")); [contradiction|].
    split; [intros [= <-]; split; [reflexivity | lia] | now intros [-> _]].
  - intros c Hin. apply Hspec in Hin. unfold expectedCount in Hin.
    destruct (length _); [discriminate|]. rewrite inherited_proto in Hin.
    now destruct (str_eqb_spec (js "__proto__") (js "__proto__")).
  - intros Hall. unfold es, statusEntries.
    rewrite (totalCount_perm _ _ (objectEntries_perm _)), sprintTasksOf_active.
    now apply countStatuses_total.
  - intros st c He. rewrite cmdStatus_run.
    assert (Hin : statusLine (st, c) ∈ statusLines (data s)).
    { unfold statusLines. apply elem_of_app. right. apply elem_of_app. left.
      apply list_elem_of_In, in_map. now apply list_elem_of_In. }
    destruct (capacity (data s)); cbn [snd console]; apply elem_of_app; right;
      [apply elem_of_app; left|]; exact Hin.
Qed.

(** X10. The status view reads the capacity of the document without a
    guard: on a document that has no [capacity] it throws a [TypeError]
    after it has printed the counts and the points, and on a document
    that has one it returns after the capacity line. *)
Theorem status_needs_capacity {W} (s : State W) :
  (capacity (data s) = None ->
     (cmdStatus s).1 = Throw (TypeError_undefined (js "committed")) /\
     console (cmdStatus s).2 = console s ++ statusLines (data s)) /\
  (forall cap, capacity (data s) = Some cap ->
     (cmdStatus s).1 = Ok tt /\
     console (cmdStatus s).2 = console s ++ statusLines (data s) ++ capacityLines cap).
Proof.
  rewrite cmdStatus_run. split.
  - intros ->. split; reflexivity.
  - intros cap ->. split; reflexivity.
Qed.

(** ** [cmdDebt] *)

Lemma cmdDebt_unfold {W} (s : State W) :
  cmdDebt s =
    match technicalDebt (data s) with
    | None | Some [] =>
        console_log (Ansi.dim ++ js "No technical debt tracked" ++ Ansi.reset) s
    | Some debts =>
        (console_log (nl ++ repeat_unit Glyph.dbl_rule 50) ;;;
         console_log (Ansi.bright ++ js "  TECHNICAL DEBT" ++ Ansi.reset) ;;;
         console_log (repeat_unit Glyph.dbl_rule 50) ;;;
         forEach debtItem debts ;;;
         console_log []) s
    end.
Proof. unfold cmdDebt. unfold bind at 1, get at 1. now destruct (technicalDebt (data s)) as [[|]|]. Qed.

Lemma debtItem_ok {W} (td : TechDebt.t) (s : State W) :
  drawable td ->
  debtItem td s
  = (Ok tt, mkState (data s) (written s) (console s ++ itemLines td) (now s) (world s)).
Proof.
  intros [bar Hb]. unfold debtItem, itemLines. cbv zeta. unfold bind at 1, lift_res at 1.
  rewrite Hb. unfold shownProgress in Hb. rewrite Hb.
  unfold truthy_ostr. destruct (TechDebt.linkedTask td) as [l|]; [destruct (truthy_str l)|];
    unfold bind, console_log, print, ret; cbn [data written console now world];
    repeat rewrite <- app_assoc; reflexivity.
Qed.

Lemma debt_loop_ok {W} (debts : list TechDebt.t) : forall (s : State W),
  Forall drawable debts ->
  forEach debtItem debts s
  = (Ok tt, mkState (data s) (written s) (console s ++ concat (List.map itemLines debts))
              (now s) (world s)).
Proof.
  induction debts as [|td debts IH]; intros s Hall.
  - simpl. unfold ret. rewrite app_nil_r. now destruct s.
  - apply Forall_cons in Hall as [Hb Hall].
    simpl. rewrite (bind_ok _ _ _ _ _ (debtItem_ok td s Hb)).
    rewrite (IH _ Hall). cbn [data written console now world].
    now rewrite <- app_assoc.
Qed.

Lemma debt_loop_throw {W} (good : list TechDebt.t) bad rest e : forall (s : State W),
  Forall drawable good ->
  createProgressBar (shownProgress bad) 15 = Throw e ->
  forEach debtItem (good ++ bad :: rest) s
  = (Throw e, mkState (data s) (written s) (console s ++ concat (List.map itemLines good))
                (now s) (world s)).
Proof.
  induction good as [|td good IH]; intros s Hall Hbad.
  - simpl. unfold bind at 1. unfold debtItem. cbv zeta.
    unfold bind at 1, lift_res at 1. unfold shownProgress in Hbad. rewrite Hbad.
    rewrite app_nil_r. now destruct s.
  - apply Forall_cons in Hall as [Hb Hall].
    simpl. rewrite (bind_ok _ _ _ _ _ (debtItem_ok td s Hb)).
    rewrite (IH _ Hall Hbad). cbn [data written console now world].
    now rewrite <- app_assoc.
Qed.

Lemma bar_in_range (td : TechDebt.t) :
  0 <= shownProgress td <= 103 -> drawable td.
Proof.
  intros Hr. destruct (barFilled_15_range _ Hr) as (f & Hf & Hfr).
  eexists. exact (createProgressBar_within _ _ _ Hf Hfr).
Qed.

(** X11. The debt view. Without items it prints one line and returns.
    When the progress of every item lies between 0 and 103 it returns,
    having printed the heading, the lines of every item in order and an
    empty line. When the bar of an item cannot be drawn, the view throws
    at that item: the heading and the lines of the items before it have
    been printed, nothing is printed for it or for the items after it,
    and the program state is otherwise unchanged. *)
Theorem debt_view {W} (s : State W) :
  (technicalDebt (data s) = None \/ technicalDebt (data s) = Some [] ->
     cmdDebt s = (Ok tt, logged s (Stdout, Ansi.dim ++ js "No technical debt tracked"
                                             ++ Ansi.reset))) /\
  (forall debts, technicalDebt (data s) = Some debts -> debts <> [] ->
     Forall (fun td => 0 <= shownProgress td <= 103) debts ->
     cmdDebt s = (Ok tt, mkState (data s) (written s)
                           (console s ++ debtHeader ++ concat (List.map itemLines debts)
                              ++ [(Stdout, [])])
                           (now s) (world s))) /\
  (forall good bad rest e, technicalDebt (data s) = Some (good ++ bad :: rest) ->
     Forall (fun td => 0 <= shownProgress td <= 103) good ->
     createProgressBar (shownProgress bad) 15 = Throw e ->
     cmdDebt s = (Throw e, mkState (data s) (written s)
                             (console s ++ debtHeader ++ concat (List.map itemLines good))
                             (now s) (world s))).
Proof.
  split; [|split].
  - intros [E|E]; rewrite cmdDebt_unfold, E; reflexivity.
  - intros debts E Hne Hr. rewrite cmdDebt_unfold, E.
    destruct debts as [|td0 debts0] eqn:Ed; [congruence|]. rewrite <- Ed in *.
    assert (Hd : Forall drawable debts) by (eapply Forall_impl; [exact Hr | apply bar_in_range]).
    unfold bind at 1, console_log at 1, print at 1.
    unfold bind at 1, console_log at 1, print at 1.
    unfold bind at 1, console_log at 1, print at 1.
    unfold bind at 1. rewrite (debt_loop_ok debts _ Hd).
    unfold console_log, print. cbn [data written console now world].
    unfold debtHeader. repeat rewrite <- app_assoc. reflexivity.
  - intros good bad rest e E Hr Hbad. rewrite cmdDebt_unfold, E.
    assert (Hd : Forall drawable good) by (eapply Forall_impl; [exact Hr | apply bar_in_range]).
    destruct (good ++ bad :: rest) as [|td0 debts0] eqn:Ed; [now destruct good|].
    rewrite <- Ed.
    unfold bind at 1, console_log at 1, print at 1.
    unfold bind at 1, console_log at 1, print at 1.
    unfold bind at 1, console_log at 1, print at 1.
    unfold bind at 1. rewrite (debt_loop_throw good bad rest e _ Hd Hbad).
    cbn [data written console now world].
    unfold debtHeader. repeat rewrite <- app_assoc. reflexivity.
Qed.

(** ** The bridge: what pull leaves alone *)

Section Frames.
Context {W : Type}.

Lemma sameButTasks_refl (R : Task -> Task -> Prop) (s : State W) :
  (forall t, R t t) -> sameButTasks R s s.
Proof.
  intros Hr. split; [|auto]. apply Forall_Forall2_diag, Forall_forall. auto.
Qed.

Lemma sameButTasks_trans (R : Task -> Task -> Prop) (s1 s2 s3 : State W) :
  (forall x y z, R x y -> R y z -> R x z) ->
  sameButTasks R s1 s2 -> sameButTasks R s2 s3 -> sameButTasks R s1 s3.
Proof.
  intros Ht (Ha & Hb & Hc & Hd) (Ha' & Hb' & Hc' & Hd').
  split; [exact (Forall2_trans _ _ _ _ _ _ Ht Ha Ha')|].
  split; [congruence|]. split; congruence.
Qed.

Lemma sameButTasks_world (R : Task -> Task -> Prop) (s : State W) w :
  (forall t, R t t) -> sameButTasks R s (with_world s w).
Proof. intros Hr. split; [|auto]. apply Forall_Forall2_diag, Forall_forall. auto. Qed.

Lemma sameButTasks_logged (R : Task -> Task -> Prop) (s : State W) l :
  (forall t, R t t) -> sameButTasks R s (logged s l).
Proof. intros Hr. split; [|auto]. apply Forall_Forall2_diag, Forall_forall. auto. Qed.

Lemma sameButTasks_task (R : Task -> Task -> Prop) (s : State W) i f :
  (forall t, R t t) ->
  (forall t, tasks (data s) !! i = Some t -> R t (f t)) ->
  sameButTasks R s (with_task s i f).
Proof.
  intros Hr Hf. split; [|auto]. cbn [with_task data set_tasks tasks].
  apply Forall2_alter_r.
  - apply Forall_Forall2_diag, Forall_forall. auto.
  - intros x y Hx Hy _. rewrite Hx in Hy. injection Hy as <-. auto.
Qed.

Lemma Forall2_alter_twice (R : Task -> Task -> Prop) (l : list Task) f g : forall i,
  (forall t, R t t) ->
  (forall t, l !! i = Some t -> R t (f (g t))) ->
  Forall2 R l (alter f i (alter g i l)).
Proof.
  induction l as [|x l IH]; intros i Hr Hf; [constructor|].
  destruct i as [|i]; cbn.
  - constructor; [now apply Hf|]. apply Forall_Forall2_diag, Forall_forall. auto.
  - constructor; [apply Hr|]. apply IH; [exact Hr|]. intros t Ht. now apply Hf.
Qed.

Lemma pulled_refl today t : pulled today t t.
Proof. now left. Qed.

Lemma pulled_trans today x y z : pulled today x y -> pulled today y z -> pulled today x z.
Proof.
  intros [->|(Hk & Hs & ->)] Hyz; [exact Hyz|].
  destruct Hyz as [->|(_ & Hs' & _)]; [right; auto|].
  now destruct Hs'.
Qed.

Lemma reportsDone_step today (ts ts' : list Task) u :
  Forall2 (pulled today) ts ts' -> reportsDone today ts u -> reportsDone today ts' u.
Proof.
  intros Hp (Ha & t & Hin & Hid & Hs & Hc). split; [exact Ha|].
  apply list_elem_of_lookup in Hin as [j Hj].
  destruct (Forall2_lookup_l _ _ _ _ _ Hp Hj) as (t' & Hj' & [->|(_ & Hn & _)]).
  - exists t. split; [eapply list_elem_of_lookup_2; eassumption|]. auto.
  - now destruct Hn.
Qed.

End Frames.

Section PullFrame.
Context {W : Type} `{Subprocess W}.

Lemma pullTask_frame r i results (s : State W) res s' :
  pullTask r i results s = (res, s') ->
  sameButTasks (pulled (todayOf s)) s s' /\
  forall results', res = Ok results' ->
    results' = results \/
    exists t', tasks (data s') !! i = Some t' /\ status t' = js "done"
               /\ completedAt t' = Some (todayOf s)
               /\ results' = pull_add_updated (mkUpdated (id t') (js "marked done")) results.
Proof.
  intros Hrun.
  destruct (tasks (data s) !! i) as [task|] eqn:Hl.
  - destruct (decide (linked task)) as [Hk|Hu].
    + destruct (getIssueStatus_run (default 0 (githubIssue task)) r s) as (o & w' & Hg).
      rewrite (pullTask_linked r i results s task o _ Hl Hk Hg) in Hrun.
      destruct o as [st|].
      * cbv zeta in Hrun. unfold str_eqb in Hrun.
        destruct (bool_decide (issue_state st = js "CLOSED")) eqn:Ec;
          destruct (bool_decide (status task = js "done")) eqn:Ed;
          cbn [andb negb] in Hrun; injection Hrun as <- <-.
        -- split; [apply sameButTasks_world, pulled_refl | intros ? [= <-]; now left].
        -- apply bool_decide_eq_false_1 in Ed. split.
           ++ split; [|auto]. cbn [logged with_task with_world data set_tasks tasks].
              apply Forall2_alter_twice; [apply pulled_refl|].
              intros x Hx. rewrite Hl in Hx. injection Hx as <-. right. auto.
           ++ intros results' [= <-]. right.
              exists (set_completedAt (todayOf s) (set_status (js "done") task)).
              cbn [logged with_task with_world data set_tasks tasks].
              rewrite list_lookup_alter_eq, list_lookup_alter_eq, Hl. auto.
        -- split; [|intros ? [= <-]; now left].
           eapply sameButTasks_trans; [apply pulled_trans | apply sameButTasks_world, pulled_refl
                                       | apply sameButTasks_logged, pulled_refl].
        -- split; [apply sameButTasks_world, pulled_refl | intros ? [= <-]; now left].
      * injection Hrun as <- <-. split; [apply sameButTasks_world, pulled_refl | intros ? [= <-]; now left].
    + rewrite (pullTask_unlinked r i results s task Hl Hu) in Hrun.
      injection Hrun as <- <-. split; [apply sameButTasks_refl, pulled_refl | intros ? [= <-]; now left].
  - unfold pullTask in Hrun. unfold bind at 1, task_at at 1 in Hrun. rewrite Hl in Hrun.
    injection Hrun as <- <-. split; [apply sameButTasks_refl, pulled_refl | discriminate].
Qed.

Lemma pullLoop_frame r refs : forall results (s : State W) res s',
  pullLoop r refs results s = (res, s') ->
  Forall (reportsDone (todayOf s) (tasks (data s))) (pull_updated results) ->
  sameButTasks (pulled (todayOf s)) s s' /\
  forall results', res = Ok results' ->
    Forall (reportsDone (todayOf s) (tasks (data s'))) (pull_updated results').
Proof.
  induction refs as [|i refs IH]; intros results s res s' Hrun Hrep.
  - injection Hrun as <- <-. split; [apply sameButTasks_refl, pulled_refl|].
    now intros results' [= <-].
  - simpl in Hrun. unfold bind at 1 in Hrun.
    destruct (pullTask r i results s) as [[r1|e] s1] eqn:Hstep.
    + destruct (pullTask_frame r i results s _ _ Hstep) as (Hf1 & Hr1).
      assert (Hnow : todayOf s1 = todayOf s).
      { unfold todayOf. destruct Hf1 as (_ & _ & _ & ->). reflexivity. }
      assert (Hrep1 : Forall (reportsDone (todayOf s1) (tasks (data s1))) (pull_updated r1)).
      { rewrite Hnow. destruct (Hr1 r1 eq_refl) as [->|(t' & Hl' & Hs' & Hc' & ->)].
        - eapply Forall_impl; [exact Hrep|]. intros u. apply reportsDone_step, Hf1.
        - cbn [pull_add_updated pull_updated]. apply Forall_app. split.
          + eapply Forall_impl; [exact Hrep|]. intros u. apply reportsDone_step, Hf1.
          + constructor; [|constructor]. split; [reflexivity|].
            exists t'. split; [eapply list_elem_of_lookup_2; eassumption|]. auto. }
      destruct (IH r1 s1 res s' Hrun Hrep1) as (Hf2 & Hr2). rewrite Hnow in Hf2, Hr2.
      split; [|exact Hr2].
      eapply sameButTasks_trans; [apply pulled_trans | exact Hf1 | exact Hf2].
    + injection Hrun as <- <-.
      destruct (pullTask_frame r i results s _ _ Hstep) as (Hf1 & _).
      split; [exact Hf1 | discriminate].
Qed.

(** X12. What pull leaves alone. However [pullFromGitHub] ends, every
    task of the document is as it was, or it was linked and not done and
    is now done with today's date as [completedAt] and all its other
    fields as before: pull never reopens a task, never links one and
    never touches a task that is done. The number and the order of the
    tasks, the rest of the document and the data file are as before.
    Every entry of the report names a task that is now done, since
    today. *)
Theorem pull_frame config (s : State W) res s' :
  pullFromGitHub config s = (res, s') ->
  sameButTasks (pulled (todayOf s)) s s' /\
  forall results, res = Ok results ->
    Forall (reportsDone (todayOf s) (tasks (data s'))) (pull_updated results).
Proof.
  unfold pullFromGitHub. rewrite (bind_ok _ _ _ _ _ (checkGhCli_run s)).
  destruct (is_ok _); cbn [negb]; cbv iota.
  - unfold bind at 1.
    destruct (getRepoInfo_run (with_world s (execSync (js "gh --version") (world s)).2))
      as (o & Hr).
    rewrite Hr. destruct o as [r|].
    + rewrite (bind_ok _ _ _ _ _ (console_log_run _ _)).
      unfold bind at 1, get at 1. intros Hloop.
      apply pullLoop_frame in Hloop; [exact Hloop | constructor].
    + intros [= <- <-]. split; [|discriminate].
      apply (sameButTasks_world _ (with_world s _)), pulled_refl.
  - intros [= <- <-]. split; [|discriminate]. apply sameButTasks_world, pulled_refl.
Qed.

End PullFrame.

(** ** The bridge: what push leaves alone *)

Section PushFrame.
Context {W : Type} `{Subprocess W}.

Lemma pushed_refl t : pushed t t.
Proof. now left. Qed.

Lemma pushed_trans x y z : pushed x y -> pushed y z -> pushed x z.
Proof.
  intros [->|(Hu & n & u & ->)] Hyz; [exact Hyz|].
  destruct Hyz as [->|(_ & n' & u' & ->)]; right; split; eauto.
Qed.

Lemma project_step_store pn url o (s : State W) :
  exists s', (if truthy_num pn then
                added <- addToProject url (default 0 pn) o ;;
                if added
                then console_log (js "    Added to project #" ++ String_of_Z (default 0 pn))
                else ret tt
              else ret tt) s = (Ok tt, s')
             /\ data s' = data s /\ written s' = written s /\ now s' = now s.
Proof.
  destruct (truthy_num pn); [|unfold ret; eauto].
  destruct (addToProject_run url (default 0 pn) o s) as (b & w' & Ha).
  rewrite (bind_ok _ _ _ _ _ Ha). destruct b; eexists; split; reflexivity || auto.
Qed.

Lemma close_step_store st n r (s : State W) :
  exists s', (if str_eqb st (js "done") then
                _ <- closeIssue n r ;;
                console_log (js "    Closed (task is done)")
              else ret tt) s = (Ok tt, s')
             /\ data s' = data s /\ written s' = written s /\ now s' = now s.
Proof.
  destruct (str_eqb st (js "done")); [|unfold ret; eauto].
  destruct (closeIssue_run n r s) as (b & w' & Hc).
  rewrite (bind_ok _ _ _ _ _ Hc). eexists; split; reflexivity || auto.
Qed.

Lemma syncTask_frame r pn i results (s : State W) res s' :
  syncTask r pn i results s = (res, s') ->
  sameButTasks pushed s s' /\
  (forall j, j <> i -> tasks (data s') !! j = tasks (data s) !! j) /\
  forall results', res = Ok results' -> (entries results' <= S (entries results))%nat.
Proof.
  intros Hrun.
  destruct (tasks (data s) !! i) as [task|] eqn:Hl.
  - unfold syncTask in Hrun. rewrite (bind_ok _ _ _ _ _ (task_at_run i s task Hl)) in Hrun.
    unfold try_catch in Hrun.
    destruct (truthy_num (githubIssue task)) eqn:Ek.
    + destruct (getIssueStatus_run (default 0 (githubIssue task)) r s) as (o & w1 & Hg).
      rewrite (bind_ok _ _ _ _ _ Hg) in Hrun.
      destruct o as [st|].
      * cbv zeta in Hrun.
        destruct (str_eqb (status task) (js "done")
                  && negb (str_eqb (issue_state st) (js "CLOSED"))).
        -- destruct (closeIssue_run (Some (default 0 (githubIssue task))) r (with_world s w1))
             as (b & w2 & Hc).
           rewrite (bind_ok _ _ _ _ _ Hc) in Hrun. injection Hrun as <- <-.
           split; [split; [|auto]; apply Forall_Forall2_diag, Forall_forall; intros;
                   apply pushed_refl|].
           split; [reflexivity|]. intros ? [= <-]. unfold entries. simpl.
           rewrite length_app. simpl. lia.
        -- destruct (negb (str_eqb (status task) (js "done"))
                     && str_eqb (issue_state st) (js "CLOSED")).
           ++ destruct (reopenIssue_run (default 0 (githubIssue task)) r (with_world s w1))
                as (b & w2 & Hc).
              rewrite (bind_ok _ _ _ _ _ Hc) in Hrun. injection Hrun as <- <-.
              split; [split; [|auto]; apply Forall_Forall2_diag, Forall_forall; intros;
                      apply pushed_refl|].
              split; [reflexivity|]. intros ? [= <-]. unfold entries. simpl.
              rewrite length_app. simpl. lia.
           ++ injection Hrun as <- <-.
              split; [split; [|auto]; apply Forall_Forall2_diag, Forall_forall; intros;
                      apply pushed_refl|].
              split; [reflexivity|]. intros ? [= <-]. lia.
      * injection Hrun as <- <-.
        split; [apply sameButTasks_world, pushed_refl|].
        split; [reflexivity|]. intros ? [= <-]. lia.
    + rewrite (bind_ok _ _ _ _ _ (console_log_run _ s)) in Hrun.
      set (s0 := logged s _) in Hrun.
      destruct (createIssue_run task r [] s0) as (w1 & cres & Hc & Hmsg).
      destruct cres as [issue|m].
      * rewrite (bind_ok _ _ _ _ _ Hc) in Hrun.
        rewrite (bind_ok _ _ _ _ _ (modify_task_run i _ _)) in Hrun.
        rewrite (bind_ok _ _ _ _ _ (modify_task_run i _ _)) in Hrun.
        rewrite (bind_ok _ _ _ _ _ (console_log_run _ _)) in Hrun.
        set (s3 := logged _ _) in Hrun.
        destruct (project_step_store pn (issue_url issue) (repo_owner r) s3)
          as (s4 & Hp & Hd4 & Hw4 & Hn4).
        rewrite (bind_ok _ _ _ _ _ Hp) in Hrun.
        destruct (close_step_store (status task) (issue_number issue) r s4)
          as (s5 & Hcl & Hd5 & Hw5 & Hn5).
        rewrite (bind_ok _ _ _ _ _ Hcl) in Hrun. injection Hrun as <- <-.
        unfold sameButTasks. rewrite Hd5, Hd4, Hw5, Hw4, Hn5, Hn4. subst s3 s0.
        cbn [logged with_task with_world data set_tasks tasks written now].
        split; [split; [|auto]|split].
        -- apply Forall2_alter_twice; [apply pushed_refl|].
           intros t Ht. rewrite Hl in Ht. injection Ht as <-. right.
           split; [unfold linked; congruence | eauto].
        -- intros j Hj. now rewrite !list_lookup_alter_ne by congruence.
        -- intros ? [= <-]. unfold entries. simpl. rewrite length_app. simpl. lia.
      * rewrite (bind_throw _ _ _ _ _ Hc) in Hrun. injection Hrun as <- <-.
        split; [split; [|auto]; apply Forall_Forall2_diag, Forall_forall; intros;
                apply pushed_refl|].
        split; [reflexivity|]. intros ? [= <-]. unfold entries. simpl.
        rewrite length_app. simpl. lia.
  - unfold syncTask in Hrun. unfold bind at 1, task_at at 1 in Hrun. rewrite Hl in Hrun.
    injection Hrun as <- <-.
    split; [apply sameButTasks_refl, pushed_refl|]. split; [reflexivity | discriminate].
Qed.

Lemma syncLoop_frame r pn refs : forall results (s : State W) res s',
  syncLoop r pn refs results s = (res, s') ->
  sameButTasks pushed s s' /\
  (forall j, j ∉ refs -> tasks (data s') !! j = tasks (data s) !! j) /\
  forall results', res = Ok results' ->
    (entries results' <= entries results + length refs)%nat.
Proof.
  induction refs as [|i refs IH]; intros results s res s' Hrun.
  - injection Hrun as <- <-. split; [apply sameButTasks_refl, pushed_refl|].
    split; [reflexivity|]. intros ? [= <-]. lia.
  - simpl in Hrun. unfold bind at 1 in Hrun.
    destruct (syncTask r pn i results s) as [[r1|e] s1] eqn:Hstep.
    + destruct (syncTask_frame r pn i results s _ _ Hstep) as (Hf1 & Ho1 & He1).
      destruct (IH r1 s1 res s' Hrun) as (Hf2 & Ho2 & He2).
      split; [eapply sameButTasks_trans; [apply pushed_trans | exact Hf1 | exact Hf2]|].
      split.
      * intros j Hj. rewrite not_elem_of_cons in Hj. destruct Hj as [Hji Hjr].
        now rewrite Ho2, Ho1.
      * intros results' Hr. specialize (He1 r1 eq_refl). specialize (He2 results' Hr).
        simpl. lia.
    + injection Hrun as <- <-.
      destruct (syncTask_frame r pn i results s _ _ Hstep) as (Hf1 & Ho1 & _).
      split; [exact Hf1|]. split; [|discriminate].
      intros j Hj. rewrite not_elem_of_cons in Hj. now apply Ho1.
Qed.

Lemma positions_elem keep (ts : list Task) i :
  i ∈ positions keep ts <-> exists t, ts !! i = Some t /\ keep t = true.
Proof.
  unfold positions. rewrite list_elem_of_In, in_map_iff. split.
  - intros ([j t] & Hi & Hin). simpl in Hi. subst j.
    apply filter_In in Hin as [Hin Hk].
    apply list_elem_of_In, elem_of_lookup_imap in Hin as (k & u & [= -> ->] & Hl). eauto.
  - intros (t & Hl & Hk). exists (i, t). split; [reflexivity|].
    apply filter_In. split; [|exact Hk].
    apply list_elem_of_In, elem_of_lookup_imap. eauto.
Qed.

Lemma positions_length_from keep (ts : list Task) : forall (g : nat -> nat),
  length (List.filter (fun p => keep (snd p)) (imap (fun i x => (g i, x)) ts))
  = length (List.filter keep ts).
Proof.
  induction ts as [|t ts IH]; intros g; [reflexivity|].
  cbn. destruct (keep t); cbn; rewrite <- (IH (g ∘ S)); reflexivity.
Qed.

Lemma positions_length keep (ts : list Task) :
  length (positions keep ts) = length (List.filter keep ts).
Proof.
  unfold positions. rewrite length_map. exact (positions_length_from keep ts (fun i => i)).
Qed.

(** X13. What push leaves alone. However [syncToGitHub] ends, every task
    of the document is as it was, or it was not linked and now records an
    issue number and an address, with all its other fields as before:
    push changes no status and no date. A task outside the selection is
    as it was. The number and the order of the tasks, the rest of the
    document and the data file are as before. The report has at most one
    entry for each selected task. *)
Theorem push_frame config options (s : State W) res s' :
  syncToGitHub config options s = (res, s') ->
  sameButTasks pushed s s' /\
  (forall i t, tasks (data s) !! i = Some t -> selected (data s) options t = false ->
     tasks (data s') !! i = Some t) /\
  forall results, res = Ok results ->
    (entries results
     <= length (List.filter (selected (data s) options) (tasks (data s))))%nat.
Proof.
  unfold syncToGitHub. rewrite (bind_ok _ _ _ _ _ (checkGhCli_run s)).
  destruct (is_ok _); cbn [negb]; cbv iota.
  - unfold bind at 1.
    destruct (getRepoInfo_run (with_world s (execSync (js "gh --version") (world s)).2))
      as (o & Hr).
    rewrite Hr. destruct o as [r|].
    + rewrite (bind_ok _ _ _ _ _ (console_log_run _ _)).
      unfold bind at 1, get at 1. intros Hloop.
      apply syncLoop_frame in Hloop. destruct Hloop as (Hf & Ho & He).
      split; [exact Hf|]. split.
      * intros i t Hl Hsel. rewrite <- Hl. apply Ho.
        rewrite positions_elem. intros (t' & Hl' & Hk).
        cbn [logged with_world data] in Hl'. rewrite Hl in Hl'. injection Hl' as <-.
        cbn [logged with_world data] in Hk. congruence.
      * intros results Hres. specialize (He results Hres).
        rewrite positions_length in He. exact He.
    + intros [= <- <-]. split; [|split; [auto | discriminate]].
      apply (sameButTasks_world _ (with_world s _)), pushed_refl.
  - intros [= <- <-]. split; [|split; [auto | discriminate]].
    apply sameButTasks_world, pushed_refl.
Qed.

End PushFrame.

(** ** The addresses that the bridge reads *)

Lemma startsWith_inv p : forall s, startsWith s p = true -> s = p ++ drop (length p) s.
Proof.
  induction p as [|c p IH]; intros s Hs; [reflexivity|].
  destruct s as [|d s]; [discriminate|]. cbn in Hs.
  apply andb_true_iff in Hs as [Hc Hs]. apply N.eqb_eq in Hc. subst d.
  cbn. f_equal. now apply IH.
Qed.

Lemma first_slash (x : jsstring) : forall (y R T : jsstring),
  noSlash x -> noSlash y -> x ++ 47%N :: R = y ++ 47%N :: T -> x = y /\ R = T.
Proof.
  induction x as [|c x IH]; intros y R T Hx Hy E.
  - destruct y as [|d y]; [now injection E|].
    injection E as <- _. apply Forall_cons in Hy as [Hd _]. now destruct Hd.
  - apply Forall_cons in Hx as [Hc Hx].
    destruct y as [|d y]; [injection E as -> _; now destruct Hc|].
    injection E as <- E. apply Forall_cons in Hy as [_ Hy].
    destruct (IH y R T Hx Hy E) as [-> ->]. auto.
Qed.

Lemma match_issues_cons c (s : jsstring) :
  match_issues (c :: s) =
    if startsWith (c :: s) (js "/issues/") then
      match take_while is_digit (drop 8 (c :: s)) with
      | [] => match_issues s
      | ds => Some ds
      end
    else match_issues s.
Proof. reflexivity. Qed.

Lemma match_issues_host (R : jsstring) :
  match_issues (js "https://github.com" ++ R) = match_issues R.
Proof. reflexivity. Qed.

Lemma match_issues_noSlash (x : jsstring) S :
  noSlash x -> match_issues (x ++ S) = match_issues S.
Proof.
  induction x as [|c x IH]; intros Hx; [reflexivity|].
  apply Forall_cons in Hx as [Hc Hx]. cbn [app]. rewrite match_issues_cons.
  assert (E : startsWith (c :: x ++ S) (js "/issues/") = false).
  { change (js "/issues/") with (47%N :: js "issues/"). cbn [startsWith].
    apply andb_false_iff. left. apply N.eqb_neq. congruence. }
  rewrite E. now apply IH.
Qed.

Lemma match_issues_slash (x R : jsstring) :
  noSlash x -> (x = js "issues" -> take_while is_digit R = []) ->
  match_issues (47%N :: x ++ 47%N :: R) = match_issues (x ++ 47%N :: R).
Proof.
  intros Hx Hd. rewrite match_issues_cons.
  destruct (startsWith _ _) eqn:E; [|reflexivity].
  apply startsWith_inv in E.
  set (T := drop (length (js "/issues/")) (47%N :: x ++ 47%N :: R)) in E.
  change (drop 8 (47%N :: x ++ 47%N :: R)) with T.
  change (js "/issues/" ++ T) with (47%N :: js "issues" ++ 47%N :: T) in E.
  injection E as E.
  assert (Hi : noSlash (js "issues")) by (repeat constructor; discriminate).
  destruct (first_slash x (js "issues") R T Hx Hi E) as [Ex <-].
  now rewrite (Hd Ex).
Qed.

Lemma take_while_all (P : N -> bool) (ds : jsstring) :
  Forall (fun c => P c = true) ds -> take_while P ds = ds.
Proof.
  induction 1 as [|c ds Hc _ IH]; [reflexivity|]. cbn. now rewrite Hc, IH.
Qed.

Lemma take_while_stop (P : N -> bool) (x : jsstring) c rest :
  Forall (fun a => P a = true) x -> P c = false ->
  take_while P (x ++ c :: rest) = x.
Proof.
  induction 1 as [|a x Ha _ IH]; intros Hc; cbn; [now rewrite Hc|].
  now rewrite Ha, IH.
Qed.

Lemma match_issues_number (ds : jsstring) :
  ds <> [] -> Forall (fun c => is_digit c = true) ds ->
  match_issues (js "/issues/" ++ ds) = Some ds.
Proof.
  intros Hne Hall.
  change (js "/issues/" ++ ds) with (47%N :: js "issues/" ++ ds).
  rewrite match_issues_cons.
  change (47%N :: js "issues/" ++ ds) with (js "/issues/" ++ ds).
  rewrite startsWith_app.
  change (drop 8 (js "/issues/" ++ ds)) with ds.
  rewrite (take_while_all _ _ Hall). now destruct ds.
Qed.

(** The digits of a number read back: the Number nearest to it. *)
Lemma digits_of_Z n :
  0 <= n -> decimal n <> [] /\ Forall (fun c => is_digit c = true) (decimal n)
            /\ parseInt (decimal n) = Some (Number_of n).
Proof.
  intros Hn. destruct n as [|p|p]; [| |lia].
  - split; [discriminate|]. split; [repeat constructor | reflexivity].
  - cbn [decimal].
    destruct (String_of_N_spec (N.pos p)) as (ds & Hds & Hne & Hall & Hp).
    rewrite Hds. split; [exact Hne|]. split; [exact Hall|].
    rewrite (parseInt_digits _ Hne Hall).
    destruct ds as [|c ds]; [congruence|].
    rewrite parse_digits_start by (now apply Forall_cons in Hall as [? _]).
    rewrite <- (app_nil_r (c :: ds)), Hp. cbn. f_equal.
Qed.

Lemma Number_of_pos n : 0 < n -> 0 < Number_of n.
Proof.
  intros Hn. unfold Number_of. rewrite Z.abs_eq by lia.
  destruct (n <=? max_safe) eqn:E; [exact Hn|]. apply Z.leb_gt in E.
  cbv zeta. rewrite Z.sgn_pos by exact Hn. rewrite Z.mul_1_l.
  assert (Hinf : 0 < infinity) by (unfold infinity; apply Z.pow_pos_nonneg; lia).
  destruct (infinity <=? _); [exact Hinf|].
  assert (Hlog : 53 <= Z.log2 n).
  { change 53 with (Z.log2 max_safe). apply Z.log2_le_mono. lia. }
  set (e := Z.log2 n - 52).
  assert (Hpow : 0 < 2 ^ e) by (apply Z.pow_pos_nonneg; lia).
  assert (Hq : 1 <= n / 2 ^ e).
  { apply Z.div_le_lower_bound; [exact Hpow|]. rewrite Z.mul_1_r.
    etransitivity; [|apply (Z.log2_spec n Hn)].
    apply Z.pow_le_mono_r; lia. }
  apply Z.mul_pos_pos; [|exact Hpow].
  destruct (_ || _); lia.
Qed.

Lemma issueNumberOf_issueUrl r n :
  plainRepo r -> 0 <= n -> issueNumberOf (issueUrl r n) = Some (Number_of n).
Proof.
  intros (Ho & Hn & Hd) Hpos.
  destruct (digits_of_Z n Hpos) as (Hne & Hall & Hparse).
  unfold issueNumberOf, issueUrl, slug.
  set (o := repo_owner r) in *. set (nm := repo_name r) in *.
  set (D := decimal n) in *.
  assert (E : js "https://github.com/" ++ (o ++ js "/" ++ nm) ++ js "/issues/" ++ D
              = js "https://github.com"
                  ++ 47%N :: o ++ 47%N :: nm ++ 47%N :: js "issues/" ++ D).
  { change (js "https://github.com/") with (js "https://github.com" ++ [47%N]).
    change (js "/") with [47%N]. change (js "/issues/") with (47%N :: js "issues/").
    rewrite <- !app_assoc. reflexivity. }
  rewrite E, match_issues_host.
  rewrite match_issues_slash; [|exact Ho|].
  - rewrite (match_issues_noSlash o) by exact Ho.
    rewrite match_issues_slash; [|exact Hn | reflexivity].
    rewrite (match_issues_noSlash nm) by exact Hn.
    change (47%N :: js "issues/" ++ D) with (js "/issues/" ++ D).
    rewrite (match_issues_number D Hne Hall). exact Hparse.
  - intros Eo. specialize (Hd Eo). destruct nm as [|c nm']; [reflexivity|].
    cbn. now rewrite (Hd c eq_refl).
Qed.

Section PushLinks.
Context {W : Type} `{Subprocess W}.

Lemma createIssue_number task r labels (s : State W) issue s1 :
  createIssue task r labels s = (Ok issue, s1) ->
  issue_number issue = issueNumberOf (issue_url issue).
Proof.
  unfold createIssue.
  destruct (issueLabels task labels) as [|l0 ls] eqn:El.
  - unfold bind at 1. unfold ret at 1. unfold bind at 1. rewrite exec_run.
    destruct (execSync _ (world s)) as [[e|out] w']; cbn [fst snd]; [discriminate|].
    now intros [= <- <-].
  - unfold bind at 1. unfold bind at 1.
    destruct (forEach_exec
                (fun label => execSync (js "gh label create " ++ quote ++ label ++ quote
                                          ++ js " --repo " ++ slug r ++ js " 2>/dev/null"))
                (l0 :: ls) s) as [w1 Hw1].
    rewrite Hw1. unfold ret at 1. unfold bind at 1. rewrite exec_run.
    destruct (execSync _ (world (with_world s w1))) as [[e|out] w']; cbn [fst snd];
      [discriminate|].
    now intros [= <- <-].
Qed.

(** X14. The step of push on a task without issue whose issue is
    created. The task records the number and the address of the issue,
    one entry is added to the created issues, and the step returns even
    when the optional steps that follow (project, closing) fail. The
    number is the one read off the address that the client printed: when
    that address is the address of issue [n] of a repository, the task
    is linked to the Number nearest to [n], which is [n] itself up to
    [2^53], and a later push will not create the issue again;
    when no number can be read off it, the task stays without link, so
    that a later push creates another issue. *)
Theorem push_links r pn i results (s s1 : State W) task issue :
  tasks (data s) !! i = Some task -> ~ linked task ->
  createIssue task r [] (logged s (creatingLine task)) = (Ok issue, s1) ->
  exists s' t',
    syncTask r pn i results s
      = (Ok (add_created (mkCreated (id task) (issue_number issue) (issue_url issue))
               results), s')
    /\ tasks (data s') !! i = Some t'
    /\ t' = set_githubUrl (issue_url issue) (set_githubIssue (issue_number issue) task)
    /\ (forall r0 n, plainRepo r0 -> 0 < n -> issue_url issue = issueUrl r0 n ->
          linked t' /\ githubIssue t' = Some (Number_of n)
          /\ (n <= max_safe -> githubIssue t' = Some n))
    /\ (issueNumberOf (issue_url issue) = None -> ~ linked t').
Proof.
  intros Hl Hu Hc.
  pose proof (createIssue_number _ _ _ _ _ _ Hc) as Hnum.
  unfold syncTask. rewrite (bind_ok _ _ _ _ _ (task_at_run i s task Hl)).
  unfold try_catch. unfold linked in Hu.
  destruct (truthy_num (githubIssue task)) eqn:Ek; [congruence|].
  rewrite (bind_ok _ _ _ _ _ (console_log_run _ s)).
  unfold creatingLine in Hc. rewrite (bind_ok _ _ _ _ _ Hc).
  rewrite (bind_ok _ _ _ _ _ (modify_task_run i _ _)).
  rewrite (bind_ok _ _ _ _ _ (modify_task_run i _ _)).
  rewrite (bind_ok _ _ _ _ _ (console_log_run _ _)).
  set (s3 := logged _ _).
  destruct (project_step_store pn (issue_url issue) (repo_owner r) s3)
    as (s4 & Hp & Hd4 & Hw4 & Hn4).
  rewrite (bind_ok _ _ _ _ _ Hp).
  destruct (close_step_store (status task) (issue_number issue) r s4)
    as (s5 & Hcl & Hd5 & Hw5 & Hn5).
  rewrite (bind_ok _ _ _ _ _ Hcl).
  destruct (createIssue_run task r []
              (logged s (Stdout, js "  Creating issue for " ++ id task ++ js "...")))
    as (w1 & cres & Hrun & _).
  rewrite Hc in Hrun. injection Hrun as _ ->.
  eexists _, _. split; [reflexivity|]. split.
  - rewrite Hd5, Hd4. subst s3.
    cbn [logged with_task with_world data set_tasks tasks].
    rewrite list_lookup_alter_eq, list_lookup_alter_eq, Hl. reflexivity.
  - split; [reflexivity|]. split.
    + intros r0 n Hr0 Hn Hurl. rewrite Hurl in Hnum.
      rewrite (issueNumberOf_issueUrl r0 n Hr0) in Hnum by lia.
      unfold linked. cbn [set_githubUrl set_githubIssue githubIssue]. rewrite Hnum.
      pose proof (Number_of_pos n Hn) as Hpos.
      split; [cbn; apply negb_true_iff, Z.eqb_neq; lia|].
      split; [reflexivity|].
      intros Hsafe. rewrite Number_of_safe by lia. reflexivity.
    + intros Hnone. rewrite Hnone in Hnum. unfold linked.
      cbn [set_githubUrl set_githubIssue githubIssue]. rewrite Hnum. discriminate.
Qed.

End PushLinks.

(** ** The dispatcher: [link] *)

Section LinkFacts.
Context {W : Type} `{Subprocess W}.

(** X15. [link]. Without a task id, or with a number that [parseInt]
    reads as no number or as 0, it prints the usage on the error stream
    and exits with status 1; so it does for a task that is not found;
    nothing is changed then. Otherwise the first task whose id matches
    is linked to the number and the document is saved once. When the
    remote is a GitHub repository the address of the issue is recorded
    too, and for a number up to [2^53] push reads the same number off
    that address; when it is not, the address that the task had is left
    in place, whatever issue it pointed to. No other task is touched. *)
Theorem link_records config (args : list jsstring) (s : State W) :
  (truthy_ostr (args !! 1%nat) = false \/ truthy_num (linkNumber args) = false ->
     main_link config args s
     = (Ok 1, logged s (Stderr, Ansi.red ++ js "Usage: sprint link <task-id> <issue-number>"
                                  ++ Ansi.reset))) /\
  (forall (taskId : jsstring) n,
     args !! 1%nat = Some taskId -> truthy_str taskId = true ->
     linkNumber args = Some n -> n <> 0 ->
     (findTask taskId (tasks (data s)) = None ->
        main_link config args s
        = (Ok 1, logged s (Stderr, Ansi.red ++ js "Task not found: " ++ taskId
                                     ++ Ansi.reset))) /\
     (forall i task o s1,
        findTask taskId (tasks (data s)) = Some (i, task) ->
        getRepoInfo s = (Ok o, s1) ->
        exists s',
          main_link config args s = (Ok 0, s')
          /\ tasks (data s') !! i = Some (linkedTo o n task)
          /\ (forall j, j <> i -> tasks (data s') !! j = tasks (data s) !! j)
          /\ lastUpdated (data s') = now s
          /\ written s' = written s ++ [data s']
          /\ (o = None -> githubUrl (linkedTo o n task) = githubUrl task)
          /\ (forall r, o = Some r -> plainRepo r -> 0 < n <= max_safe ->
                githubUrl (linkedTo o n task) = Some (issueUrl r n)
                /\ issueNumberOf (issueUrl r n) = githubIssue (linkedTo o n task)))).
Proof.
  split.
  - intros Hbad. unfold main_link. fold (linkNumber args).
    assert (E : negb (truthy_ostr (args !! 1%nat)) || negb (truthy_num (linkNumber args))
                = true).
    { destruct Hbad as [-> | ->]; [reflexivity | apply orb_true_r]. }
    rewrite E. reflexivity.
  - intros taskId n H1 Ht Hnum Hn. unfold main_link. fold (linkNumber args).
    rewrite H1, Hnum.
    assert (Ht' : truthy_ostr (Some taskId) = true) by exact Ht.
    assert (Hz : truthy_num (Some n) = true).
    { cbn. apply negb_true_iff, Z.eqb_neq. exact Hn. }
    rewrite Ht', Hz. cbn [negb orb]. cbv iota zeta.
    change (default [] (Some taskId)) with taskId.
    split.
    + intros Hf. unfold bind at 1, get at 1. rewrite Hf. reflexivity.
    + intros i task o s1 Hf Hr. unfold bind at 1, get at 1. rewrite Hf.
      assert (Hl : tasks (data s) !! i = Some task) by (apply list_find_Some in Hf; tauto).
      destruct (getRepoInfo_run s) as (o' & Hr').
      rewrite Hr in Hr'. injection Hr' as <- ->.
      rewrite (bind_ok _ _ _ _ _ Hr).
      destruct o as [r|].
      * run. eexists. split; [reflexivity|]. cbn [data tasks set_tasks set_lastUpdated
                                                  lastUpdated written now with_world].
        rewrite list_lookup_alter_eq, list_lookup_alter_eq, Hl.
        split; [reflexivity|]. split.
        { intros j Hj. now rewrite !list_lookup_alter_ne by congruence. }
        split; [reflexivity|]. split; [reflexivity|]. split; [discriminate|].
        intros r0 [= <-] Hplain Hpos. unfold linkedTo, issueUrl.
        cbn [githubUrl githubIssue set_githubUrl set_githubIssue].
        rewrite String_of_Z_safe by lia. split; [reflexivity|].
        fold (issueUrl r n).
        rewrite issueNumberOf_issueUrl by (trivial || lia).
        rewrite Number_of_safe by lia. reflexivity.
      * run. eexists. split; [reflexivity|]. cbn [data tasks set_tasks set_lastUpdated
                                                  lastUpdated written now with_world].
        rewrite list_lookup_alter_eq, Hl.
        split; [reflexivity|]. split.
        { intros j Hj. now rewrite !list_lookup_alter_ne by congruence. }
        split; [reflexivity|]. split; [reflexivity|]. split; [reflexivity|].
        discriminate.
Qed.

End LinkFacts.

(** ** The address of the remote *)

Lemma match_remote_unfold (s : jsstring) :
  match_remote s = match match_remote_here s with
                   | Some m => Some m
                   | None => match s with
                             | [] => None
                             | _ :: s' => match_remote s'
                             end
                   end.
Proof. now destruct s. Qed.

Lemma match_remote_https (X : jsstring) :
  match_remote (js "https://" ++ X) = match_remote X.
Proof. reflexivity. Qed.

Lemma match_remote_ssh (Y : jsstring) :
  match_remote (js "git@" ++ js "github.com" ++ Y) = match_remote (js "github.com" ++ Y).
Proof. reflexivity. Qed.

Lemma match_remote_here_found (sep : N) (o nm tail : jsstring) :
  sep = 47%N \/ sep = 58%N ->
  o <> [] -> noSlash o -> nm <> [] -> noSlashDot nm -> endsName tail ->
  match_remote_here (js "github.com" ++ sep :: o ++ 47%N :: nm ++ tail) = Some (o, nm).
Proof.
  intros Hsep Hone Ho Hnne Hn Htail. unfold match_remote_here.
  rewrite startsWith_app.
  change (drop 10 (js "github.com" ++ sep :: o ++ 47%N :: nm ++ tail))
    with (sep :: o ++ 47%N :: nm ++ tail).
  assert (Es : (sep =? 47)%N || (sep =? 58)%N = true) by (destruct Hsep; subst; reflexivity).
  cbv beta iota zeta. rewrite Es.
  assert (Eo : take_while not_slash (o ++ 47%N :: nm ++ tail) = o).
  { apply take_while_stop; [|reflexivity].
    eapply Forall_impl; [exact Ho|]. intros c Hc. unfold not_slash.
    apply negb_true_iff, N.eqb_neq. exact Hc. }
  rewrite Eo. destruct o as [|c0 o']; [congruence|].
  rewrite (drop_app_length (c0 :: o')).
  assert (En : take_while not_slash_dot (nm ++ tail) = nm).
  { assert (Hall : Forall (fun c => not_slash_dot c = true) nm).
    { eapply Forall_impl; [exact Hn|]. intros c [H1 H2]. unfold not_slash_dot.
      apply andb_true_iff. split; apply negb_true_iff, N.eqb_neq; assumption. }
    destruct Htail as [-> | (c & t & -> & Hc)].
    - rewrite app_nil_r. now apply take_while_all.
    - apply take_while_stop; [exact Hall|]. destruct Hc; subst; reflexivity. }
  rewrite En. destruct nm; [congruence|]. reflexivity.
Qed.

Lemma replace_absent (x : jsstring) :
  noSlashDot x -> replace x (js ".git") [] = x.
Proof.
  induction 1 as [|c x [_ Hc] _ IH]; [reflexivity|].
  rewrite replace_unfold.
  assert (E : startsWith (c :: x) (js ".git") = false).
  { change (js ".git") with (46%N :: js "git"). cbn [startsWith].
    apply andb_false_iff. left. apply N.eqb_neq. congruence. }
  rewrite E. now rewrite IH.
Qed.

Section RemoteFacts.
Context {W : Type} `{Subprocess W}.

(** X16. Reading the remote. When [git remote get-url origin] prints
    the https or the ssh address of a GitHub repository, [getRepoInfo]
    returns its owner and its name: the owner is the text up to the
    first slash, the name the text that follows up to the first dot or
    slash or to the end, so that the ending [.git] is dropped, and so is
    whatever follows the first dot of a name that holds one. When the
    command fails there is no repository. *)
Theorem remote_parsing (s : State W) :
  (forall e, (execSync (js "git remote get-url origin") (world s)).1 = inl e ->
     (getRepoInfo s).1 = Ok None) /\
  (forall out (o nm tail : jsstring),
     (execSync (js "git remote get-url origin") (world s)).1 = inr out ->
     o <> [] -> noSlash o -> nm <> [] -> noSlashDot nm -> endsName tail ->
     trim out = js "https://github.com/" ++ o ++ js "/" ++ nm ++ tail
     \/ trim out = js "git@github.com:" ++ o ++ js "/" ++ nm ++ tail ->
     (getRepoInfo s).1 = Ok (Some (mkRepoInfo o nm))).
Proof.
  split.
  - intros e He. unfold getRepoInfo, bind. rewrite exec_run.
    destruct (execSync _ (world s)) as [r w']. cbn [fst snd] in *. now subst r.
  - intros out o nm tail Hout Hone Ho Hnne Hn Htail Hurl.
    unfold getRepoInfo, bind. rewrite exec_run.
    destruct (execSync _ (world s)) as [r w']. cbn [fst snd] in *. subst r.
    assert (Em : match_remote (trim out) = Some (o, nm)).
    { destruct Hurl as [-> | ->].
      - change (js "https://github.com/" ++ o ++ js "/" ++ nm ++ tail)
          with (js "https://" ++ js "github.com" ++ 47%N :: o ++ 47%N :: nm ++ tail).
        rewrite match_remote_https, match_remote_unfold.
        rewrite match_remote_here_found; auto.
      - change (js "git@github.com:" ++ o ++ js "/" ++ nm ++ tail)
          with (js "git@" ++ js "github.com" ++ 58%N :: o ++ 47%N :: nm ++ tail).
        rewrite match_remote_ssh, match_remote_unfold.
        rewrite match_remote_here_found; auto. }
    rewrite Em. rewrite (replace_absent nm Hn). reflexivity.
Qed.

End RemoteFacts.

(** ** The dispatcher: how [push] and [pull] end *)

Section SyncOutcomes.
Context {W : Type} `{Subprocess W}.

Lemma syncToGitHub_outcome config options (s : State W) res s' :
  syncToGitHub config options s = (res, s') ->
  sameButTasks pushed s s' /\
  forall m, res = Throw m ->
    data s' = data s
    /\ (m = js "GitHub CLI (gh) not found. Install from https://cli.github.com"
        \/ m = noRemote).
Proof.
  unfold syncToGitHub. rewrite (bind_ok _ _ _ _ _ (checkGhCli_run s)).
  destruct (is_ok _); cbn [negb]; cbv iota.
  - unfold bind at 1.
    destruct (getRepoInfo_run (with_world s (execSync (js "gh --version") (world s)).2))
      as (o & Hr).
    rewrite Hr. destruct o as [r|].
    + rewrite (bind_ok _ _ _ _ _ (console_log_run _ _)).
      unfold bind at 1, get at 1. intros Hloop.
      split; [apply syncLoop_frame in Hloop; apply Hloop|].
      intros m ->.
      match type of Hloop with
      | syncLoop ?r ?pn ?refs ?res0 ?s0 = _ =>
          destruct (syncLoop_total r pn refs res0 s0 (positions_valid_refs _ s0))
            as (r' & s2 & Hok & _)
      end.
      rewrite Hok in Hloop. discriminate.
    + intros [= <- <-]. split.
      * apply (sameButTasks_world _ (with_world s _)), pushed_refl.
      * intros m [= <-]. split; [reflexivity | now right].
  - intros [= <- <-]. split; [apply sameButTasks_world, pushed_refl|].
    intros m [= <-]. split; [reflexivity | now left].
Qed.

Lemma pullFromGitHub_outcome config (s : State W) res s' :
  pullFromGitHub config s = (res, s') ->
  sameButTasks (pulled (todayOf s)) s s' /\
  forall m, res = Throw m ->
    data s' = data s /\ (m = js "GitHub CLI (gh) not found" \/ m = noRemote).
Proof.
  unfold pullFromGitHub. rewrite (bind_ok _ _ _ _ _ (checkGhCli_run s)).
  destruct (is_ok _); cbn [negb]; cbv iota.
  - unfold bind at 1.
    destruct (getRepoInfo_run (with_world s (execSync (js "gh --version") (world s)).2))
      as (o & Hr).
    rewrite Hr. destruct o as [r|].
    + rewrite (bind_ok _ _ _ _ _ (console_log_run _ _)).
      unfold bind at 1, get at 1. intros Hloop.
      split; [apply pullLoop_frame in Hloop; [apply Hloop | constructor]|].
      intros m ->.
      match type of Hloop with
      | pullLoop ?r ?refs ?res0 ?s0 = _ =>
          destruct (pullLoop_total r refs res0 s0 (valid_refs_seq s0))
            as (r' & s2 & Hok & _)
      end.
      rewrite Hok in Hloop. discriminate.
    + intros [= <- <-]. split.
      * apply (sameButTasks_world _ (with_world s _)), pulled_refl.
      * intros m [= <-]. split; [reflexivity | now right].
  - intros [= <- <-]. split; [apply sameButTasks_world, pulled_refl|].
    intros m [= <-]. split; [reflexivity | now left].
Qed.

(** X17. How [push] and [pull] end. Either the command exits with
    status 0 after saving the document exactly once, stamped with the
    time of the run, its tasks being the former ones as push (as pull)
    may change them; or the document and the data file are as they
    were, and the command has exited with status 1, the client missing,
    or has died on an error that nothing catches: the client that went
    missing between the two checks, or a remote that is no GitHub
    repository. *)
Theorem sync_commands_end config args (s : State W) :
  (forall res s', main_push config args s = (res, s') ->
     savedOnce pushed s res s'
     \/ untouched (js "GitHub CLI (gh) not found. Install from https://cli.github.com")
          s res s') /\
  (forall res s', main_pull config args s = (res, s') ->
     savedOnce (pulled (todayOf s)) s res s'
     \/ untouched (js "GitHub CLI (gh) not found") s res s').
Proof.
  split.
  - intros res s'. unfold main_push. rewrite (bind_ok _ _ _ _ _ (checkGhCli_run s)).
    destruct (is_ok _); cbn [negb]; cbv iota.
    + unfold bind at 1.
      destruct (syncToGitHub _ _ _) as [[results|m] s2] eqn:Hsync.
      * destruct (syncToGitHub_outcome _ _ _ _ _ Hsync) as ((Hf & _ & Hw & Hn) & _).
        intros Hrun. left.
        destruct (0 <? length (errors results))%nat; run; injection Hrun as <- <-;
          cbn [data written tasks lastUpdated set_lastUpdated];
          (split; [reflexivity|]); (split; [now rewrite Hw|]); (split; [exact Hn|]);
          exact Hf.
      * destruct (syncToGitHub_outcome _ _ _ _ _ Hsync) as ((_ & _ & Hw & _) & Hm).
        destruct (Hm m eq_refl) as (Hd & Hmsg).
        intros [= <- <-]. right. split; [exact Hd|]. split; [exact Hw|].
        destruct Hmsg as [-> | ->]; auto.
    + intros [= <- <-]. right. split; [reflexivity|]. split; [reflexivity|]. now left.
  - intros res s'. unfold main_pull. rewrite (bind_ok _ _ _ _ _ (checkGhCli_run s)).
    destruct (is_ok _); cbn [negb]; cbv iota.
    + unfold bind at 1.
      destruct (pullFromGitHub _ _) as [[results|m] s2] eqn:Hsync.
      * destruct (pullFromGitHub_outcome _ _ _ _ Hsync) as ((Hf & _ & Hw & Hn) & _).
        intros Hrun. left.
        destruct (0 <? length (pull_errors results))%nat; run; injection Hrun as <- <-;
          cbn [data written tasks lastUpdated set_lastUpdated];
          (split; [reflexivity|]); (split; [now rewrite Hw|]); (split; [exact Hn|]);
          exact Hf.
      * destruct (pullFromGitHub_outcome _ _ _ _ Hsync) as ((_ & _ & Hw & _) & Hm).
        destruct (Hm m eq_refl) as (Hd & Hmsg).
        intros [= <- <-]. right. split; [exact Hd|]. split; [exact Hw|].
        destruct Hmsg as [-> | ->]; auto.
    + intros [= <- <-]. right. split; [reflexivity|]. split; [reflexivity|]. now left.
Qed.

End SyncOutcomes.

(** ** The bridge: push on a linked task *)

Section PushLinked.
Context {W : Type} `{Subprocess W}.

(** X18. The step of push on a linked task never touches the document
    and never records a creation or an error. When the state of the
    issue cannot be read, nothing is recorded and nothing is printed.
    When the task is done and the issue is not closed, [gh issue close]
    is run and the update [closed] is recorded; when the task is not
    done and the issue is closed, [gh issue reopen] is run and the
    update [reopened] is recorded; in both cases whether or not the
    command succeeded. When the two agree, one line says so. *)
Theorem push_reconciles r pn i results (s s1 : State W) task o :
  tasks (data s) !! i = Some task -> linked task ->
  getIssueStatus (default 0 (githubIssue task)) r s = (Ok o, s1) ->
  let n := default 0 (githubIssue task) in
  exists res' s',
    syncTask r pn i results s = (Ok res', s')
    /\ data s' = data s /\ written s' = written s
    /\ created res' = created results /\ errors res' = errors results
    /\ match o with
       | None => res' = results /\ s' = s1
       | Some st =>
           (status task = js "done" -> issue_state st <> js "CLOSED" ->
              updated res' = updated results ++ [mkUpdated (id task) (js "closed")]
              /\ world s' = (execSync (js "gh issue close " ++ String_of_Z n
                                         ++ js " --repo " ++ slug r) (world s1)).2) /\
           (status task <> js "done" -> issue_state st = js "CLOSED" ->
              updated res' = updated results ++ [mkUpdated (id task) (js "reopened")]
              /\ world s' = (execSync (js "gh issue reopen " ++ String_of_Z n
                                         ++ js " --repo " ++ slug r) (world s1)).2) /\
           ((status task = js "done" <-> issue_state st = js "CLOSED") ->
              res' = results
              /\ s' = logged s1 (Stdout, js "  - " ++ id task ++ js " already synced (issue #"
                                           ++ String_of_Z n ++ js ")"))
       end.
Proof.
  intros Hl Hk Hg n.
  destruct (getIssueStatus_run (default 0 (githubIssue task)) r s) as (o' & w1 & Hg').
  rewrite Hg in Hg'. injection Hg' as <- ->.
  unfold syncTask. rewrite (bind_ok _ _ _ _ _ (task_at_run i s task Hl)).
  unfold try_catch. unfold linked in Hk. rewrite Hk.
  rewrite (bind_ok _ _ _ _ _ Hg).
  destruct o as [st|].
  - cbv zeta. unfold str_eqb.
    destruct (decide (status task = js "done")) as [Hd|Hd];
      destruct (decide (issue_state st = js "CLOSED")) as [Hc|Hc].
    + rewrite (bool_decide_eq_true_2 _ Hd), (bool_decide_eq_true_2 _ Hc). cbn [andb negb].
      eexists _, _. split; [reflexivity|]. repeat (split; [reflexivity|]).
      split; [tauto|]. split; [tauto|]. intros _. split; reflexivity.
    + rewrite (bool_decide_eq_true_2 _ Hd), (bool_decide_eq_false_2 _ Hc). cbn [andb negb].
      unfold closeIssue, bind. rewrite exec_run.
      eexists _, _. split; [reflexivity|]. repeat (split; [reflexivity|]).
      split; [intros _ _; split; reflexivity|]. split; [tauto|]. tauto.
    + rewrite (bool_decide_eq_false_2 _ Hd), (bool_decide_eq_true_2 _ Hc). cbn [andb negb].
      unfold reopenIssue, bind. rewrite exec_run.
      eexists _, _. split; [reflexivity|]. repeat (split; [reflexivity|]).
      split; [tauto|]. split; [intros _ _; split; reflexivity|]. tauto.
    + rewrite (bool_decide_eq_false_2 _ Hd), (bool_decide_eq_false_2 _ Hc). cbn [andb negb].
      eexists _, _. split; [reflexivity|]. repeat (split; [reflexivity|]).
      split; [tauto|]. split; [tauto|]. intros _. split; reflexivity.
  - eexists _, _. split; [reflexivity|]. repeat (split; [reflexivity|]). split; reflexivity.
Qed.

End PushLinked.

(** ** [cmdList] and [cmdStatus] *)

Lemma expectedCount_present st n :
  st <> js "__proto__" -> (0 < n)%nat -> exists c, expectedCount st n = Some c.
Proof.
  intros Hne Hn. unfold expectedCount. destruct n as [|n]; [lia|].
  destruct (inherited st); [|eauto].
  destruct (str_eqb_spec st (js "__proto__")); [contradiction | eauto].
Qed.

(** X19. The list view and the status view agree. Without a filter, or
    with the empty text as filter, [list] shows the tasks of the current
    sprint, in order; with a status as filter it shows those of them in
    that status, and for a status that names no member of
    [Object.prototype] their number is the number that [status] prints
    for that status. For a status other than [__proto__] it prints
    [No tasks found] exactly when [status] has no line for that
    status. *)
Theorem list_agrees_with_status {W} (s : State W) (st : jsstring) :
  listedTasks (data s) None = activeTasks (data s) /\
  listedTasks (data s) (Some []) = activeTasks (data s) /\
  (truthy_str st = true ->
     listedTasks (data s) (Some st)
     = filter (fun t => status t = st) (activeTasks (data s))
     /\ (inherited st = None ->
         forall c, (st, c) ∈ statusEntries (data s) ->
           c = Counted (Z.of_nat (length (listedTasks (data s) (Some st)))))
     /\ (st <> js "__proto__" ->
         ((forall c, (st, c) ∉ statusEntries (data s)) <->
            cmdList (Some st) s
            = (Ok tt, logged s (Stdout, Ansi.dim ++ js "No tasks found" ++ Ansi.reset))))).
Proof.
  split; [apply sprintTasksOf_active|]. split; [apply sprintTasksOf_active|].
  intros Ht.
  assert (El : listedTasks (data s) (Some st)
               = filter (fun t => status t = st) (activeTasks (data s))).
  { unfold listedTasks. cbn [truthy_ostr]. change (truthy_ostr (Some st)) with (truthy_str st).
    rewrite Ht. change (default [] (Some st)) with st.
    now rewrite filter_str_eqb, sprintTasksOf_active. }
  destruct (statusEntries_spec (data s)) as [_ Hspec].
  split; [exact El|]. split.
  - intros Hi c Hc. apply Hspec in Hc. rewrite <- El in Hc. unfold expectedCount in Hc.
    destruct (length (listedTasks (data s) (Some st))); [discriminate|].
    rewrite Hi in Hc. now injection Hc as <-.
  - intros Hne. unfold cmdList. unfold bind at 1, get at 1.
    destruct (listedTasks (data s) (Some st)) as [|t ts] eqn:E.
    + split; [reflexivity|]. intros _ c Hc.
      apply Hspec in Hc. rewrite <- El in Hc. discriminate.
    + split.
      * intros Hnone. exfalso.
        destruct (expectedCount_present st (length (t :: ts)) Hne) as [c Hc];
          [simpl; lia|].
        apply (Hnone c). apply Hspec. now rewrite <- El.
      * intros Hrun. exfalso.
        rewrite (bind_ok _ _ _ _ _ (console_log_run _ s)) in Hrun.
        match type of Hrun with
        | forEach ?f ?l ?s1 = _ =>
            assert (Hp : printsOnly (forEach f l : M W unit));
            [|destruct (Hp s1) as (r & lines & Er)]
        end.
        { apply printsOnly_forEach. intros x. repeat (
            match goal with
            | |- printsOnly (bind _ _) => apply printsOnly_bind; [|intros ?]
            | |- printsOnly (console_log _) => apply printsOnly_print
            | |- printsOnly (ret _) => apply printsOnly_ret
            | |- printsOnly (if ?b then _ else _) => destruct b
            end). }
        rewrite Er in Hrun. injection Hrun as _ Hcons.
        cbn [logged console] in Hcons. rewrite <- app_assoc in Hcons.
        apply app_inv_head in Hcons. injection Hcons as Hh _.
        vm_compute in Hh. discriminate.
Qed.

(** ** [findConfig] *)

(** X20. The search for the configuration file. From the working
    directory upwards, [findConfig] returns the nearest directory that
    holds a configuration file, the working directory included and the
    root excluded: a file in the root directory is never found. It
    returns nothing exactly when no directory on the way, short of the
    root, holds one. *)
Theorem find_config_nearest (existsSync : list jsstring * jsstring -> bool) (cwd : list jsstring) :
  (forall f, findConfig existsSync cwd = Some f ->
     configPath f = (projectRoot f, CONFIG_FILE)
     /\ projectRoot f <> []
     /\ hasConfig existsSync (projectRoot f)
     /\ exists below, cwd = below ++ projectRoot f
          /\ forall b1 b2, below = b1 ++ b2 -> b2 <> [] ->
               ~ hasConfig existsSync (b2 ++ projectRoot f)) /\
  (findConfig existsSync cwd = None <->
     forall below d, cwd = below ++ d -> d <> [] -> ~ hasConfig existsSync d).
Proof.
  unfold hasConfig. induction cwd as [|seg parent [IHsome IHnone]].
  - split; [discriminate|]. split; [|reflexivity].
    intros _ below d E Hd. symmetry in E. apply app_eq_nil in E as [_ ->]. congruence.
  - cbn [findConfig]. cbv zeta.
    destruct (existsSync (seg :: parent, CONFIG_FILE)) eqn:Ex.
    + split.
      * intros f [= <-]. cbn. split; [reflexivity|]. split; [discriminate|].
        split; [exact Ex|]. exists []. split; [reflexivity|].
        intros b1 b2 E Hb2. symmetry in E. apply app_eq_nil in E as [_ ->]. congruence.
      * split; [discriminate|]. intros Hall. exfalso.
        apply (Hall [] (seg :: parent) eq_refl); [discriminate | exact Ex].
    + split.
      * intros f Hf. destruct (IHsome f Hf) as (Hp & Hne & Hc & below & Hcwd & Hnear).
        split; [exact Hp|]. split; [exact Hne|]. split; [exact Hc|].
        exists (seg :: below). split; [now rewrite Hcwd|].
        intros b1 b2 E Hb2. destruct b1 as [|c b1].
        -- cbn in E. subst b2. cbn. rewrite <- Hcwd. congruence.
        -- injection E as _ E. now apply (Hnear b1 b2).
      * rewrite IHnone. split.
        -- intros Hall below d E Hd. destruct below as [|c below].
           ++ cbn in E. subst d. congruence.
           ++ injection E as _ E. now apply (Hall below d).
        -- intros Hall below d E Hd. apply (Hall (seg :: below) d); [now rewrite E | exact Hd].
Qed.

End Properties.

(* ================================================================== *)
(** * Instances *)
(* ================================================================== *)

#[global] Existing Instance Sample.runtime.

(** With three configured columns, [task-002] typed in lower case moves
    the second task, the first one whose id matches, and stamps it;
    [backlog], a default column that is not configured, is refused. *)
Lemma cmdMove_spec_witness :
  let s := Sample.state tt [Sample.task "TASK-001" "todo" 3;
                            Sample.task "TASK-002" "doing" 5] in
  (exists t', tasks (data (cmdMove (Some Sample.config) (js "task-002") (js "done") s).2)
                !! 1%nat = Some t'
              /\ status t' = js "done"
              /\ completedAt t' = Some (js "2026-02-02"))
  /\ data (cmdMove (Some Sample.config) (js "task-002") (js "backlog") s).2 = data s
  /\ console (cmdMove (Some Sample.config) (js "task-002") (js "backlog") s).2
     = [(Stderr, Ansi.red ++ js "Invalid status. Use: todo, doing, done" ++ Ansi.reset)].
Proof.
  intros s. split.
  - destruct (cmdMove_spec (Some Sample.config) (js "task-002") (js "done") s)
      as (_ & _ & _ & _ & Hsucc & _).
    destruct (Hsucc 1%nat (Sample.task "TASK-002" "doing" 5))
      as (t' & Hl & Hst & Hstamp & _).
    + cbn [Sample.config columns]. in_list.
    + reflexivity.
    + vm_compute. reflexivity.
    + intros j u Hj Hlt. assert (j = 0%nat) as -> by lia.
      injection Hj as <-. vm_compute. discriminate.
    + exists t'. split; [exact Hl|]. split; [exact Hst|].
      apply Hstamp. split; [reflexivity|]. unfold isSet. simpl. discriminate.
  - destruct (cmdMove_spec (Some Sample.config) (js "task-002") (js "backlog") s)
      as (_ & _ & Hbad & _).
    destruct Hbad as (Hd & _ & Hc).
    + cbn [Sample.config columns]. rewrite !elem_of_cons, elem_of_nil.
      intros Hin. repeat (destruct Hin as [Hin|Hin]; [vm_compute in Hin; discriminate|]).
      exact Hin.
    + split; [exact Hd|]. rewrite Hc. reflexivity.
Defined.

Lemma cmdMove_frame_witness :
  let s := Sample.state tt [Sample.task "TASK-001" "done" 3;
                            Sample.task "TASK-002" "backlog" 5] in
  let d' := data (cmdMove None (js "task-002") (js "review") s).2 in
  tasks d' !! 0%nat = Some (Sample.task "TASK-001" "done" 3)
  /\ technicalDebt d' = Some []
  /\ length (tasks d') = 2%nat.
Proof.
  intros s d'.
  destruct (cmdMove_frame None (js "task-002") (js "review") s 1%nat
              (Sample.task "TASK-002" "backlog" 5)) as (Hdoc & Hlen & Hother & _).
  - in_list.
  - split; [reflexivity|]. split; [reflexivity|].
    intros j u Hj Hlt. assert (j = 0%nat) as -> by lia.
    injection Hj as <-. unfold sameId. vm_compute. discriminate.
  - split; [exact (Hother 0%nat ltac:(lia))|].
    split; [apply Hdoc|exact Hlen].
Defined.



(** C10, as the claim states it: 101 percent of a bar of 15 cells is a
    full bar of 15 cells, not an error. *)
Lemma createProgressBar_101_counterexample :
  ~ (forall percent width, 100 < percent ->
       exists e, createProgressBar percent width = Throw e).
Proof.
  intros Hall. destruct (Hall 101 15) as [e He]; [lia|].
  vm_compute in He. discriminate.
Qed.

Lemma createProgressBar_spec_witness :
  createProgressBar 40 15 =
    Ok (js "[" ++ replicate 6 Glyph.full_block ++ replicate 9 Glyph.light_shade ++ js "]").
Proof.
  destruct createProgressBar_spec as (Hgen & _).
  destruct (Hgen 40 15 6) as (Hin & _); [lia | vm_compute; reflexivity |].
  destruct Hin as (nf & ne & Hsum & Hnf & Hbar); [lia|].
  rewrite Hbar. subst nf.
  assert (ne = 9%nat) as -> by (change (Z.to_nat 6) with 6%nat in Hsum;
                               change (Z.to_nat 15) with 15%nat in Hsum; lia).
  reflexivity.
Defined.




Lemma pullTask_closed_or_reopened_witness :
  exists s' t',
    pullTask Sample.acme 0 (mkPullResults [] []) Sample.reopenedLocally
      = (Ok (mkPullResults [mkUpdated (js "TASK-001") (js "marked done")] []), s')
    /\ tasks (data s') !! 0%nat = Some t'
    /\ completedAt t' = Some (js "2026-02-02").
Proof.
  destruct (pullTask_closed_or_reopened Sample.acme 0 (mkPullResults [] [])
              Sample.reopenedLocally
              (with_world Sample.reopenedLocally (world Sample.reopenedLocally))
              (Sample.linkedTask "TASK-001" "in_progress" 7 (Some (js "2026-01-20")))
              (mkIssueStatus (js "CLOSED") []))
    as (Hclosed & _).
  - reflexivity.
  - reflexivity.
  - vm_compute. reflexivity.
  - destruct Hclosed as (s' & t' & Hrun & Hl & _ & Hc).
    + reflexivity.
    + vm_compute. discriminate.
    + exists s', t'. split; [exact Hrun|]. split; [exact Hl|]. exact Hc.
Defined.

(** The failing input of C2 through the whole command: the date of
    20 January is replaced by the date of the run. *)
Example pull_overwrites_completedAt :
  List.map completedAt (tasks (data Sample.reopenedLocally)) = [Some (js "2026-01-20")]
  /\ List.map completedAt
       (tasks (data (main_pull None [js "pull"] Sample.reopenedLocally).2))
     = [Some (js "2026-02-02")].
Proof. split; vm_compute; reflexivity. Qed.

(** C7, as the claim states it: the issue of the only task cannot be
    read, and pull returns without any error entry. *)
Lemma pull_fetch_failure_counterexample :
  (execSync (js "gh issue view 7 --repo acme/app --json state,title")
     (world Sample.onlyUnreadable)).1 = inl Sample.failed
  /\ (pullFromGitHub None Sample.onlyUnreadable).1 = Ok (mkPullResults [] []).
Proof. split; vm_compute; reflexivity. Qed.

Lemma pull_skips_silently_witness :
  pullTask Sample.acme 0 (mkPullResults [] []) Sample.onlyUnreadable
  = (Ok (mkPullResults [] []), Sample.onlyUnreadable)
  /\ (pullFromGitHub None Sample.unreadableSeven).1
     = Ok (mkPullResults [mkUpdated (js "TASK-003") (js "marked done")] []).
Proof.
  destruct (pull_skips_silently (W := Sample.World) Sample.acme) as (Hskip & _ & _).
  destruct (Hskip [] 0%nat [] (mkPullResults [] []) Sample.onlyUnreadable
              Sample.onlyUnreadable (mkPullResults [] [])
              (Sample.linkedTask "TASK-001" "in_progress" 7 None))
    as (_ & Hlinked); [reflexivity | reflexivity |].
  destruct (Hlinked ltac:(reflexivity) Sample.onlyUnreadable) as (Hstep & _).
  - vm_compute. reflexivity.
  - split; [exact Hstep | vm_compute; reflexivity].
Defined.

Lemma syncLoop_fault_isolation_witness :
  (syncLoop Sample.acme None [0; 1; 2]%nat (mkPushResults [] [] [])
     Sample.secondUncreatable).1
  = Ok (mkPushResults
          [mkCreated (js "TASK-001") (Some 12) (js "https://github.com/acme/app/issues/12");
           mkCreated (js "TASK-003") (Some 13) (js "https://github.com/acme/app/issues/13")]
          []
          [mkErrorEntry (js "TASK-002") (js "Failed to create issue: Command failed")])
  /\ exists res3 s3,
       syncLoop Sample.acme None [0; 1; 2]%nat (mkPushResults [] [] [])
         Sample.secondUncreatable = (Ok res3, s3)
       /\ errors res3
          = [mkErrorEntry (js "TASK-002") (js "Failed to create issue: Command failed")].
Proof.
  pose (res1 := mkPushResults
                  [mkCreated (js "TASK-001") (Some 12)
                     (js "https://github.com/acme/app/issues/12")] [] []).
  pose (s1 := (syncLoop Sample.acme None [0%nat] (mkPushResults [] [] [])
                 Sample.secondUncreatable).2).
  pose (t2 := Sample.task "TASK-002" "backlog" 2).
  pose (s2 := (createIssue t2 Sample.acme [] (logged s1 (creatingLine t2))).2).
  destruct (syncLoop_fault_isolation Sample.acme None [0%nat] 1%nat [2%nat]
              (mkPushResults [] [] []) Sample.secondUncreatable s1 s2 res1 t2
              (js "Failed to create issue: Command failed"))
    as (_ & _ & _ & _ & _ & _ & _ & Hloop & Hrest & _).
  - vm_compute. reflexivity.
  - vm_compute. reflexivity.
  - unfold linked. vm_compute. discriminate.
  - vm_compute. reflexivity.
  - repeat constructor.
  - repeat constructor.
  - change ([0; 1; 2]%nat) with ([0%nat] ++ 1%nat :: [2%nat]).
    split; [rewrite Hloop; vm_compute; reflexivity|].
    destruct Hrest as (res3 & s3 & c1 & u1 & e1 & c3 & u3 & e3 & Hrun & _ & _ & _ & _ & _
                       & Herr & _ & _ & Hq1 & Hq3).
    exists res3, s3. split; [rewrite Hloop; exact Hrun|].
    rewrite Herr, Hq1, Hq3 by (vm_compute; reflexivity). reflexivity.
Defined.

(** C3, as the claim states it: closing the issue of the only task
    fails, and push records an update and no error. *)
Lemma push_close_failure_counterexample :
  (execSync (js "gh issue close 7 --repo acme/app") (world Sample.closeRefused)).1
    = inl Sample.failed
  /\ (syncToGitHub None (mkPushOptions true None) Sample.closeRefused).1
     = Ok (mkPushResults [] [mkUpdated (js "TASK-001") (js "closed")] []).
Proof. split; vm_compute; reflexivity. Qed.

Lemma sync_client_check_witness :
  (main_push None [js "push"] Sample.withoutGh).1 = Ok 1
  /\ written (main_push None [js "push"] Sample.withoutGh).2 = []
  /\ (main_pull None [js "pull"] Sample.withoutGh).1 = Ok 1.
Proof.
  destruct (sync_client_check None [js "push"] Sample.withoutGh) as (Hpush & _).
  destruct (sync_client_check None [js "pull"] Sample.withoutGh) as (Hpull & _).
  destruct Hpush as (Hp & _ & _ & _); [reflexivity|].
  destruct Hpull as (_ & Hq & _ & _); [reflexivity|].
  rewrite Hp, Hq. repeat split.
Defined.

(** C8, as the claim states it: without the client, [link] links the
    task, writes the data file and ends with status 0. *)
Lemma link_without_client_counterexample :
  clientAbsent Sample.withoutGh
  /\ (main_link None [js "link"; js "task-001"; js "42"] Sample.withoutGh).1 = Ok 0
  /\ List.map githubIssue
       (tasks (data (main_link None [js "link"; js "task-001"; js "42"]
                       Sample.withoutGh).2)) = [Some 42]
  /\ length (written (main_link None [js "link"; js "task-001"; js "42"]
                        Sample.withoutGh).2) = 1%nat.
Proof. repeat split; vm_compute; reflexivity. Qed.

Lemma cmdEdit_rejects_witness :
  written (cmdEdit None (Some (js "task-001")) (Some (js "status")) (js "done")
             (Sample.state tt [Sample.task "TASK-001" "backlog" 3])).2 = []
  /\ tasks (data (cmdEdit None (Some (js "task-001")) (Some (js "status")) (js "done")
                    (Sample.state tt [Sample.task "TASK-001" "backlog" 3])).2)
     = [Sample.task "TASK-001" "backlog" 3].
Proof.
  destruct (cmdEdit_rejects None (js "task-001") (Some (js "status")) (js "done")
              (Sample.state tt [Sample.task "TASK-001" "backlog" 3]))
    as (_ & Hd & Hw & _).
  - right. intros f [= <-]. unfold allowedFields.
    rewrite !elem_of_cons, elem_of_nil. intros Hin.
    repeat (destruct Hin as [Hin|Hin]; [vm_compute in Hin; discriminate|]). exact Hin.
  - split; [exact Hw | now rewrite Hd].
Defined.

Lemma cmdEdit_applies_witness :
  List.map points
    (tasks (data (cmdEdit None (Some (js "task-002")) (Some (js "points")) (js "8 pts")
                    (Sample.state tt [Sample.task "TASK-001" "done" 3;
                                      Sample.task "TASK-002" "ready" 5])).2))
  = [Some 3; Some 8].
Proof.
  pose (s := Sample.state tt [Sample.task "TASK-001" "done" 3;
                              Sample.task "TASK-002" "ready" 5]).
  destruct (cmdEdit_applies None (js "task-002") (js "points") (js "8 pts") s 1%nat
              (Sample.task "TASK-002" "ready" 5))
    as (_ & (t' & Hl & Hh & _) & Hother & Hlen & _).
  - split; [reflexivity|]. split; [reflexivity|].
    intros j u Hj Hlt. assert (j = 0%nat) as -> by lia.
    injection Hj as <-. unfold sameId. vm_compute. discriminate.
  - unfold allowedFields. do 3 apply list_elem_of_further. apply list_elem_of_here.
  - fold s.
    destruct (tasks (data (cmdEdit None (Some (js "task-002")) (Some (js "points"))
                             (js "8 pts") s).2)) as [|a [|b [|c l]]] eqn:E;
      simpl in Hlen; try discriminate.
    pose proof (Hother 0%nat ltac:(lia)) as H0. simpl in H0. injection H0 as ->.
    simpl in Hl. injection Hl as ->.
    destruct Hh as (_ & _ & _ & Hp & _). simpl. rewrite Hp by reflexivity.
    reflexivity.
Defined.

Lemma cmdAdd_then_find_witness :
  exists t,
    findTask (js "task-008")
      (tasks (data (cmdAdd None [js "Fix"; js "login"]
                      (Sample.state tt [Sample.task "TASK-001" "done" 3;
                                        Sample.task "TASK-007" "ready" 5])).2))
    = Some (2%nat, t) /\ id t = js "TASK-008" /\ title t = js "Fix login".
Proof.
  destruct (cmdAdd_then_find None [js "Fix"; js "login"] (js "task-008")
              (Sample.state tt [Sample.task "TASK-001" "done" 3;
                                Sample.task "TASK-007" "ready" 5]))
    as ((t & Hf & Hid & Ht) & _).
  - vm_compute. discriminate.
  - split; vm_compute; reflexivity.
  - repeat constructor.
  - vm_compute. discriminate.
  - vm_compute. reflexivity.
  - vm_compute. reflexivity.
  - exists t. split; [exact Hf|].
    split; [rewrite Hid | rewrite Ht]; vm_compute; reflexivity.
Defined.

Lemma missing_id_argument_witness :
  (cmdShow None (Sample.state tt [Sample.task "TASK-001" "done" 3])).1
  = Throw (js "Cannot read properties of undefined (reading 'toLowerCase')").
Proof.
  destruct (missing_id_argument None None [] (Sample.state tt [Sample.task "TASK-001" "done" 3]))
    as (Hthrow & _).
  destruct Hthrow as (Hshow & _); [discriminate|].
  rewrite Hshow. reflexivity.
Defined.

(** A document with a task in a status that is no column, and one with
    a task in the status [constructor]. *)
Lemma board_grouping_witness :
  (exists grouped,
     groupTasks defaultColumns
       (sprintTasksOf (Sample.doc [Sample.task "TASK-001" "done" 3;
                                   Sample.task "TASK-002" "archived" 5;
                                   Sample.task "TASK-003" "done" 1])) = Ok grouped
     /\ grouped !! js "done"
        = Some [Sample.task "TASK-001" "done" 3; Sample.task "TASK-003" "done" 1])
  /\ (cmdBoard None (Sample.state tt [Sample.task "TASK-001" "done" 3;
                                      Sample.task "TASK-002" "constructor" 5])).1
     = Throw (js "grouped[task.status].push is not a function").
Proof.
  split.
  - pose (s := Sample.state tt [Sample.task "TASK-001" "done" 3;
                                Sample.task "TASK-002" "archived" 5;
                                Sample.task "TASK-003" "done" 1]).
    destruct (board_grouping None s) as (Hok & _).
    assert (Hg : groupable defaultColumns (data s))
      by (apply groupable_check; vm_compute; reflexivity).
    destruct (Hok (proj1 Hg) (proj2 Hg)) as (grouped & Hrun & _ & Hcol & _).
    exists grouped. split; [exact Hrun|].
    rewrite (Hcol (js "done")) by in_list. vm_compute. reflexivity.
  - pose (s := Sample.state tt [Sample.task "TASK-001" "done" 3;
                                Sample.task "TASK-002" "constructor" 5]).
    destruct (board_grouping None s) as (_ & Hthrow).
    fold s.
    rewrite (Hthrow ltac:(apply (proj1 (groupable_check defaultColumns (Sample.doc [])
                                          eq_refl)))
               [Sample.task "TASK-001" "done" 3]
               (Sample.task "TASK-002" "constructor" 5) []).
    + reflexivity.
    + vm_compute. reflexivity.
    + intros u Hu. apply list_elem_of_singleton in Hu. subst u. left. in_list.
    + cbv [configColumns]. unfold defaultColumns. rewrite !elem_of_cons, elem_of_nil.
      intros Hin. repeat (destruct Hin as [Hin|Hin]; [vm_compute in Hin; discriminate|]).
      exact Hin.
    + vm_compute. discriminate.
Defined.

Lemma board_rows_witness :
  let s := Sample.state tt [Sample.task "TASK-001" "done" 3;
                            Sample.task "TASK-003" "done" 1] in
  exists i : nat, (i < 2)%nat /\
    cellAt (data s) 15 i (js "done")
    = statusColor (js "done") ++ Glyph.yellow_circle ++ js " TASK-003    " ++ Ansi.reset.
Proof.
  intros s.
  destruct (board_rows None s) as (_ & Hcell).
  - apply groupable_check. vm_compute. reflexivity.
  - destruct (Hcell (Sample.task "TASK-003" "done" 1)) as (i & Hi & _ & Hc).
    + right. left.
    + reflexivity.
    + in_list.
    + exists i. split; [exact Hi|]. exact Hc.
Defined.

Lemma pull_frame_witness :
  sameButTasks (pulled (todayOf Sample.unreadableSeven)) Sample.unreadableSeven
    (pullFromGitHub None Sample.unreadableSeven).2.
Proof.
  exact (proj1 (pull_frame None Sample.unreadableSeven
                  (pullFromGitHub None Sample.unreadableSeven).1
                  (pullFromGitHub None Sample.unreadableSeven).2
                  (surjective_pairing _))).
Defined.

Lemma push_frame_witness :
  sameButTasks pushed Sample.secondUncreatable
    (syncToGitHub None (mkPushOptions true None) Sample.secondUncreatable).2.
Proof.
  exact (proj1 (push_frame None (mkPushOptions true None) Sample.secondUncreatable
                  (syncToGitHub None (mkPushOptions true None) Sample.secondUncreatable).1
                  (syncToGitHub None (mkPushOptions true None) Sample.secondUncreatable).2
                  (surjective_pairing _))).
Defined.

Lemma push_links_witness :
  exists s' t',
    tasks (data s') !! 0%nat = Some t'
    /\ (syncTask Sample.acme None 0 (mkPushResults [] [] []) Sample.secondUncreatable).2 = s'
    /\ githubIssue t' = Some 12.
Proof.
  destruct (push_links Sample.acme None 0 (mkPushResults [] [] [])
              Sample.secondUncreatable
              (createIssue (Sample.task "TASK-001" "backlog" 1) Sample.acme []
                 (logged Sample.secondUncreatable
                    (creatingLine (Sample.task "TASK-001" "backlog" 1)))).2
              (Sample.task "TASK-001" "backlog" 1)
              (mkIssue (js "https://github.com/acme/app/issues/12") (Some 12)))
    as (s' & t' & Hrun & Hl & Ht & Hlinked & _).
  - reflexivity.
  - unfold linked. vm_compute. discriminate.
  - vm_compute. reflexivity.
  - exists s', t'. split; [exact Hl|]. split; [now rewrite Hrun|].
    destruct (Hlinked Sample.acme 12) as (_ & _ & Hn).
    + split; [|split]; [repeat constructor; discriminate ..|].
      vm_compute. discriminate.
    + lia.
    + vm_compute. reflexivity.
    + apply Hn. vm_compute. discriminate.
Defined.

(** Two tasks in [ready], and two tasks in the status [constructor]. *)
Lemma status_counts_witness :
  (Stdout, statusColor (js "ready") ++ padRight (js "ready:") 15 ++ Ansi.reset
             ++ js " 2 tasks")
    ∈ console (cmdStatus (Cases.bareState Cases.three None)).2
  /\ (Stdout, statusColor (js "constructor") ++ padRight (js "constructor:") 15
                ++ Ansi.reset ++ js " function Object() { [native code] }11 tasks")
       ∈ console (cmdStatus (Cases.bareState
                               [Sample.task "TASK-001" "constructor" 1;
                                Sample.task "TASK-002" "constructor" 2] None)).2.
Proof.
  split.
  - destruct (status_counts (Cases.bareState Cases.three None))
      as (_ & Hel & _ & _ & _ & Hline).
    apply (Hline (js "ready") (Counted 2)).
    apply Hel; [vm_compute; reflexivity|]. split; [reflexivity | vm_compute; lia].
  - destruct (status_counts (Cases.bareState
                               [Sample.task "TASK-001" "constructor" 1;
                                Sample.task "TASK-002" "constructor" 2] None))
      as (_ & _ & Hel & _ & _ & Hline).
    apply (Hline (js "constructor")
             (Text (js "function Object() { [native code] }11"))).
    apply (Hel _ _ (js "function Object() { [native code] }"));
      [vm_compute; reflexivity | vm_compute; discriminate|].
    split; [reflexivity | vm_compute; lia].
Defined.

Lemma status_needs_capacity_witness :
  (cmdStatus (Cases.bareState Cases.three None)).1
  = Throw (TypeError_undefined (js "committed")).
Proof.
  destruct (status_needs_capacity (Cases.bareState Cases.three None)) as (Hnone & _).
  destruct Hnone as (Hthrow & _); [reflexivity | exact Hthrow].
Defined.

Lemma debt_view_witness :
  exists e,
    cmdDebt (Cases.bareState [] (Some [Cases.steady; Cases.runaway]))
    = (Throw e, mkState (Cases.bare [] (Some [Cases.steady; Cases.runaway])) []
                  (debtHeader ++ itemLines Cases.steady)
                  (js "2026-02-02T09:00:00.000Z") tt).
Proof.
  assert (E : exists e, createProgressBar (shownProgress Cases.runaway) 15 = Throw e).
  { vm_compute. eexists. reflexivity. }
  destruct E as (e & He). exists e.
  destruct (debt_view (Cases.bareState [] (Some [Cases.steady; Cases.runaway])))
    as (_ & _ & Hthrow).
  rewrite (Hthrow [Cases.steady] Cases.runaway [] e eq_refl).
  - cbn [Cases.bareState data written console now world List.map concat].
    now rewrite app_nil_r.
  - constructor; [|constructor]. vm_compute. split; discriminate.
  - exact He.
Defined.

Lemma link_records_witness :
  exists s',
    main_link None [js "link"; js "task-001"; js "7"] Sample.withoutGh = (Ok 0, s')
    /\ tasks (data s') !! 0%nat
       = Some (linkedTo (Some Sample.acme) 7 (Sample.task "TASK-001" "ready" 1)).
Proof.
  destruct (link_records None [js "link"; js "task-001"; js "7"] Sample.withoutGh)
    as (_ & Hlink).
  destruct (Hlink (js "task-001") 7) as (_ & Hfound).
  - reflexivity.
  - reflexivity.
  - vm_compute. reflexivity.
  - discriminate.
  - destruct (Hfound 0%nat (Sample.task "TASK-001" "ready" 1) (Some Sample.acme)
                (getRepoInfo Sample.withoutGh).2) as (s' & Hrun & Hl & _).
    + vm_compute. reflexivity.
    + vm_compute. reflexivity.
    + exists s'. split; [exact Hrun | exact Hl].
Defined.

Lemma remote_parsing_witness :
  (getRepoInfo Sample.secondUncreatable).1 = Ok (Some Sample.acme).
Proof.
  destruct (remote_parsing Sample.secondUncreatable) as (_ & Hparse).
  apply (Hparse (js "git@github.com:acme/app.git" ++ nl) (js "acme") (js "app") (js ".git")).
  - vm_compute. reflexivity.
  - vm_compute. discriminate.
  - repeat constructor; discriminate.
  - vm_compute. discriminate.
  - repeat constructor; discriminate.
  - right. exists 46%N, (js "git"). split; [reflexivity | now left].
  - right. vm_compute. reflexivity.
Defined.

Lemma sync_commands_end_witness :
  written (main_push None [js "push"] Sample.secondUncreatable).2
  = [data (main_push None [js "push"] Sample.secondUncreatable).2].
Proof.
  destruct (sync_commands_end None [js "push"] Sample.secondUncreatable) as (Hpush & _).
  destruct (Hpush (main_push None [js "push"] Sample.secondUncreatable).1
              (main_push None [js "push"] Sample.secondUncreatable).2
              (surjective_pairing _))
    as [(_ & Hw & _) | (_ & _ & Hres)].
  - exact Hw.
  - exfalso. vm_compute in Hres. destruct Hres as [Hr|[Hr|Hr]]; discriminate.
Defined.

Lemma push_reconciles_witness :
  exists res',
    (syncTask Sample.acme None 0 (mkPushResults [] [] []) Sample.closeRefused).1 = Ok res'
    /\ updated res' = [mkUpdated (js "TASK-001") (js "closed")]
    /\ errors res' = [].
Proof.
  destruct (push_reconciles Sample.acme None 0 (mkPushResults [] [] [])
              Sample.closeRefused
              (getIssueStatus 7 Sample.acme Sample.closeRefused).2
              (Sample.linkedTask "TASK-001" "done" 7 (Some (js "2026-01-20")))
              (Some (mkIssueStatus (js "OPEN") [])))
    as (res' & s' & Hrun & _ & _ & _ & He & Hclose & _).
  - reflexivity.
  - reflexivity.
  - vm_compute. reflexivity.
  - exists res'. split; [now rewrite Hrun|]. split; [|exact He].
    apply Hclose; [reflexivity | vm_compute; discriminate].
Defined.

Lemma list_agrees_with_status_witness :
  (js "ready", Counted 2) ∈ statusEntries (Cases.bare Cases.three None)
  /\ Counted 2
     = Counted (Z.of_nat (length (listedTasks (Cases.bare Cases.three None)
                                    (Some (js "ready"))))).
Proof.
  destruct (list_agrees_with_status (Cases.bareState Cases.three None) (js "ready"))
    as (_ & _ & Hst).
  destruct Hst as (_ & Hn & _); [reflexivity|].
  assert (Hin : (js "ready", Counted 2) ∈ statusEntries (Cases.bare Cases.three None)).
  { vm_compute. repeat first [apply list_elem_of_here | apply list_elem_of_further]. }
  split; [exact Hin|].
  apply (Hn ltac:(vm_compute; reflexivity) (Counted 2) Hin).
Defined.

Lemma find_config_nearest_witness :
  findConfig (fun p => bool_decide (p.1 = [])) [js "app"; js "home"] = None.
Proof.
  destruct (find_config_nearest (fun p => bool_decide (p.1 = [])) [js "app"; js "home"])
    as (_ & Hnone).
  apply Hnone. intros below d _ Hd Hc. unfold hasConfig in Hc. cbn [fst] in Hc.
  apply bool_decide_eq_true_1 in Hc. congruence.
Defined.
